(** * Live music studio: a shallow embedding of [music_ai_core/live_studio.py]

    The Python module holds four classes: [AudioBuffer] (a bounded FIFO of
    samples), [InstrumentSynthesizer] (oscillator and ADSR envelope),
    [EffectsProcessor] (reverb, delay, compression, normalize) and
    [LiveMusicStudio] (track registry and mixer).  Each class is a [Module]
    below and each method a function of the same name.

    Conventions of the embedding.
    - A one-dimensional numpy array of float64 is a [list R]: samples are
      idealised as real numbers, so the rounding of sample values, NaN and
      infinities are outside the model.  A float argument is a real number;
      where it sizes an array it stands for the double nearest to it, which
      is itself when it is the value of a double.
    - Where the code turns a product with a float argument into a count by
      [int()] (the samples of a note, the samples of a delay), the product
      is rounded to binary64 first ([fl]), as the code's product is: the
      count is the code's, not the truncation of the exact product.  A
      product too large for a binary64 number is outside the model.  The
      products with the constants of the constructors (50 ms, attack, decay,
      release) are taken exact.
    - A Python [int] is a [Z]; [int(x)] on a float truncates toward zero
      ([py_int]); [np.floor] is [Int_part].
    - An exception is a value of [error]; a method that can raise returns a
      [result].  A method of a stateful object takes the object and returns
      the new one.
    - A Python [dict] is an association list in insertion order, which is the
      order its [items()] are visited in.
    - Calls are sequential: the lock of [AudioBuffer] only serializes whole
      calls and is not modelled.  Arrays are values: that [record_track]
      keeps the caller's array and [set_track_volume] scales it in place is
      not visible here. *)

From Stdlib Require Import String DecimalString Reals Lra Lia ZArith Bool List.
From Stdlib Require DecimalNat Finite.
Import ListNotations.
Open Scope R_scope.

(** ** Exceptions and results *)

Inductive error : Type :=
| NotFound (track_name : string)  (* raise ValueError(f"Track {track_name} not found") *)
| ConcatEmpty                     (* np.concatenate([]): need at least one array *)
| NegativeDimensions              (* np.zeros(n) with n < 0 *)
| EmptyReduction                  (* np.max of a zero-size array *)
| ZeroDivision                    (* 1 / 0.0 *)
| IndexError                      (* deque.popleft() on an empty deque *)
| KeyError (key : string).        (* d[key] with key absent *)

Inductive result (A : Type) : Type :=
| Ok (a : A)
| Err (e : error).
Arguments Ok {A} a.
Arguments Err {A} e.

Definition bind {A B : Type} (m : result A) (k : A -> result B) : result B :=
  match m with
  | Ok a => k a
  | Err e => Err e
  end.

Notation "x <- m ;; k" := (bind m (fun x => k))
  (at level 61, m at next level, right associativity).
Notation "' p <- m ;; k" := (bind m (fun p => k))
  (at level 61, p pattern, m at next level, right associativity).

(** ** Python and numpy primitives *)

(** [int(x)] for a float [x]: truncation toward zero. *)
Definition py_int (x : R) : Z :=
  if Rle_dec 0 x then Int_part x else (- Int_part (- x))%Z.

(** *** binary64 products *)

Definition bpow (e : Z) : R := powerRZ 2 e.

(** The binade of [x <> 0]: the [e] with [2^e <= |x| < 2^(e+1)]. *)
Definition binade (x : R) : Z := Int_part (ln (Rabs x) / ln 2).

(** The integer nearest to [m], ties to the even one. *)
Definition round_half_even (m : R) : Z :=
  let f := Int_part m in
  if Rlt_dec (m - IZR f) (1 / 2) then f
  else if Rlt_dec (1 / 2) (m - IZR f) then (f + 1)%Z
  else if Z.even f then f else (f + 1)%Z.

(** The double nearest to [x], ties to even: 53 significant bits, gradual
    underflow below [2^-1022]. Overflow to infinity is outside the model. *)
Definition fl (x : R) : R :=
  if Req_dec_T x 0 then 0
  else
    let e := Z.max (binade x - 52) (-1074) in
    IZR (round_half_even (x * bpow (- e))) * bpow e.

(** [float(n)], the conversion Python applies to an [int] operand of a float
    product. *)
Definition py_float (n : Z) : R := fl (IZR n).

(** The doubles that Python reads the literals [0.35] and [0.3] as. *)
Definition double_0_35 : R := 3152519739159347 / 9007199254740992.
Definition double_0_3 : R := 5404319552844595 / 18014398509481984.

(** [np.floor(x)], as a float again. *)
Definition np_floor (x : R) : R := IZR (Int_part x).

(** [max(a, b)] and [min(a, b)] of Python: the first argument wins ties. *)
Definition py_max (a b : R) : R := if Rlt_dec a b then b else a.
Definition py_min (a b : R) : R := if Rlt_dec b a then b else a.

(** [len(range(n))]: a negative bound gives the empty range. *)
Definition range_len (n : Z) : nat := Z.to_nat n.

(** [np.zeros(n)]. *)
Definition np_zeros (n : Z) : result (list R) :=
  if (n <? 0)%Z then Err NegativeDimensions else Ok (repeat 0 (Z.to_nat n)).

(** [np.arange(n)], as floats. *)
Definition np_arange (n : Z) : list R := map INR (seq 0 (range_len n)).

(** [np.linspace(start, stop, num)] for [num >= 1] (both ends included;
    a single point is [start]). *)
Definition np_linspace (start stop : R) (num : nat) : list R :=
  map (fun i => start + INR i * ((stop - start) / INR (Nat.max 1 (num - 1))))
      (seq 0 num).

(** [np.full(n, v)] for [n >= 0]. *)
Definition np_full (n : nat) (v : R) : list R := repeat v n.

(** Element-wise binary operation on two arrays of the same shape. *)
Fixpoint zip_with (f : R -> R -> R) (xs ys : list R) : list R :=
  match xs, ys with
  | x :: xs', y :: ys' => f x y :: zip_with f xs' ys'
  | _, _ => []
  end.

(** [a[:n]] for [n >= 0]. *)
Definition slice_to (n : nat) (a : list R) : list R := firstn n a.

(** [np.max(np.abs(a))]; numpy raises on a zero-size array. *)
Definition peak_abs (a : list R) : result R :=
  match a with
  | [] => Err EmptyReduction
  | x :: a' => Ok (fold_left (fun m y => Rmax m (Rabs y)) a' (Rabs x))
  end.

(** ** AudioBuffer *)

Module AudioBuffer.

(** [_buffer] is a [deque(maxlen=max_size)]: oldest sample first.
    ([deque] refuses a negative [maxlen] when it is built.) *)
Record t : Type := mk {
  sample_rate : Z;
  channels : Z;
  max_size : Z;
  _buffer : list R
}.

Definition with_buffer (b : t) (q : list R) : t :=
  mk (sample_rate b) (channels b) (max_size b) q.

(** [__post_init__]: the deque starts empty. *)
Definition create (sr ch max_size : Z) : t := mk sr ch max_size [].

(** [deque.append] on a bounded deque: when full, the left end is dropped. *)
Definition deque_append (maxlen : Z) (q : list R) (x : R) : list R :=
  let q' := q ++ [x] in
  if (maxlen <? Z.of_nat (length q'))%Z then tl q' else q'.

Definition write (b : t) (data : list R) : t :=
  with_buffer b (fold_left (deque_append (max_size b)) data (_buffer b)).

Definition popleft (q : list R) : result (R * list R) :=
  match q with
  | [] => Err IndexError
  | x :: q' => Ok (x, q')
  end.

(** [[self._buffer.popleft() for _ in range(n)]]. *)
Fixpoint popleft_many (n : nat) (q : list R) : result (list R * list R) :=
  match n with
  | O => Ok ([], q)
  | S n' =>
      '(x, q') <- popleft q ;;
      '(xs, q'') <- popleft_many n' q' ;;
      Ok (x :: xs, q'')
  end.

Definition read (b : t) (frames : Z) : result (list R * t) :=
  if (Z.of_nat (length (_buffer b)) <? frames)%Z then
    z <- np_zeros frames ;; Ok (z, b)
  else
    '(out, q) <- popleft_many (range_len frames) (_buffer b) ;;
    Ok (out, with_buffer b q).

Definition clear (b : t) : t := with_buffer b [].

End AudioBuffer.

(** ** InstrumentSynthesizer *)

Module InstrumentSynthesizer.

(** The [parameters] dictionary; [cutoff] and [resonance] are never read. *)
Record parameter_dict : Type := mk_parameters {
  attack : R;
  decay : R;
  sustain : R;
  release : R;
  cutoff : R;
  resonance : R
}.

Record t : Type := mk {
  sample_rate : Z;
  instrument_type : string;
  parameters : parameter_dict
}.

Definition default_parameters : parameter_dict :=
  mk_parameters 0.01 0.1 0.7 0.3 1000 0.5.

(** [__init__]. *)
Definition create (sr : Z) : t := mk sr "synth" default_parameters.

(** [_envelope_adsr(length, duration)]; [duration] is not used. *)
Definition _envelope_adsr (self : t) (length : nat) (duration : R) : list R :=
  let sr := IZR (sample_rate self) in
  let p := parameters self in
  let attack_len := py_int (attack p * sr) in
  let decay_len := py_int (decay p * sr) in
  let release_len := py_int (release p * sr) in
  let sustain_len := (Z.of_nat length - attack_len - decay_len - release_len)%Z in
  let envelope :=
    np_linspace 0 1 (Z.to_nat (Z.max 1 attack_len)) ++
    np_linspace 1 (sustain p) (Z.to_nat (Z.max 1 decay_len)) ++
    np_full (Z.to_nat (Z.max 0 sustain_len)) (sustain p) ++
    np_linspace (sustain p) 0 (Z.to_nat (Z.max 1 release_len)) in
  slice_to length envelope.

(** [np.sign]. *)
Definition np_sign (x : R) : R :=
  if Rlt_dec 0 x then 1 else if Rlt_dec x 0 then -1 else 0.

(** The waveform at time [t] (seconds), one branch per [if]/[elif]. *)
Definition waveform_at (waveform : string) (frequency t : R) : R :=
  if String.eqb waveform "sine" then
    sin (2 * PI * frequency * t)
  else if String.eqb waveform "square" then
    np_sign (sin (2 * PI * frequency * t))
  else if String.eqb waveform "sawtooth" then
    2 * (t * frequency - np_floor (t * frequency + 0.5))
  else if String.eqb waveform "triangle" then
    4 * Rabs ((t * frequency - np_floor (t * frequency + 0.75)) - 0.5) - 1
  else
    sin (2 * PI * frequency * t).

(** [int(self.sample_rate * duration)]: the product is a product of doubles,
    [duration] being one. *)
Definition note_samples (self : t) (duration : R) : Z :=
  py_int (fl (py_float (sample_rate self) * fl duration)).

Definition synthesize_note (self : t) (frequency duration : R)
           (waveform : string) : list R :=
  let sr := IZR (sample_rate self) in
  let samples := map (fun i => i / sr) (np_arange (note_samples self duration)) in
  let signal := map (waveform_at waveform frequency) samples in
  let envelope := _envelope_adsr self (List.length signal) duration in
  map (fun x => x * 0.3) (zip_with Rmult signal envelope).

End InstrumentSynthesizer.

(** ** EffectsProcessor *)

Module EffectsProcessor.

Record t : Type := mk { sample_rate : Z }.

Definition create (sr : Z) : t := mk sr.

(** Default values of the keyword arguments. *)
Definition default_decay : R := 0.5.
Definition default_delay_time : R := 0.25.
Definition default_feedback : R := 0.3.
Definition default_threshold : R := 0.6.
Definition default_ratio : R := 4.
Definition default_target : R := 0.9.

Definition add_reverb (self : t) (audio : list R) (decay : R) : result (list R) :=
  let delay_samples := py_int (0.05 * IZR (sample_rate self)) in
  z <- np_zeros delay_samples ;;
  let delayed := z ++ audio in
  Ok (zip_with Rplus audio
        (map (fun d => decay * d) (slice_to (length audio) delayed))).

(** [int(delay_time * self.sample_rate)]: the product is a product of
    doubles, [delay_time] being one. *)
Definition delay_samples_of (self : t) (delay_time : R) : Z :=
  py_int (fl (fl delay_time * py_float (sample_rate self))).

Definition add_delay (self : t) (audio : list R) (delay_time feedback : R)
  : result (list R) :=
  let delay_samples := delay_samples_of self delay_time in
  z <- np_zeros delay_samples ;;
  let delayed := z ++ audio in
  Ok (zip_with Rplus audio
        (map (fun d => feedback * d) (slice_to (length audio) delayed))).

(** [1 / ratio] is a Python float division, evaluated whether or not a
    sample exceeds the threshold. *)
Definition add_compression (self : t) (audio : list R) (threshold ratio : R)
  : result (list R) :=
  if Req_dec_T ratio 0 then Err ZeroDivision
  else
    Ok (map (fun a => if Rlt_dec threshold (Rabs a) then a * (1 / ratio) else a)
            audio).

Definition normalize (self : t) (audio : list R) (target : R) : result (list R) :=
  peak <- peak_abs audio ;;
  if Rlt_dec 0 peak then Ok (map (fun a => a * (target / peak)) audio)
  else Ok audio.

End EffectsProcessor.

(** ** Dictionaries keyed by strings *)

Section Dict.
Context {V : Type}.

Definition dict : Type := list (string * V).

(** [d.get(k)]. *)
Fixpoint dict_get (d : dict) (k : string) : option V :=
  match d with
  | [] => None
  | (k', v) :: d' => if String.eqb k' k then Some v else dict_get d' k
  end.

(** [k in d]. *)
Definition dict_mem (d : dict) (k : string) : bool :=
  match dict_get d k with Some _ => true | None => false end.

(** [d[k]]. *)
Definition dict_lookup (d : dict) (k : string) : result V :=
  match dict_get d k with Some v => Ok v | None => Err (KeyError k) end.

(** [d[k] = v]: an existing key keeps its position, a new one goes last. *)
Fixpoint dict_set (d : dict) (k : string) (v : V) : dict :=
  match d with
  | [] => [(k, v)]
  | (k', v') :: d' =>
      if String.eqb k' k then (k', v) :: d' else (k', v') :: dict_set d' k v
  end.

Definition dict_keys (d : dict) : list string := map fst d.
Definition dict_values (d : dict) : list V := map snd d.
End Dict.
Arguments dict V : clear implicits.

(** ** LiveMusicStudio *)

(** The value returned by [mix]: [np.array([])] is one-dimensional, the
    result of [np.stack] has one row per channel. *)
Inductive ndarray : Type :=
| Array1 (samples : list R)
| Array2 (rows : list (list R)).

(** [np.concatenate(arrays)] on one-dimensional arrays. *)
Definition np_concatenate (arrays : list (list R)) : result (list R) :=
  match arrays with
  | [] => Err ConcatEmpty
  | _ :: _ => Ok (concat arrays)
  end.

(** [np.pad(a, (0, k))] for [k >= 0]. *)
Definition np_pad_right (a : list R) (k : nat) : list R := a ++ repeat 0 k.

(** [f"track_{i}"]. *)
Definition track_name_of (i : nat) : string :=
  ("track_" ++ NilEmpty.string_of_uint (Nat.to_uint i))%string.

Module LiveMusicStudio.

(** The keyword arguments of [apply_effect]. *)
Definition kwargs : Type := dict R.

(** [kwargs.get(k, default)]. *)
Definition kwargs_get (kw : kwargs) (k : string) (default : R) : R :=
  match dict_get kw k with Some v => v | None => default end.

(** One entry of [track_parameters]. *)
Record track_params : Type := mk_params {
  name : string;
  muted : bool;
  volume : R;
  pan : R;
  effects : dict kwargs
}.

Definition set_muted (p : track_params) (m : bool) : track_params :=
  mk_params (name p) m (volume p) (pan p) (effects p).
Definition set_volume (p : track_params) (v : R) : track_params :=
  mk_params (name p) (muted p) v (pan p) (effects p).
Definition set_pan (p : track_params) (v : R) : track_params :=
  mk_params (name p) (muted p) (volume p) v (effects p).
Definition set_effects (p : track_params) (e : dict kwargs) : track_params :=
  mk_params (name p) (muted p) (volume p) (pan p) e.

Record t : Type := mk {
  sample_rate : Z;
  num_tracks : Z;
  is_recording : bool;
  is_playing : bool;
  tracks : dict (list R);
  track_buffers : dict AudioBuffer.t;
  track_parameters : dict track_params;
  synthesizer : InstrumentSynthesizer.t;
  effects_processor : EffectsProcessor.t;  (* [self.effects] *)
  master_volume : R;
  tempo : Z;
  time_signature : Z * Z
}.

Definition with_tracks (s : t) (ts : dict (list R)) : t :=
  mk (sample_rate s) (num_tracks s) (is_recording s) (is_playing s) ts
     (track_buffers s) (track_parameters s) (synthesizer s)
     (effects_processor s) (master_volume s) (tempo s) (time_signature s).

Definition with_track_parameters (s : t) (ps : dict track_params) : t :=
  mk (sample_rate s) (num_tracks s) (is_recording s) (is_playing s) (tracks s)
     (track_buffers s) ps (synthesizer s)
     (effects_processor s) (master_volume s) (tempo s) (time_signature s).

Definition with_track_buffers (s : t) (bs : dict AudioBuffer.t) : t :=
  mk (sample_rate s) (num_tracks s) (is_recording s) (is_playing s) (tracks s)
     bs (track_parameters s) (synthesizer s)
     (effects_processor s) (master_volume s) (tempo s) (time_signature s).

(** The body of the loop of [_initialize_tracks] for one [i]. *)
Definition initialize_track (s : t) (i : nat) : t :=
  let track_name := track_name_of i in
  let s1 := with_tracks s (dict_set (tracks s) track_name []) in
  let s2 := with_track_buffers s1
              (dict_set (track_buffers s1) track_name
                 (AudioBuffer.create (sample_rate s) 1 44100%Z)) in
  with_track_parameters s2
    (dict_set (track_parameters s2) track_name
       (mk_params track_name false 1 0 [])).

Definition _initialize_tracks (s : t) : t :=
  fold_left initialize_track (seq 0 (range_len (num_tracks s))) s.

(** [__init__]. *)
Definition create (sr n : Z) : t :=
  _initialize_tracks
    (mk sr n false false [] [] []
        (InstrumentSynthesizer.create sr) (EffectsProcessor.create sr)
        1 120%Z (4%Z, 4%Z)).

Definition record_track (s : t) (track_name : string) (audio : list R)
  : result t :=
  if negb (dict_mem (tracks s) track_name) then Err (NotFound track_name)
  else Ok (with_tracks s (dict_set (tracks s) track_name audio)).

Definition generate_track (s : t) (track_name : string)
           (notes : list (R * R)) (waveform : string) : result (t * list R) :=
  let audio_segments :=
    map (fun '(freq, duration) =>
           InstrumentSynthesizer.synthesize_note (synthesizer s)
             freq duration waveform) notes in
  track_audio <- np_concatenate audio_segments ;;
  s' <- record_track s track_name track_audio ;;
  Ok (s', track_audio).

Definition apply_effect (s : t) (track_name effect_type : string)
           (kw : kwargs) : result t :=
  if negb (dict_mem (tracks s) track_name) then Err (NotFound track_name)
  else
    audio <- dict_lookup (tracks s) track_name ;;
    audio <-
      (if String.eqb effect_type "reverb" then
         EffectsProcessor.add_reverb (effects_processor s) audio
           (kwargs_get kw "decay" 0.5)
       else if String.eqb effect_type "delay" then
         EffectsProcessor.add_delay (effects_processor s) audio
           (kwargs_get kw "delay_time" 0.25)
           EffectsProcessor.default_feedback
       else if String.eqb effect_type "compression" then
         EffectsProcessor.add_compression (effects_processor s) audio
           (kwargs_get kw "threshold" 0.6)
           EffectsProcessor.default_ratio
       else Ok audio) ;;
    let s1 := with_tracks s (dict_set (tracks s) track_name audio) in
    p <- dict_lookup (track_parameters s1) track_name ;;
    Ok (with_track_parameters s1
          (dict_set (track_parameters s1) track_name
             (set_effects p (dict_set (effects p) effect_type kw)))).

Definition set_track_volume (s : t) (track_name : string) (volume : R)
  : result t :=
  if negb (dict_mem (tracks s) track_name) then Err (NotFound track_name)
  else
    let volume := py_max 0 (py_min 1 volume) in
    audio <- dict_lookup (tracks s) track_name ;;
    let s1 := with_tracks s
                (dict_set (tracks s) track_name
                   (map (fun x => x * volume) audio)) in
    p <- dict_lookup (track_parameters s1) track_name ;;
    Ok (with_track_parameters s1
          (dict_set (track_parameters s1) track_name (set_volume p volume))).

Definition set_track_pan (s : t) (track_name : string) (pan : R)
  : result t :=
  if negb (dict_mem (tracks s) track_name) then Err (NotFound track_name)
  else
    let pan := py_max (-1) (py_min 1 pan) in
    p <- dict_lookup (track_parameters s) track_name ;;
    Ok (with_track_parameters s
          (dict_set (track_parameters s) track_name (set_pan p pan))).

(** One turn of the loop of [mix] over [self.tracks.items()]. *)
Definition mix_step (ps : dict track_params) (max_len : nat)
           (acc : result (list R)) (item : string * list R)
  : result (list R) :=
  mono_mix <- acc ;;
  let '(track_name, audio) := item in
  p <- dict_lookup ps track_name ;;
  if negb (muted p) then
    let padded := np_pad_right audio (max_len - length audio) in
    Ok (zip_with Rplus mono_mix padded)
  else Ok mono_mix.

(** [max([len(audio) for audio in self.tracks.values()], default=0)]. *)
Definition max_track_len (s : t) : nat :=
  list_max (map (fun audio => length audio) (dict_values (tracks s))).

(** The mono sum of [mix] before it is normalized. *)
Definition mono_sum (s : t) : result (list R) :=
  let max_len := max_track_len s in
  fold_left (mix_step (track_parameters s) max_len) (tracks s)
    (np_zeros (Z.of_nat max_len)).

Definition mix (s : t) : result ndarray :=
  let max_len := max_track_len s in
  if (max_len =? 0)%nat then Ok (Array1 [])
  else
    mono_mix <- mono_sum s ;;
    mono_mix <- EffectsProcessor.normalize (effects_processor s) mono_mix 0.9 ;;
    let mono_mix := map (fun x => x * master_volume s) mono_mix in
    Ok (Array2 [mono_mix; mono_mix]).

Definition set_tempo (s : t) (bpm : Z) : t :=
  mk (sample_rate s) (num_tracks s) (is_recording s) (is_playing s) (tracks s)
     (track_buffers s) (track_parameters s) (synthesizer s)
     (effects_processor s) (master_volume s) bpm (time_signature s).

Definition set_time_signature (s : t) (numerator denominator : Z) : t :=
  mk (sample_rate s) (num_tracks s) (is_recording s) (is_playing s) (tracks s)
     (track_buffers s) (track_parameters s) (synthesizer s)
     (effects_processor s) (master_volume s) (tempo s)
     (numerator, denominator).

Definition mute_track (s : t) (track_name : string) : t :=
  match dict_get (track_parameters s) track_name with
  | Some p =>
      with_track_parameters s
        (dict_set (track_parameters s) track_name (set_muted p true))
  | None => s
  end.

Definition unmute_track (s : t) (track_name : string) : t :=
  match dict_get (track_parameters s) track_name with
  | Some p =>
      with_track_parameters s
        (dict_set (track_parameters s) track_name (set_muted p false))
  | None => s
  end.

End LiveMusicStudio.

(** ** Notions of the specification *)

(** [round(x)] as the specification uses it for a sample count: an integer
    nearest to [x], whichever way ties go. *)
Definition nearest_integer (x : R) (n : Z) : Prop := Rabs (IZR n - x) <= 1 / 2.

(** The largest absolute value of a non-empty sequence, as a relation. *)
Definition is_peak (a : list R) (m : R) : Prop :=
  Forall (fun x => Rabs x <= m) a /\ Exists (fun x => Rabs x = m) a.

(** Clamping to the interval [[lo, hi]], as the specification words it. *)
Definition clamp (lo hi v : R) : R :=
  if Rlt_dec v lo then lo else if Rlt_dec hi v then hi else v.

(** The two dictionaries of a studio list the same track names, in the same
    order: they are filled together by [_initialize_tracks] and no method
    adds or removes a key. *)
Definition registry_ok (s : LiveMusicStudio.t) : Prop :=
  dict_keys (LiveMusicStudio.tracks s) =
  dict_keys (LiveMusicStudio.track_parameters s).

(** What one track adds to sample [i] of the mono sum: nothing when it is
    muted, its sample when it has one, and zero past its end. *)
Definition contribution (ps : dict LiveMusicStudio.track_params) (i : nat)
           (item : string * list R) : R :=
  match dict_get ps (fst item) with
  | Some p => if LiveMusicStudio.muted p then 0 else nth i (snd item) 0
  | None => 0
  end.

Definition sum_list (xs : list R) : R := fold_right Rplus 0 xs.

(** The outcome of a method, seen through a projection of the new state. *)
Definition result_map {A B : Type} (f : A -> B) (r : result A) : result B :=
  match r with
  | Ok a => Ok (f a)
  | Err e => Err e
  end.

(** The call raised the [NotFound] error. *)
Definition raises_not_found {A : Type} (r : result A) : Prop :=
  exists track_name, r = Err (NotFound track_name).

(** The effect that [apply_effect] runs on the samples of the track: the
    [if]/[elif] chain of the method, on its own. *)
Definition dispatched (s : LiveMusicStudio.t) (effect_type : string)
           (kw : LiveMusicStudio.kwargs) (audio : list R) : result (list R) :=
  if String.eqb effect_type "reverb" then
    EffectsProcessor.add_reverb (LiveMusicStudio.effects_processor s) audio
      (LiveMusicStudio.kwargs_get kw "decay" 0.5)
  else if String.eqb effect_type "delay" then
    EffectsProcessor.add_delay (LiveMusicStudio.effects_processor s) audio
      (LiveMusicStudio.kwargs_get kw "delay_time" 0.25)
      EffectsProcessor.default_feedback
  else if String.eqb effect_type "compression" then
    EffectsProcessor.add_compression (LiveMusicStudio.effects_processor s) audio
      (LiveMusicStudio.kwargs_get kw "threshold" 0.6)
      EffectsProcessor.default_ratio
  else Ok audio.

(** ** The callers of the studio *)

(** [c.isspace()] for a character whose code point is below 256. *)
Definition py_isspace (c : Ascii.ascii) : bool :=
  let n := Ascii.nat_of_ascii c in
  ((9 <=? n)%nat && (n <=? 13)%nat) || ((28 <=? n)%nat && (n <=? 32)%nat)
  || (n =? 133)%nat || (n =? 160)%nat.

(** [s.split()] on such a string: the maximal runs of characters that are
    not whitespace, in order. [cur] is the run being read. *)
Fixpoint split_from (cur s : string) : list string :=
  match s with
  | EmptyString => if String.eqb cur "" then [] else [cur]
  | String c s' =>
      if py_isspace c then
        if String.eqb cur "" then split_from "" s'
        else cur :: split_from "" s'
      else split_from (cur ++ String c "") s'
  end.

Definition py_split (s : string) : list string := split_from "" s.

(** [del d[k]]. *)
Definition dict_del {V : Type} (d : dict V) (k : string) : result (dict V) :=
  if dict_mem d k then Ok (filter (fun kv => negb (String.eqb (fst kv) k)) d)
  else Err (KeyError k).

(** [l[j:]] for a list of length [len]: the index where the slice starts. *)
Definition slice_start (j : Z) (len : nat) : nat :=
  if (j <? 0)%Z then Z.to_nat (Z.max 0 (Z.of_nat len + j))
  else Z.to_nat (Z.min j (Z.of_nat len)).

(** The methods of [MusicAIStudio] (music_ai_studio.py) that drive the
    studio. They read and assign [self.studio] only, so they are functions
    of the studio; what they print is not modelled. *)
Module MusicAIStudio.

Definition note_map : dict R :=
  [("C"%string, 261.63); ("D"%string, 293.66); ("E"%string, 329.63);
   ("F"%string, 349.23); ("G"%string, 391.99); ("A"%string, 440);
   ("B"%string, 493.88)].

(** The loop over [note_names]: a name of [note_map] gives one note of half
    a second, any other word is passed over. *)
Definition parse_notes (notes_description : string) : list (R * R) :=
  flat_map (fun note_name =>
              match dict_get note_map note_name with
              | Some freq => [(freq, 0.5)]
              | None => []
              end)
           (py_split notes_description).

Definition generate_track (studio : LiveMusicStudio.t)
           (track_name notes_description : string) : result LiveMusicStudio.t :=
  match parse_notes notes_description with
  | [] => Ok studio
  | notes =>
      '(studio', _) <-
        LiveMusicStudio.generate_track studio track_name notes "sine" ;;
      Ok studio'
  end.

Definition add_effect_to_track (studio : LiveMusicStudio.t)
           (track_name effect : string) (params : LiveMusicStudio.kwargs)
  : result LiveMusicStudio.t :=
  LiveMusicStudio.apply_effect studio track_name effect params.

End MusicAIStudio.

(** The registry and the event log of [ModuleOrchestrator]
    (music_ai_core/orchestrator.py). A module instance is any value of a type
    [M]. [datetime.now().isoformat()] is the argument [now] of each method
    that logs. Of [session_data] the creation time is kept. The callbacks,
    and the methods that call into the modules or touch files, are not
    modelled. *)
Module ModuleOrchestrator.

Inductive ModuleState : Type := IDLE | PROCESSING | READY | ERROR.

(** [state.value]. *)
Definition value (st : ModuleState) : string :=
  match st with
  | IDLE => "idle"
  | PROCESSING => "processing"
  | READY => "ready"
  | ERROR => "error"
  end.

Record event : Type := mk_event {
  timestamp : string;
  type : string;
  data : dict string
}.

Section Instances.
Context {M : Type}.

Record t : Type := mk {
  modules : dict M;
  module_states : dict ModuleState;
  event_log : list event;
  created_at : string
}.

(** [__init__]. *)
Definition create (now : string) : t := mk [] [] [] now.

Definition _log_event (o : t) (now event_type : string) (d : dict string) : t :=
  mk (modules o) (module_states o)
     (event_log o ++ [mk_event now event_type d]) (created_at o).

Definition register_module (o : t) (now module_name : string) (instance : M)
  : t :=
  let o1 := mk (dict_set (modules o) module_name instance)
               (dict_set (module_states o) module_name READY)
               (event_log o) (created_at o) in
  _log_event o1 now "module_registered" [("module"%string, module_name)].

Definition unregister_module (o : t) (now module_name : string) : result t :=
  if dict_mem (modules o) module_name then
    ms <- dict_del (modules o) module_name ;;
    sts <- dict_del (module_states o) module_name ;;
    Ok (_log_event (mk ms sts (event_log o) (created_at o)) now
          "module_unregistered" [("module"%string, module_name)])
  else Ok o.

Definition get_module (o : t) (module_name : string) : option M :=
  dict_get (modules o) module_name.

Definition set_module_state (o : t) (now module_name : string)
           (state : ModuleState) : t :=
  if dict_mem (module_states o) module_name then
    _log_event
      (mk (modules o) (dict_set (module_states o) module_name state)
          (event_log o) (created_at o))
      now "state_change"
      [("module"%string, module_name); ("state"%string, value state)]
  else o.

Definition get_module_status (o : t) : dict string :=
  map (fun kv => (fst kv, value (snd kv))) (module_states o).

(** [limit] is [None] or an integer; [if limit:] takes 0 for [None]. *)
Definition get_event_log (o : t) (limit : option Z) : list event :=
  match limit with
  | None => event_log o
  | Some l =>
      if (l =? 0)%Z then event_log o
      else skipn (slice_start (- l) (length (event_log o))) (event_log o)
  end.

Record system_info : Type := mk_info {
  info_modules : list string;
  module_count : nat;
  info_module_states : dict string;
  event_count : nat;
  session_created : string
}.

Definition get_system_info (o : t) : system_info :=
  mk_info (dict_keys (modules o)) (length (modules o))
          (get_module_status o) (length (event_log o)) (created_at o).

End Instances.
Arguments t M : clear implicits.

End ModuleOrchestrator.

(** The two dictionaries of an orchestrator list the same module names:
    [register_module] and [unregister_module] assign and delete in both. *)
Definition modules_consistent {M : Type} (o : ModuleOrchestrator.t M) : Prop :=
  dict_keys (ModuleOrchestrator.modules o) =
  dict_keys (ModuleOrchestrator.module_states o).

(** The [k] last elements of a list. *)
Definition lastn {A : Type} (k : nat) (l : list A) : list A :=
  skipn (length l - k) l.

(** * Properties *)

(** ** Arrays *)

Lemma zip_with_length (f : R -> R -> R) (xs ys : list R) :
  length (zip_with f xs ys) = Nat.min (length xs) (length ys).
Proof.
  revert ys; induction xs as [|x xs IH]; intros [|y ys]; simpl; auto.
Qed.

Lemma zip_with_nth (f : R -> R -> R) (xs ys : list R) (i : nat) (dx dy d : R) :
  (i < length xs)%nat -> (i < length ys)%nat ->
  nth i (zip_with f xs ys) d = f (nth i xs dx) (nth i ys dy).
Proof.
  revert ys i; induction xs as [|x xs IH]; intros [|y ys] [|i]; simpl;
    intros Hx Hy; try lia; auto.
  apply IH; lia.
Qed.

Lemma np_zeros_ok (n : Z) :
  (0 <= n)%Z -> np_zeros n = Ok (repeat 0 (Z.to_nat n)).
Proof.
  intros Hn. unfold np_zeros.
  destruct (Z.ltb_spec n 0); [lia | reflexivity].
Qed.

Lemma np_zeros_neg (n : Z) :
  (n < 0)%Z -> np_zeros n = Err NegativeDimensions.
Proof.
  intros Hn. unfold np_zeros.
  destruct (Z.ltb_spec n 0); [reflexivity | lia].
Qed.

(** ** AudioBuffer: reading *)

Section AudioBufferFacts.
Import AudioBuffer.

Lemma popleft_many_split (n : nat) (q : list R) :
  (n <= length q)%nat ->
  popleft_many n q = Ok (firstn n q, skipn n q).
Proof.
  revert q; induction n as [|n IH]; intros q Hn; simpl.
  - reflexivity.
  - destruct q as [|x q]; simpl in *; [lia|].
    rewrite IH by lia. reflexivity.
Qed.

(** Without enough samples the deque is not touched. *)
Lemma read_short (b : t) (frames : Z) :
  (Z.of_nat (length (_buffer b)) < frames)%Z ->
  read b frames = Ok (repeat 0 (Z.to_nat frames), b).
Proof.
  intros Hlt. unfold read.
  destruct (Z.ltb_spec (Z.of_nat (length (_buffer b))) frames); [|lia].
  rewrite np_zeros_ok by lia. reflexivity.
Qed.

Lemma read_enough (b : t) (frames : Z) :
  (frames <= Z.of_nat (length (_buffer b)))%Z ->
  read b frames =
    Ok (firstn (Z.to_nat frames) (_buffer b),
        with_buffer b (skipn (Z.to_nat frames) (_buffer b))).
Proof.
  intros Hle. unfold read, range_len.
  destruct (Z.ltb_spec (Z.of_nat (length (_buffer b))) frames); [lia|].
  rewrite popleft_many_split by lia. reflexivity.
Qed.

(** A write appends at the right end; below the bound nothing is dropped. *)
Lemma write_fits (b : t) (data : list R) :
  (Z.of_nat (length (_buffer b) + length data) <= max_size b)%Z ->
  _buffer (write b data) = _buffer b ++ data.
Proof.
  unfold write; simpl. generalize (_buffer b) as q.
  induction data as [|x data IH]; intros q Hfit; simpl.
  - now rewrite app_nil_r.
  - unfold deque_append at 2.
    destruct (Z.ltb_spec (max_size b) (Z.of_nat (length (q ++ [x])))) as [Hov|_].
    + rewrite length_app in Hov; simpl in *; lia.
    + rewrite IH.
      * now rewrite <- app_assoc.
      * rewrite length_app; simpl in *; lia.
Qed.

(** C3. [read(frames)] when fewer than [frames] samples are buffered
    returns exactly [frames] zeros and leaves the buffer as it was;
    otherwise (for a count [frames >= 0]) it removes and returns exactly
    the [frames] oldest samples, in the order they were queued. *)
Theorem read_zero_fill_or_fifo (b : t) (frames : Z) :
  ((Z.of_nat (length (_buffer b)) < frames)%Z ->
   exists zeros,
     read b frames = Ok (zeros, b) /\
     Z.of_nat (length zeros) = frames /\
     Forall (fun x => x = 0) zeros)
  /\
  ((0 <= frames <= Z.of_nat (length (_buffer b)))%Z ->
   exists out rest,
     read b frames = Ok (out, with_buffer b rest) /\
     _buffer b = out ++ rest /\
     Z.of_nat (length out) = frames).
Proof.
  split.
  - intros Hlt. exists (repeat 0 (Z.to_nat frames)).
    split; [now apply read_short|]. split.
    + rewrite repeat_length. lia.
    + apply Forall_forall. intros x Hx. now apply repeat_spec in Hx.
  - intros [H0 Hle].
    exists (firstn (Z.to_nat frames) (_buffer b)),
           (skipn (Z.to_nat frames) (_buffer b)).
    split; [now apply read_enough|]. split.
    + symmetry. apply firstn_skipn.
    + rewrite length_firstn. lia.
Qed.

(** Scenario C: capacity 44100, 50 samples written, [read(100)]. *)
Lemma read_zero_fill_or_fifo_witness :
  let b := write (create 44100 1 44100) (repeat 1 50) in
  length (_buffer b) = 50%nat /\
  (exists zeros,
     read b 100 = Ok (zeros, b) /\
     Z.of_nat (length zeros) = 100%Z /\
     Forall (fun x => x = 0) zeros) /\
  (exists out rest,
     read b 20 = Ok (out, with_buffer b rest) /\
     _buffer b = out ++ rest /\
     Z.of_nat (length out) = 20%Z).
Proof.
  intros b.
  assert (Hb : _buffer b = repeat 1 50).
  { unfold b. rewrite write_fits; [reflexivity|].
    simpl _buffer. rewrite repeat_length. simpl. lia. }
  assert (Hlen : length (_buffer b) = 50%nat)
    by (rewrite Hb; apply repeat_length).
  split; [exact Hlen|]. split.
  - apply (proj1 (read_zero_fill_or_fifo b 100)). rewrite Hlen. lia.
  - apply (proj2 (read_zero_fill_or_fifo b 20)). rewrite Hlen. lia.
Defined.

End AudioBufferFacts.

(** ** Truncation and floor *)

Lemma py_int_nonneg_eq (x : R) (n : Z) :
  IZR n <= x < IZR n + 1 -> 0 <= x -> py_int x = n.
Proof.
  intros [Hlo Hhi] Hx. unfold py_int.
  destruct (Rle_dec 0 x) as [_|Hn]; [|contradiction].
  symmetry. apply Int_part_spec. lra.
Qed.

Lemma py_int_nonneg (x : R) : 0 <= x -> (0 <= py_int x)%Z.
Proof.
  intros Hx. unfold py_int. destruct (Rle_dec 0 x) as [_|Hn]; [|contradiction].
  destruct (base_Int_part x) as [_ Hgt].
  assert (Hlt : (-1 < Int_part x)%Z) by (apply lt_IZR; lra).
  lia.
Qed.

Lemma py_int_IZR (n : Z) : py_int (IZR n) = n.
Proof.
  unfold py_int. destruct (Rle_dec 0 (IZR n)) as [Hp|Hn].
  - symmetry. apply Int_part_spec. lra.
  - rewrite <- opp_IZR.
    replace (Int_part (IZR (- n))) with (- n)%Z; [lia|].
    apply Int_part_spec. lra.
Qed.

Lemma np_floor_eq (x : R) (n : Z) :
  IZR n <= x < IZR n + 1 -> np_floor x = IZR n.
Proof.
  intros H. unfold np_floor. f_equal. symmetry. apply Int_part_spec. lra.
Qed.

Lemma np_floor_bounds (x : R) : np_floor x <= x < np_floor x + 1.
Proof.
  unfold np_floor. destruct (base_Int_part x). lra.
Qed.

(** ** Rounding to binary64 *)

Lemma bpow_pos (e : Z) : 0 < bpow e.
Proof. apply powerRZ_lt. lra. Qed.

Lemma bpow_add (a b : Z) : bpow (a + b) = bpow a * bpow b.
Proof. apply powerRZ_add. lra. Qed.

Lemma bpow_IZR (k : Z) : (0 <= k)%Z -> bpow k = IZR (2 ^ k).
Proof.
  intros Hk. unfold bpow. rewrite <- (Z2Nat.id k) by assumption.
  rewrite <- pow_powerRZ. apply (pow_IZR 2).
Qed.

Lemma ln_2_pos : 0 < ln 2.
Proof. rewrite <- ln_1. apply ln_increasing; lra. Qed.

Lemma ln_bpow (e : Z) : ln (bpow e) = IZR e * ln 2.
Proof.
  unfold bpow. rewrite powerRZ_Rpower by lra. unfold Rpower. apply ln_exp.
Qed.

Lemma ln_le_compat (x y : R) : 0 < x -> x <= y -> ln x <= ln y.
Proof.
  intros Hx [Hlt| ->]; [left; now apply ln_increasing | right; reflexivity].
Qed.

Lemma binade_eq (x : R) (e : Z) :
  bpow e <= Rabs x < bpow (e + 1) -> binade x = e.
Proof.
  intros [Hlo Hhi]. unfold binade. symmetry. apply Int_part_spec.
  pose proof ln_2_pos as H2. pose proof (bpow_pos e) as He.
  assert (Hl : IZR e * ln 2 <= ln (Rabs x))
    by (rewrite <- ln_bpow; now apply ln_le_compat).
  assert (Hh : ln (Rabs x) < IZR (e + 1) * ln 2)
    by (rewrite <- ln_bpow; apply ln_increasing; lra).
  rewrite plus_IZR in Hh.
  split.
  - apply Rmult_lt_reg_r with (ln 2); [assumption|].
    unfold Rdiv, Rminus. rewrite Rmult_plus_distr_r, Rmult_assoc, Rinv_l by lra.
    lra.
  - apply Rmult_le_reg_r with (ln 2); [assumption|].
    unfold Rdiv. rewrite Rmult_assoc, Rinv_l by lra. lra.
Qed.

Lemma round_half_even_near (m : R) (k : Z) :
  Rabs (m - IZR k) < 1 / 2 -> round_half_even m = k.
Proof.
  intros Hk. apply Rabs_def2 in Hk. destruct Hk as [Hhi Hlo].
  unfold round_half_even.
  destruct (Rle_dec (IZR k) m) as [Hge|Hlt].
  - replace (Int_part m) with k by (apply Int_part_spec; lra).
    destruct (Rlt_dec (m - IZR k) (1 / 2)); [reflexivity | exfalso; lra].
  - replace (Int_part m) with (k - 1)%Z
      by (apply Int_part_spec; rewrite minus_IZR; lra).
    rewrite minus_IZR.
    destruct (Rlt_dec (m - (IZR k - 1)) (1 / 2)); [exfalso; lra|].
    destruct (Rlt_dec (1 / 2) (m - (IZR k - 1))); [lia | exfalso; lra].
Qed.

Lemma round_half_even_nonneg (m : R) : 0 <= m -> (0 <= round_half_even m)%Z.
Proof.
  intros Hm. pose proof (py_int_nonneg m Hm) as H. unfold py_int in H.
  destruct (Rle_dec 0 m); [|contradiction].
  unfold round_half_even.
  destruct (Rlt_dec _ _); [assumption|].
  destruct (Rlt_dec _ _); [lia|]. destruct (Z.even _); lia.
Qed.

(** The rounding of a number whose binade and nearest multiple of the unit
    in the last place are known. *)
Lemma fl_eval (x : R) (e k : Z) :
  bpow e <= Rabs x < bpow (e + 1) ->
  let u := Z.max (e - 52) (-1074) in
  Rabs (x * bpow (- u) - IZR k) < 1 / 2 ->
  fl x = IZR k * bpow u.
Proof.
  intros Hb u Hk. unfold fl.
  destruct (Req_dec_T x 0) as [->|_].
  - exfalso. rewrite Rabs_R0 in Hb. pose proof (bpow_pos e). lra.
  - rewrite (binade_eq x e Hb). fold u. cbv zeta.
    now rewrite (round_half_even_near _ k Hk).
Qed.

(** A double is its own rounding. *)
Lemma fl_exact (m e : Z) :
  (Z.abs m < 2 ^ 53)%Z -> (-1074 <= e)%Z ->
  fl (IZR m * bpow e) = IZR m * bpow e.
Proof.
  intros Hm He. destruct (Z.eq_dec m 0) as [->|Hnz].
  - rewrite Rmult_0_l. unfold fl.
    destruct (Req_dec_T 0 0) as [_|H]; [reflexivity | now contradiction H].
  - set (b := Z.log2 (Z.abs m)).
    assert (Hpos : (0 < Z.abs m)%Z) by lia.
    destruct (Z.log2_spec (Z.abs m) Hpos) as [Hlo Hhi]. fold b in Hlo, Hhi.
    assert (Hb0 : (0 <= b)%Z) by apply Z.log2_nonneg.
    assert (Hb52 : (b <= 52)%Z).
    { destruct (Z_le_gt_dec b 52) as [|Hgt]; [assumption|].
      assert ((2 ^ 53 <= 2 ^ b)%Z) by (apply Z.pow_le_mono_r; lia). lia. }
    assert (Hbin : bpow (b + e) <= Rabs (IZR m * bpow e) < bpow (b + e + 1)).
    { rewrite Rabs_mult, (Rabs_pos_eq (bpow e)) by (left; apply bpow_pos).
      rewrite Rabs_Zabs.
      replace (b + e + 1)%Z with (Z.succ b + e)%Z by lia.
      rewrite (bpow_add b e), (bpow_add (Z.succ b) e).
      rewrite (bpow_IZR b), (bpow_IZR (Z.succ b)) by lia.
      pose proof (bpow_pos e).
      split.
      - apply Rmult_le_compat_r; [lra | now apply IZR_le].
      - apply Rmult_lt_compat_r; [assumption | now apply IZR_lt]. }
    set (u := Z.max (b + e - 52) (-1074)).
    assert (Hu : (u <= e)%Z) by (unfold u; lia).
    rewrite (fl_eval _ (b + e) (m * 2 ^ (e - u)) Hbin); fold u.
    + rewrite mult_IZR, <- bpow_IZR by lia.
      rewrite Rmult_assoc, <- bpow_add. f_equal. f_equal. lia.
    + rewrite mult_IZR, <- bpow_IZR by lia.
      rewrite Rmult_assoc, <- bpow_add.
      replace (e + - u)%Z with (e - u)%Z by lia.
      rewrite Rminus_diag, Rabs_R0. lra.
Qed.

(** An integer below [2^53] in magnitude is a double. *)
Lemma fl_exact_int (n : Z) : (Z.abs n < 2 ^ 53)%Z -> fl (IZR n) = IZR n.
Proof.
  intros Hn. pose proof (fl_exact n 0 Hn) as H.
  unfold bpow in H. simpl in H. rewrite Rmult_1_r in H. apply H. lia.
Qed.

Lemma py_float_exact (n : Z) : (Z.abs n < 2 ^ 53)%Z -> py_float n = IZR n.
Proof. apply fl_exact_int. Qed.

Lemma fl_nonneg (x : R) : 0 <= x -> 0 <= fl x.
Proof.
  intros Hx. unfold fl. destruct (Req_dec_T x 0); [lra|].
  set (u := Z.max (binade x - 52) (-1074)).
  pose proof (bpow_pos u). pose proof (bpow_pos (- u)).
  apply Rmult_le_pos; [|lra].
  apply IZR_le, round_half_even_nonneg. apply Rmult_le_pos; lra.
Qed.

Lemma py_float_nonneg (n : Z) : (0 <= n)%Z -> 0 <= py_float n.
Proof. intros Hn. apply fl_nonneg. now apply IZR_le. Qed.

(** Some values of doubles, and the doubles nearest to 0.35 and 0.3. *)
Lemma fl_dyadic (x : R) (m e : Z) :
  (Z.abs m < 2 ^ 53)%Z -> (-1074 <= e)%Z -> x = IZR m * bpow e -> fl x = x.
Proof. intros Hm He ->. now apply fl_exact. Qed.

Lemma fl_0 : fl 0 = 0.
Proof. unfold fl. destruct (Req_dec_T 0 0) as [_|H]; [reflexivity|]. now contradiction H. Qed.

Lemma fl_1 : fl 1 = 1.
Proof. apply (fl_exact_int 1). simpl. lia. Qed.

Lemma fl_minus_1 : fl (-1) = -1.
Proof. apply (fl_exact_int (-1)). simpl. lia. Qed.

Lemma fl_0_5 : fl 0.5 = 0.5.
Proof.
  apply (fl_dyadic _ 1 (-1)); [simpl; lia | lia | unfold bpow; simpl; lra].
Qed.

Lemma fl_0_25 : fl 0.25 = 0.25.
Proof.
  apply (fl_dyadic _ 1 (-2)); [simpl; lia | lia | unfold bpow; simpl; lra].
Qed.

Lemma fl_0_1875 : fl 0.1875 = 0.1875.
Proof.
  apply (fl_dyadic _ 3 (-4)); [simpl; lia | lia | unfold bpow; simpl; lra].
Qed.

Lemma fl_double_0_35 : fl double_0_35 = double_0_35.
Proof.
  apply (fl_dyadic _ 3152519739159347 (-53));
    [simpl; lia | lia | unfold double_0_35, bpow; simpl; lra].
Qed.

Lemma fl_double_0_3 : fl double_0_3 = double_0_3.
Proof.
  apply (fl_dyadic _ 5404319552844595 (-54));
    [simpl; lia | lia | unfold double_0_3, bpow; simpl; lra].
Qed.

Lemma fl_0_35 : fl 0.35 = double_0_35.
Proof.
  rewrite (fl_eval _ (-2) 6305039478318694).
  - change (Z.max (-2 - 52) (-1074)) with (-54)%Z.
    unfold double_0_35, bpow. simpl. lra.
  - unfold bpow. simpl. rewrite Rabs_pos_eq by lra. lra.
  - change (Z.max (-2 - 52) (-1074)) with (-54)%Z. cbv zeta.
    unfold bpow. simpl. apply Rabs_def1; lra.
Qed.

Lemma fl_0_3 : fl 0.3 = double_0_3.
Proof.
  rewrite (fl_eval _ (-2) 5404319552844595).
  - change (Z.max (-2 - 52) (-1074)) with (-54)%Z.
    unfold double_0_3, bpow. simpl. lra.
  - unfold bpow. simpl. rewrite Rabs_pos_eq by lra. lra.
  - change (Z.max (-2 - 52) (-1074)) with (-54)%Z. cbv zeta.
    unfold bpow. simpl. apply Rabs_def1; lra.
Qed.

(** ** numpy constructors *)

Lemma np_arange_length (n : Z) : length (np_arange n) = Z.to_nat n.
Proof. unfold np_arange, range_len. now rewrite length_map, length_seq. Qed.

Lemma np_linspace_length (a b : R) (n : nat) : length (np_linspace a b n) = n.
Proof. unfold np_linspace. now rewrite length_map, length_seq. Qed.

Lemma map_seq_nth (f : nat -> R) (n i : nat) (d : R) :
  (i < n)%nat -> nth i (map f (seq 0 n)) d = f i.
Proof.
  intros Hi.
  rewrite (nth_indep _ d (f O)) by (now rewrite length_map, length_seq).
  rewrite (map_nth f (seq 0 n) O i), seq_nth by assumption. reflexivity.
Qed.

Lemma np_linspace_nth (a b : R) (n i : nat) (d : R) :
  (i < n)%nat ->
  nth i (np_linspace a b n) d =
    a + INR i * ((b - a) / INR (Nat.max 1 (n - 1))).
Proof.
  intros Hi. unfold np_linspace. now rewrite map_seq_nth.
Qed.

(** Every point of a [linspace] lies between its two ends. *)
Lemma np_linspace_between (a b lo hi : R) (n : nat) :
  lo <= a <= hi -> lo <= b <= hi ->
  Forall (fun x => lo <= x <= hi) (np_linspace a b n).
Proof.
  intros Ha Hb. unfold np_linspace. apply Forall_forall. intros x Hx.
  apply in_map_iff in Hx. destruct Hx as [i [<- Hi]].
  apply in_seq in Hi.
  set (m := Nat.max 1 (n - 1)).
  assert (Hm : 0 < INR m) by (apply lt_0_INR; unfold m; lia).
  assert (Him : INR i <= INR m) by (apply le_INR; unfold m; lia).
  assert (Hi0 : 0 <= INR i) by apply pos_INR.
  set (r := INR i / INR m).
  assert (Hr : 0 <= r <= 1).
  { unfold r. split.
    - apply Rmult_le_pos; [assumption | left; now apply Rinv_0_lt_compat].
    - apply Rmult_le_reg_r with (INR m); [assumption|].
      unfold Rdiv. rewrite Rmult_assoc, Rinv_l by lra. lra. }
  replace (a + INR i * ((b - a) / INR m)) with (a + r * (b - a))
    by (unfold r; field; lra).
  nra.
Qed.

(** ** InstrumentSynthesizer: sample counts *)

Section SynthesizerLengths.
Import InstrumentSynthesizer.

Lemma _envelope_adsr_length (self : t) (n : nat) (duration : R) :
  length (_envelope_adsr self n duration) = n.
Proof.
  unfold _envelope_adsr, slice_to, np_full.
  rewrite length_firstn, !length_app, !np_linspace_length, repeat_length.
  lia.
Qed.

Lemma synthesize_note_signal_length (self : t) (duration : R) :
  length (map (fun i => i / IZR (sample_rate self))
            (np_arange (note_samples self duration)))
  = Z.to_nat (note_samples self duration).
Proof. now rewrite length_map, np_arange_length. Qed.

Lemma synthesize_note_sample_count (self : t) (frequency duration : R)
      (waveform : string) :
  length (synthesize_note self frequency duration waveform) =
    Z.to_nat (note_samples self duration).
Proof.
  unfold synthesize_note.
  rewrite length_map, zip_with_length, _envelope_adsr_length, Nat.min_id.
  rewrite length_map. apply synthesize_note_signal_length.
Qed.

(** When the duration is the value of a double and its product with the
    sample rate is an integer below [2^53], that is the sample count. *)
Lemma note_samples_exact (self : t) (duration : R) (n : Z) :
  (Z.abs (sample_rate self) < 2 ^ 53)%Z -> (Z.abs n < 2 ^ 53)%Z ->
  fl duration = duration ->
  IZR (sample_rate self) * duration = IZR n ->
  note_samples self duration = n.
Proof.
  intros Hsr Hn Hd Hp. unfold note_samples.
  rewrite py_float_exact by exact Hsr. rewrite Hd, Hp.
  rewrite fl_exact_int by exact Hn. apply py_int_IZR.
Qed.

(** Halving a sample rate below [2^53] is exact in binary64. *)
Lemma note_samples_half (self : t) :
  (Z.abs (sample_rate self) < 2 ^ 53)%Z ->
  note_samples self 0.5 = py_int (IZR (sample_rate self) * 0.5).
Proof.
  intros Hsr. unfold note_samples.
  rewrite py_float_exact by exact Hsr. rewrite fl_0_5.
  replace (IZR (sample_rate self) * 0.5)
    with (IZR (sample_rate self) * bpow (-1)) by (unfold bpow; simpl; lra).
  rewrite fl_exact by (exact Hsr || lia). reflexivity.
Qed.

(** C2, amended. A synthesized note has exactly
    [int(sample_rate * duration)] samples, where the product is the
    binary64 product the code computes: it is truncated toward zero, not
    rounded to the nearest integer. For a positive duration and a sample
    rate that is not negative the count is the floor of that product. *)
Theorem synthesize_note_length (self : t) (frequency duration : R)
        (waveform : string) :
  let n := length (synthesize_note self frequency duration waveform) in
  let product := fl (py_float (sample_rate self) * fl duration) in
  n = Z.to_nat (py_int product) /\
  ((0 <= sample_rate self)%Z -> 0 < duration ->
   INR n <= product < INR n + 1).
Proof.
  intros n product. split; [apply synthesize_note_sample_count|].
  intros Hsr Hd. unfold n. rewrite synthesize_note_sample_count.
  unfold note_samples. fold product.
  assert (Hx : 0 <= product).
  { apply fl_nonneg. apply Rmult_le_pos;
      [now apply py_float_nonneg | apply fl_nonneg; lra]. }
  rewrite INR_IZR_INZ, Z2Nat.id by now apply py_int_nonneg.
  unfold py_int. destruct (Rle_dec 0 product) as [_|Hn]; [|contradiction].
  destruct (base_Int_part product). lra.
Qed.

Lemma synthesize_note_length_witness :
  let self := create 44100 in
  let n := length (synthesize_note self 440 0.5 "sine") in
  let product := fl (py_float (sample_rate self) * fl 0.5) in
  n = Z.to_nat (py_int product) /\
  INR n <= product < INR n + 1.
Proof.
  intros self n product.
  destruct (synthesize_note_length self 440 0.5 "sine") as [Heq Hfloor].
  split; [exact Heq|]. apply Hfloor.
  - simpl. lia.
  - lra.
Defined.

(** The binary64 product of 44100 and 0.1875 is the exact one, 8268.75. *)
Lemma product_44100_0_1875 : fl (py_float 44100 * fl 0.1875) = 8268.75.
Proof.
  rewrite py_float_exact by (simpl; lia). rewrite fl_0_1875.
  replace (44100 * 0.1875) with (IZR 33075 * bpow (-2))
    by (unfold bpow; simpl; lra).
  rewrite fl_exact by (simpl; lia). unfold bpow. simpl. lra.
Qed.

(** At 44100 Hz the binary64 product with the double 0.35 falls just below
    15435, so the note has 15434 samples, although the exact product is
    nearer to 15435. *)
Lemma product_44100_0_35 :
  fl (py_float 44100 * fl 0.35) = 8485480987361279 * bpow (-39).
Proof.
  rewrite py_float_exact by (simpl; lia). rewrite fl_0_35.
  apply (fl_eval _ 13 8485480987361279).
  - unfold double_0_35, bpow. simpl. rewrite Rabs_pos_eq by lra. lra.
  - change (Z.max (13 - 52) (-1074)) with (-39)%Z. cbv zeta.
    unfold double_0_35, bpow. simpl. apply Rabs_def1; lra.
Qed.

Lemma synthesize_note_at_0_35 (frequency : R) (waveform : string) :
  Z.of_nat (length (synthesize_note (create 44100) frequency 0.35 waveform))
  = 15434%Z /\
  Z.of_nat
    (length (synthesize_note (create 44100) frequency double_0_35 waveform))
  = 15434%Z /\
  nearest_integer (double_0_35 * 44100) 15435.
Proof.
  assert (H : note_samples (create 44100) 0.35 = 15434%Z).
  { unfold note_samples. simpl sample_rate. rewrite product_44100_0_35.
    apply py_int_nonneg_eq; unfold bpow; simpl; lra. }
  split; [|split].
  - rewrite synthesize_note_sample_count, H. lia.
  - rewrite synthesize_note_sample_count. unfold note_samples.
    rewrite fl_double_0_35, <- fl_0_35. fold (note_samples (create 44100) 0.35).
    rewrite H. lia.
  - unfold nearest_integer, double_0_35. left. apply Rabs_def1; lra.
Qed.

(** C2 as stated fails: at 44100 Hz a note of 0.1875 s has 8268 samples,
    while [0.1875 * 44100 = 8268.75] rounds to 8269. *)
Lemma synthesize_note_length_not_round :
  let n := Z.of_nat (length (synthesize_note (create 44100) 440 0.1875 "sine")) in
  0 < 440 /\ 0 < 0.1875 /\
  n = 8268%Z /\ ~ nearest_integer (0.1875 * 44100) n.
Proof.
  intros n.
  assert (Hn : n = 8268%Z).
  { unfold n. rewrite synthesize_note_sample_count. unfold note_samples.
    simpl sample_rate. rewrite product_44100_0_1875.
    rewrite (py_int_nonneg_eq _ 8268) by lra. reflexivity. }
  repeat split; try lra; [exact Hn|].
  rewrite Hn. unfold nearest_integer. intros H.
  replace (IZR 8268 - 0.1875 * 44100) with (- (3 / 4)) in H by lra.
  rewrite Rabs_Ropp, Rabs_pos_eq in H by lra. lra.
Qed.

End SynthesizerLengths.

(** ** InstrumentSynthesizer: amplitude *)

Lemma zip_with_Forall (f : R -> R -> R) (P Q S : R -> Prop) (xs ys : list R) :
  (forall x y, P x -> Q y -> S (f x y)) ->
  Forall P xs -> Forall Q ys -> Forall S (zip_with f xs ys).
Proof.
  intros Hf Hxs. revert ys. induction Hxs as [|x xs Hx _ IH]; intros ys Hys.
  - constructor.
  - destruct Hys as [|y ys Hy Hys]; simpl; constructor; auto.
Qed.

Lemma firstn_Forall (P : R -> Prop) (n : nat) (l : list R) :
  Forall P l -> Forall P (firstn n l).
Proof.
  intros Hl. revert n. induction Hl as [|x l Hx _ IH]; intros [|n]; simpl;
    constructor; auto.
Qed.

Lemma map_nth_lt (f : R -> R) (l : list R) (i : nat) (d d' : R) :
  (i < length l)%nat -> nth i (map f l) d = f (nth i l d').
Proof.
  intros Hi.
  rewrite (nth_indep _ d (f d')) by now rewrite length_map.
  apply map_nth.
Qed.

Section SynthesizerAmplitude.
Import InstrumentSynthesizer.

Lemma np_sign_bound (x : R) : Rabs (np_sign x) <= 1.
Proof.
  unfold np_sign. destruct (Rlt_dec 0 x); [|destruct (Rlt_dec x 0)];
    apply Rabs_le; lra.
Qed.

Lemma sawtooth_bound (x : R) : Rabs (2 * (x - np_floor (x + 0.5))) <= 1.
Proof.
  destruct (np_floor_bounds (x + 0.5)). apply Rabs_le. lra.
Qed.

(** Sine, square, sawtooth and the fallback stay within [-1, 1]. *)
Lemma waveform_at_bound (waveform : string) (frequency t : R) :
  waveform <> "triangle"%string ->
  Rabs (waveform_at waveform frequency t) <= 1.
Proof.
  intros Hw. unfold waveform_at.
  destruct (String.eqb waveform "sine");
    [apply Rabs_le, SIN_bound|].
  destruct (String.eqb waveform "square"); [apply np_sign_bound|].
  destruct (String.eqb waveform "sawtooth"); [apply sawtooth_bound|].
  destruct (String.eqb_spec waveform "triangle"); [contradiction|].
  apply Rabs_le, SIN_bound.
Qed.

(** The triangle branch ranges over (0, 4], not [-1, 1]. *)
Lemma triangle_range (frequency t : R) :
  0 < waveform_at "triangle" frequency t <= 4.
Proof.
  unfold waveform_at. simpl String.eqb. cbv iota.
  destruct (np_floor_bounds (t * frequency + 0.75)).
  set (y := t * frequency - np_floor (t * frequency + 0.75) - 0.5).
  assert (Hy : -1.25 <= y < -0.25) by (unfold y; lra).
  rewrite Rabs_left by lra. lra.
Qed.

(** The envelope is a gain between 0 and 1 when the sustain level is. *)
Lemma _envelope_adsr_range (self : t) (n : nat) (duration : R) :
  0 <= sustain (parameters self) <= 1 ->
  Forall (fun e => 0 <= e <= 1) (_envelope_adsr self n duration).
Proof.
  intros Hs. unfold _envelope_adsr, slice_to, np_full.
  apply firstn_Forall.
  repeat (apply Forall_app; split);
    try (apply np_linspace_between; lra).
  apply Forall_forall. intros e He. apply repeat_spec in He. now subst.
Qed.

(** Every sample of a note that is not a triangle wave is within the 0.3
    headroom. *)
Lemma synthesize_note_headroom (self : t) (frequency duration : R)
      (waveform : string) :
  0 <= sustain (parameters self) <= 1 ->
  waveform <> "triangle"%string ->
  Forall (fun x => Rabs x <= 0.3)
         (synthesize_note self frequency duration waveform).
Proof.
  intros Hs Hw. unfold synthesize_note.
  apply Forall_map.
  eapply zip_with_Forall with (P := fun s => Rabs s <= 1)
                              (Q := fun e => 0 <= e <= 1).
  - intros s e Hs' He. rewrite !Rabs_mult.
    rewrite (Rabs_pos_eq e), (Rabs_pos_eq 0.3) by lra.
    assert (0 <= Rabs s) by apply Rabs_pos. nra.
  - apply Forall_map, Forall_forall. intros x _. now apply waveform_at_bound.
  - now apply _envelope_adsr_range.
Qed.

End SynthesizerAmplitude.

Section SynthesizerSamples.
Import InstrumentSynthesizer.

(** The sample of index [i]: waveform at time [i / sample_rate], times the
    envelope, times 0.3. *)
Lemma synthesize_note_nth (self : t) (frequency duration : R)
      (waveform : string) (i : nat) :
  let n := Z.to_nat (note_samples self duration) in
  (i < n)%nat ->
  nth i (synthesize_note self frequency duration waveform) 0 =
    waveform_at waveform frequency (INR i / IZR (sample_rate self))
    * nth i (_envelope_adsr self n duration) 0 * 0.3.
Proof.
  intros n Hi. unfold synthesize_note.
  rewrite !length_map, np_arange_length. fold n.
  unfold np_arange, range_len. fold n.
  rewrite !map_map.
  rewrite (map_nth_lt _ _ _ _ 0)
    by (rewrite zip_with_length, length_map, length_seq,
          _envelope_adsr_length; lia).
  rewrite (zip_with_nth _ _ _ _ 0 0)
    by (rewrite ?length_map, ?length_seq, ?_envelope_adsr_length; lia).
  rewrite map_seq_nth by assumption. reflexivity.
Qed.

(** At 44100 Hz the attack segment has 441 points, so the sample of index
    441 is the first of the decay segment, where the envelope is 1. *)
Lemma default_envelope_at_441 (duration : R) :
  nth 441 (_envelope_adsr (create 44100) (Z.to_nat 44100) duration) 0 = 1.
Proof.
  unfold _envelope_adsr, slice_to. simpl parameters. simpl sample_rate.
  simpl attack. simpl decay. simpl release. simpl sustain.
  rewrite (py_int_nonneg_eq (0.01 * 44100) 441) by lra.
  rewrite (py_int_nonneg_eq (0.1 * 44100) 4410) by lra.
  rewrite (py_int_nonneg_eq (0.3 * 44100) 13230) by lra.
  rewrite nth_firstn.
  destruct (Nat.ltb_spec 441 (Z.to_nat 44100)) as [_|Hge]; [|lia].
  rewrite app_nth2 by (rewrite np_linspace_length; lia).
  rewrite np_linspace_length.
  replace (441 - Z.to_nat (Z.max 1 441))%nat with O by lia.
  rewrite app_nth1 by (rewrite np_linspace_length; lia).
  rewrite np_linspace_nth by lia.
  simpl INR. lra.
Qed.

(** C6 fails on the triangle wave. At 44100 Hz, a 50 Hz triangle note of one
    second has 44100 samples and its sample of index 441 is 0.9, three times
    the 0.3 headroom. *)
Theorem synthesize_note_triangle_exceeds_headroom :
  let note := synthesize_note (create 44100) 50 1 "triangle" in
  Z.of_nat (length note) = 44100%Z /\
  nth 441 note 0 = 0.9 /\
  ~ Forall (fun x => Rabs x <= 0.3) note.
Proof.
  intros note.
  assert (Hn : note_samples (create 44100) 1 = 44100%Z).
  { apply note_samples_exact; [simpl; lia | simpl; lia | exact fl_1|].
    simpl. lra. }
  assert (Hlen : length note = Z.to_nat 44100).
  { unfold note. now rewrite synthesize_note_sample_count, Hn. }
  assert (H441 : nth 441 note 0 = 0.9).
  { unfold note. rewrite synthesize_note_nth by (rewrite Hn; lia).
    rewrite Hn, default_envelope_at_441.
    unfold waveform_at. simpl String.eqb. cbv iota. simpl sample_rate.
    replace (INR 441) with 441 by (rewrite INR_IZR_INZ; reflexivity).
    rewrite (np_floor_eq _ 1) by lra.
    rewrite Rabs_left by lra. lra. }
  split; [rewrite Hlen; lia|]. split; [exact H441|].
  intros Hall.
  assert (Hin : In (nth 441 note 0) note) by (apply nth_In; rewrite Hlen; lia).
  rewrite Forall_forall in Hall. apply Hall in Hin.
  rewrite H441, Rabs_pos_eq in Hin by lra. lra.
Qed.

End SynthesizerSamples.

(** ** EffectsProcessor: lengths *)

Lemma py_int_above_minus_one (x : R) : -1 < x -> (0 <= py_int x)%Z.
Proof.
  intros Hx. destruct (Rle_dec 0 x) as [Hp|Hn]; [now apply py_int_nonneg|].
  unfold py_int. destruct (Rle_dec 0 x) as [|_]; [contradiction|].
  replace (Int_part (- x)) with 0%Z; [lia|].
  apply Int_part_spec. simpl. lra.
Qed.

Lemma py_int_at_most_minus_one (x : R) : x <= -1 -> (py_int x < 0)%Z.
Proof.
  intros Hx. unfold py_int. destruct (Rle_dec 0 x) as [|_]; [lra|].
  destruct (base_Int_part (- x)) as [_ Hgt].
  assert (Hlt : (0 < Int_part (- x))%Z) by (apply lt_IZR; simpl; lra).
  lia.
Qed.

(** The shift-and-add shared by reverb and delay keeps the input length. *)
Lemma shift_mix_length (audio : list R) (k : nat) (gain : R) :
  length (zip_with Rplus audio
            (map (fun d => gain * d)
               (slice_to (length audio) (repeat 0 k ++ audio))))
  = length audio.
Proof.
  unfold slice_to.
  rewrite zip_with_length, length_map, length_firstn, length_app, repeat_length.
  lia.
Qed.

Section EffectsLengths.
Import EffectsProcessor.

(** The sample count of a delay is not negative when neither the delay time
    nor the sample rate is. *)
Lemma delay_samples_of_nonneg (self : t) (delay_time : R) :
  (0 <= sample_rate self)%Z -> 0 <= delay_time ->
  (0 <= delay_samples_of self delay_time)%Z.
Proof.
  intros Hsr Hd. unfold delay_samples_of.
  apply py_int_nonneg, fl_nonneg.
  apply Rmult_le_pos; [now apply fl_nonneg | now apply py_float_nonneg].
Qed.

(** When the delay time is the value of a double and its product with the
    sample rate is an integer below [2^53], that is the sample count. *)
Lemma delay_samples_of_exact (self : t) (delay_time : R) (n : Z) :
  (Z.abs (sample_rate self) < 2 ^ 53)%Z -> (Z.abs n < 2 ^ 53)%Z ->
  fl delay_time = delay_time ->
  delay_time * IZR (sample_rate self) = IZR n ->
  delay_samples_of self delay_time = n.
Proof.
  intros Hsr Hn Hd Hp. unfold delay_samples_of.
  rewrite py_float_exact by exact Hsr. rewrite Hd, Hp.
  rewrite fl_exact_int by exact Hn. apply py_int_IZR.
Qed.

(** At 44100 Hz the binary64 product with the double 0.3 is 13230, although
    the exact product is just below it. *)
Lemma product_0_3_44100 : fl (fl 0.3 * py_float 44100) = 13230.
Proof.
  rewrite py_float_exact by (simpl; lia). rewrite fl_0_3.
  rewrite (fl_eval _ 13 7273269417738240).
  - change (Z.max (13 - 52) (-1074)) with (-39)%Z. unfold bpow. simpl. lra.
  - unfold double_0_3, bpow. simpl. rewrite Rabs_pos_eq by lra. lra.
  - change (Z.max (13 - 52) (-1074)) with (-39)%Z. cbv zeta.
    unfold double_0_3, bpow. simpl. apply Rabs_def1; lra.
Qed.

Lemma delay_samples_of_at_0_3 :
  delay_samples_of (create 44100) 0.3 = 13230%Z /\
  delay_samples_of (create 44100) double_0_3 = 13230%Z /\
  py_int (double_0_3 * 44100) = 13229%Z.
Proof.
  assert (H : delay_samples_of (create 44100) 0.3 = 13230%Z).
  { unfold delay_samples_of. simpl sample_rate.
    rewrite product_0_3_44100. apply py_int_IZR. }
  split; [exact H|]. split.
  - unfold delay_samples_of. rewrite fl_double_0_3, <- fl_0_3. exact H.
  - apply py_int_nonneg_eq; unfold double_0_3; lra.
Qed.

Lemma add_delay_length (self : t) (audio : list R) (delay_time feedback : R) :
  (0 <= delay_samples_of self delay_time)%Z ->
  exists out, add_delay self audio delay_time feedback = Ok out /\
              length out = length audio.
Proof.
  intros Hd. unfold add_delay.
  rewrite np_zeros_ok by exact Hd.
  simpl. eexists; split; [reflexivity|]. apply shift_mix_length.
Qed.

Lemma add_delay_negative (self : t) (audio : list R) (delay_time feedback : R) :
  (delay_samples_of self delay_time < 0)%Z ->
  add_delay self audio delay_time feedback = Err NegativeDimensions.
Proof.
  intros Hd. unfold add_delay.
  rewrite np_zeros_neg by exact Hd.
  reflexivity.
Qed.

Lemma add_reverb_length (self : t) (audio : list R) (decay : R) :
  (0 <= sample_rate self)%Z ->
  exists out, add_reverb self audio decay = Ok out /\
              length out = length audio.
Proof.
  intros Hsr. unfold add_reverb.
  rewrite np_zeros_ok.
  - simpl. eexists; split; [reflexivity|]. apply shift_mix_length.
  - apply py_int_nonneg. apply IZR_le in Hsr. lra.
Qed.

Lemma add_compression_length (self : t) (audio : list R) (threshold ratio : R) :
  ratio <> 0 ->
  exists out, add_compression self audio threshold ratio = Ok out /\
              length out = length audio.
Proof.
  intros Hr. unfold add_compression.
  destruct (Req_dec_T ratio 0) as [|_]; [contradiction|].
  eexists; split; [reflexivity|]. apply length_map.
Qed.

(** C8, amended. With a sample rate that is not negative, a delay time whose
    sample count [int(delay_time * sample_rate)] is not negative and a ratio
    other than zero, reverb, delay and compression each return a sequence as
    long as their input, and so does reverb after delay. *)
Theorem effects_preserve_length (self : t) (x : list R)
        (decay delay_time feedback threshold ratio : R) :
  (0 <= sample_rate self)%Z ->
  (0 <= delay_samples_of self delay_time)%Z ->
  ratio <> 0 ->
  (exists r, add_reverb self x decay = Ok r /\ length r = length x) /\
  (exists d, add_delay self x delay_time feedback = Ok d /\
             length d = length x) /\
  (exists c, add_compression self x threshold ratio = Ok c /\
             length c = length x) /\
  (exists d r, add_delay self x delay_time feedback = Ok d /\
               add_reverb self d decay = Ok r /\
               length d = length x /\ length r = length x).
Proof.
  intros Hsr Hd Hr.
  destruct (add_reverb_length self x decay Hsr) as [r [Er Lr]].
  destruct (add_delay_length self x delay_time feedback Hd) as [d [Ed Ld]].
  destruct (add_compression_length self x threshold ratio Hr) as [c [Ec Lc]].
  destruct (add_reverb_length self d decay Hsr) as [r' [Er' Lr']].
  split; [now exists r|]. split; [now exists d|]. split; [now exists c|].
  exists d, r'. repeat split; auto. congruence.
Qed.

Lemma effects_preserve_length_witness :
  let self := create 44100 in
  let x := [1; -1; 0.5] in
  (exists r, add_reverb self x 0.5 = Ok r /\ length r = length x) /\
  (exists d, add_delay self x 0.25 0.3 = Ok d /\ length d = length x) /\
  (exists c, add_compression self x 0.6 4 = Ok c /\ length c = length x) /\
  (exists d r, add_delay self x 0.25 0.3 = Ok d /\
               add_reverb self d 0.5 = Ok r /\
               length d = length x /\ length r = length x).
Proof.
  intros self x.
  apply (effects_preserve_length self x 0.5 0.25 0.3 0.6 4).
  - simpl. lia.
  - apply delay_samples_of_nonneg; [simpl; lia | lra].
  - lra.
Defined.

(** C8 as stated fails: a delay time of -1 s asks numpy for an array of
    negative size, and a ratio of zero divides by zero. *)
Lemma effects_not_total :
  add_delay (create 44100) [1; -1; 0.5] (-1) 0.3 = Err NegativeDimensions /\
  add_compression (create 44100) [1; -1; 0.5] 0.6 0 = Err ZeroDivision.
Proof.
  split.
  - apply add_delay_negative.
    rewrite (delay_samples_of_exact _ _ (-44100));
      [lia | simpl; lia | simpl; lia | exact fl_minus_1|].
    simpl. lra.
  - unfold add_compression. destruct (Req_dec_T 0 0) as [_|H]; [reflexivity|].
    now contradiction H.
Qed.

End EffectsLengths.

(** ** EffectsProcessor: normalize *)

Lemma fold_Rmax_abs (l : list R) (m0 : R) :
  let m := fold_left (fun m y => Rmax m (Rabs y)) l m0 in
  m0 <= m /\ Forall (fun y => Rabs y <= m) l /\
  (m = m0 \/ Exists (fun y => Rabs y = m) l).
Proof.
  revert m0. induction l as [|y l IH]; intros m0; simpl.
  - split; [lra|]. split; [constructor | now left].
  - destruct (IH (Rmax m0 (Rabs y))) as [Hle [Hall Hex]].
    set (m := fold_left (fun m y => Rmax m (Rabs y)) l (Rmax m0 (Rabs y))) in *.
    pose proof (Rmax_l m0 (Rabs y)). pose proof (Rmax_r m0 (Rabs y)).
    split; [lra|]. split.
    + constructor; [lra | assumption].
    + destruct Hex as [Heq|Hex]; [|right; now apply Exists_cons_tl].
      unfold Rmax in Heq. destruct (Rle_dec m0 (Rabs y)).
      * right. apply Exists_cons_hd. now symmetry.
      * now left.
Qed.

Lemma peak_abs_is_peak (x : R) (l : list R) :
  exists m, peak_abs (x :: l) = Ok m /\ is_peak (x :: l) m.
Proof.
  simpl. eexists; split; [reflexivity|].
  destruct (fold_Rmax_abs l (Rabs x)) as [Hle [Hall Hex]].
  split.
  - constructor; assumption.
  - destruct Hex as [Heq|Hex].
    + apply Exists_cons_hd. now symmetry.
    + now apply Exists_cons_tl.
Qed.

Lemma is_peak_positive (a : list R) (m : R) :
  is_peak a m -> Exists (fun x => x <> 0) a -> 0 < m.
Proof.
  intros [Hall _] Hex. apply Exists_exists in Hex. destruct Hex as [x [Hin Hx]].
  rewrite Forall_forall in Hall. specialize (Hall x Hin).
  pose proof (Rabs_pos_lt x Hx). lra.
Qed.

Lemma is_peak_silent (a : list R) (m : R) :
  is_peak a m -> Forall (fun x => x = 0) a -> m = 0.
Proof.
  intros [_ Hex] Hz. apply Exists_exists in Hex. destruct Hex as [x [Hin Hx]].
  rewrite Forall_forall in Hz. rewrite (Hz x Hin), Rabs_R0 in Hx. now symmetry.
Qed.

Lemma is_peak_scale (a : list R) (m k : R) :
  is_peak a m -> is_peak (map (fun x => x * k) a) (m * Rabs k).
Proof.
  intros [Hall Hex]. split.
  - apply Forall_map. eapply Forall_impl; [|exact Hall].
    intros x Hx. simpl in *. rewrite Rabs_mult.
    apply Rmult_le_compat_r; [apply Rabs_pos | assumption].
  - apply Exists_map. eapply Exists_impl; [|exact Hex].
    intros x Hx. simpl in *. now rewrite Rabs_mult, Hx.
Qed.

Section Normalize.
Import EffectsProcessor.

(** C7, amended. On an input with a non-zero sample, [normalize] returns a
    sequence of the same length whose peak absolute value is [|target|],
    which is [target] when the target is not negative; on a non-empty input
    of zeros it returns the input as it is. *)
Theorem normalize_peak (self : t) (audio : list R) (target : R) :
  (Exists (fun x => x <> 0) audio ->
   exists out,
     normalize self audio target = Ok out /\
     length out = length audio /\
     is_peak out (Rabs target) /\
     (0 <= target -> is_peak out target))
  /\
  (audio <> [] -> Forall (fun x => x = 0) audio ->
   normalize self audio target = Ok audio).
Proof.
  destruct audio as [|x l].
  - split; [intros H; inversion H | intros H; now contradiction H].
  - destruct (peak_abs_is_peak x l) as [m [Hp Hm]].
    unfold normalize. rewrite Hp. cbv beta iota delta [bind]. split.
    + intros Hex. pose proof (is_peak_positive _ _ Hm Hex) as Hpos.
      destruct (Rlt_dec 0 m) as [_|Hn]; [|contradiction].
      eexists; split; [reflexivity|]. split; [apply length_map|].
      assert (Hk : m * Rabs (target / m) = Rabs target).
      { unfold Rdiv. rewrite Rabs_mult, Rabs_inv, (Rabs_pos_eq m) by lra.
        field. lra. }
      assert (Hpk : is_peak (map (fun a => a * (target / m)) (x :: l))
                            (Rabs target)).
      { rewrite <- Hk. now apply is_peak_scale. }
      split; [exact Hpk|].
      intros Ht. now rewrite Rabs_pos_eq in Hpk.
    + intros _ Hz. rewrite (is_peak_silent _ _ Hm Hz).
      destruct (Rlt_dec 0 0) as [Hlt|_]; [exfalso; lra | reflexivity].
Qed.

Lemma normalize_peak_witness :
  let self := create 44100 in
  (exists out,
     normalize self [0.5; -2; 1] 0.9 = Ok out /\
     length out = 3%nat /\
     is_peak out (Rabs 0.9) /\
     (0 <= 0.9 -> is_peak out 0.9))
  /\ normalize self [0; 0] 0.9 = Ok [0; 0].
Proof.
  intros self. split.
  - apply (proj1 (normalize_peak self [0.5; -2; 1] 0.9)).
    apply Exists_cons_hd. lra.
  - apply (proj2 (normalize_peak self [0; 0] 0.9)).
    + discriminate.
    + repeat constructor.
Defined.

(** C7 as stated fails at both ends: the empty input, which has no sample
    other than zero, makes [np.max] raise instead of coming back unchanged;
    and with a negative target the peak of the result is [-target]. *)
Lemma normalize_not_as_stated :
  let self := create 44100 in
  (Forall (fun x => x = 0) [] /\
   normalize self [] 0.9 = Err EmptyReduction) /\
  (Exists (fun x => x <> 0) [1] /\
   normalize self [1] (-0.9) = Ok [-0.9] /\
   is_peak [-0.9] 0.9 /\ ~ is_peak [-0.9] (-0.9)).
Proof.
  intros self. split; [split; [constructor | reflexivity]|].
  split; [apply Exists_cons_hd; lra|].
  assert (Hn : normalize self [1] (-0.9) = Ok [-0.9]).
  { unfold normalize. simpl. rewrite Rabs_R1.
    destruct (Rlt_dec 0 1) as [_|H]; [|exfalso; lra].
    do 2 f_equal. f_equal. lra. }
  split; [exact Hn|]. split.
  - split.
    + constructor; [|constructor]. rewrite Rabs_left by lra. lra.
    + apply Exists_cons_hd. rewrite Rabs_left by lra. lra.
  - intros [Hall _]. inversion Hall as [|? ? Hx _]; subst.
    pose proof (Rabs_pos (-0.9)). lra.
Qed.

End Normalize.

(** ** Dictionaries *)

Section DictFacts.
Context {V : Type}.
Implicit Types (d : dict V) (k : string) (v : V).

Lemma dict_get_set_same d k v : dict_get (dict_set d k v) k = Some v.
Proof.
  induction d as [|[k' v'] d IH]; simpl.
  - now rewrite String.eqb_refl.
  - destruct (String.eqb k' k) eqn:E; simpl; rewrite E; auto.
Qed.

Lemma dict_get_set_other d k k' v :
  k <> k' -> dict_get (dict_set d k v) k' = dict_get d k'.
Proof.
  intros Hne. induction d as [|[k0 v0] d IH]; simpl.
  - destruct (String.eqb_spec k k'); [contradiction | reflexivity].
  - destruct (String.eqb_spec k0 k) as [->|Hk]; simpl.
    + destruct (String.eqb_spec k k'); [contradiction | reflexivity].
    + now rewrite IH.
Qed.

Lemma dict_mem_In d k : dict_mem d k = true <-> In k (dict_keys d).
Proof.
  unfold dict_mem. induction d as [|[k' v'] d IH]; simpl.
  - split; [discriminate | tauto].
  - destruct (String.eqb_spec k' k) as [->|Hk].
    + split; auto.
    + rewrite IH. split; [auto | intros [?|?]; [contradiction | assumption]].
Qed.

Lemma dict_mem_false_get d k : dict_mem d k = false <-> dict_get d k = None.
Proof.
  unfold dict_mem. destruct (dict_get d k); split; congruence.
Qed.

Lemma dict_mem_true_get d k :
  dict_mem d k = true <-> exists v, dict_get d k = Some v.
Proof.
  unfold dict_mem. destruct (dict_get d k) as [v|]; split.
  - intros _. now exists v.
  - reflexivity.
  - discriminate.
  - intros [v Hv]. discriminate.
Qed.

(** Assigning to a key that is present keeps the keys and their order. *)
Lemma dict_keys_set d k v :
  dict_mem d k = true -> dict_keys (dict_set d k v) = dict_keys d.
Proof.
  unfold dict_mem. induction d as [|[k' v'] d IH]; simpl.
  - discriminate.
  - destruct (String.eqb_spec k' k) as [->|Hk]; simpl; [reflexivity|].
    intros H. now rewrite IH.
Qed.

Lemma dict_mem_set d k k' v :
  dict_mem d k = true -> dict_mem (dict_set d k v) k' = dict_mem d k'.
Proof.
  intros Hk. apply eq_true_iff_eq.
  now rewrite !dict_mem_In, dict_keys_set.
Qed.

End DictFacts.

(** Membership only looks at the keys. *)
Lemma dict_mem_same_keys {V W : Type} (d : dict V) (e : dict W) (k : string) :
  dict_keys d = dict_keys e -> dict_mem d k = dict_mem e k.
Proof.
  intros Hk. apply eq_true_iff_eq. now rewrite !dict_mem_In, Hk.
Qed.

(** ** LiveMusicStudio: the registry *)

Section Registry.
Import LiveMusicStudio.

Lemma registry_mem (s : t) (k : string) :
  registry_ok s -> dict_mem (track_parameters s) k = dict_mem (tracks s) k.
Proof. intros H. symmetry. now apply dict_mem_same_keys. Qed.

Lemma registry_params (s : t) (k : string) :
  registry_ok s -> dict_mem (tracks s) k = true ->
  exists p, dict_get (track_parameters s) k = Some p.
Proof.
  intros Hr Hk. apply dict_mem_true_get. now rewrite registry_mem.
Qed.

Lemma initialize_track_registry (s : t) (i : nat) :
  registry_ok s -> registry_ok (initialize_track s i).
Proof.
  unfold registry_ok, initialize_track. simpl. intros H.
  generalize (track_name_of i) as k.
  generalize (mk_params (track_name_of i) false 1 0 []) as p.
  generalize (@nil R) as a.
  revert H. generalize (track_parameters s) as ps. generalize (tracks s) as ts.
  induction ts as [|[k1 a1] ts IH]; intros [|[k2 p2] ps] H a p k;
    simpl in *; try discriminate; [reflexivity|].
  injection H as -> Hks.
  destruct (String.eqb k2 k); simpl; f_equal; auto.
Qed.

Lemma initialize_tracks_registry (idx : list nat) (s : t) :
  registry_ok s -> registry_ok (fold_left initialize_track idx s).
Proof.
  revert s. induction idx as [|i idx IH]; intros s Hs; simpl.
  - exact Hs.
  - apply IH. now apply initialize_track_registry.
Qed.

Lemma create_registry (sr n : Z) : registry_ok (create sr n).
Proof.
  unfold create, _initialize_tracks.
  apply initialize_tracks_registry. reflexivity.
Qed.

End Registry.

(** ** LiveMusicStudio: what each method returns *)

Lemma py_clamp (lo hi v : R) :
  lo <= hi -> py_max lo (py_min hi v) = clamp lo hi v.
Proof.
  intros Hlh. unfold py_max, py_min, clamp.
  destruct (Rlt_dec v hi), (Rlt_dec v lo), (Rlt_dec hi v);
    try destruct (Rlt_dec lo v); try destruct (Rlt_dec lo hi); lra.
Qed.

Lemma clamp_range (lo hi v : R) : lo <= hi -> lo <= clamp lo hi v <= hi.
Proof.
  intros Hlh. unfold clamp.
  destruct (Rlt_dec v lo); [lra|]. destruct (Rlt_dec hi v); lra.
Qed.

Lemma clamp_inside (lo hi v : R) : lo <= v <= hi -> clamp lo hi v = v.
Proof.
  intros Hv. unfold clamp.
  destruct (Rlt_dec v lo); [lra|]. destruct (Rlt_dec hi v); lra.
Qed.

Section StudioMethods.
Import LiveMusicStudio.

Lemma with_tracks_registry (s : t) (k : string) (a : list R) :
  registry_ok s -> dict_mem (tracks s) k = true ->
  registry_ok (with_tracks s (dict_set (tracks s) k a)).
Proof.
  unfold registry_ok. simpl. intros Hr Hk. now rewrite dict_keys_set.
Qed.

Lemma with_track_parameters_registry (s : t) (k : string) (p : track_params) :
  registry_ok s -> dict_mem (tracks s) k = true ->
  registry_ok (with_track_parameters s (dict_set (track_parameters s) k p)).
Proof.
  unfold registry_ok. simpl. intros Hr Hk.
  rewrite dict_keys_set; [assumption|].
  now rewrite (dict_mem_same_keys _ (tracks s)).
Qed.

Lemma record_track_missing (s : t) (k : string) (a : list R) :
  dict_mem (tracks s) k = false -> record_track s k a = Err (NotFound k).
Proof. intros H. unfold record_track. now rewrite H. Qed.

Lemma record_track_found (s : t) (k : string) (a : list R) :
  dict_mem (tracks s) k = true ->
  record_track s k a = Ok (with_tracks s (dict_set (tracks s) k a)).
Proof. intros H. unfold record_track. now rewrite H. Qed.

Lemma generate_track_empty (s : t) (k waveform : string) :
  generate_track s k [] waveform = Err ConcatEmpty.
Proof. reflexivity. Qed.

Lemma generate_track_missing (s : t) (k waveform : string)
      (notes : list (R * R)) :
  notes <> [] -> dict_mem (tracks s) k = false ->
  generate_track s k notes waveform = Err (NotFound k).
Proof.
  intros Hn H. unfold generate_track.
  destruct notes as [|[f d] notes]; [now contradiction Hn|].
  simpl. now rewrite record_track_missing.
Qed.

Lemma generate_track_found (s : t) (k waveform : string)
      (notes : list (R * R)) :
  notes <> [] -> dict_mem (tracks s) k = true ->
  let audio :=
    concat (map (fun '(freq, duration) =>
                   InstrumentSynthesizer.synthesize_note (synthesizer s)
                     freq duration waveform) notes) in
  generate_track s k notes waveform =
    Ok (with_tracks s (dict_set (tracks s) k audio), audio).
Proof.
  intros Hn H audio. unfold generate_track.
  destruct notes as [|[f d] notes]; [now contradiction Hn|].
  cbv beta iota delta [np_concatenate bind map].
  fold (map (fun '(freq, duration) =>
               InstrumentSynthesizer.synthesize_note (synthesizer s)
                 freq duration waveform) notes).
  now rewrite record_track_found.
Qed.

Lemma apply_effect_missing (s : t) (k effect_type : string) (kw : kwargs) :
  dict_mem (tracks s) k = false ->
  apply_effect s k effect_type kw = Err (NotFound k).
Proof. intros H. unfold apply_effect. now rewrite H. Qed.

Lemma apply_effect_found (s : t) (k effect_type : string) (kw : kwargs)
      (audio : list R) (p : track_params) :
  dict_get (tracks s) k = Some audio ->
  dict_get (track_parameters s) k = Some p ->
  apply_effect s k effect_type kw =
    out <- dispatched s effect_type kw audio ;;
    Ok (with_track_parameters
          (with_tracks s (dict_set (tracks s) k out))
          (dict_set (track_parameters s) k
             (set_effects p (dict_set (effects p) effect_type kw)))).
Proof.
  intros Ha Hp. unfold apply_effect, dict_mem, dict_lookup. rewrite Ha.
  simpl negb. cbv iota. cbv beta iota delta [bind]. fold (dispatched s effect_type kw audio).
  destruct (dispatched s effect_type kw audio) as [out|e]; [|reflexivity].
  simpl track_parameters. now rewrite Hp.
Qed.

Lemma set_track_volume_missing (s : t) (k : string) (v : R) :
  dict_mem (tracks s) k = false -> set_track_volume s k v = Err (NotFound k).
Proof. intros H. unfold set_track_volume. now rewrite H. Qed.

Lemma set_track_volume_found (s : t) (k : string) (v : R)
      (audio : list R) (p : track_params) :
  dict_get (tracks s) k = Some audio ->
  dict_get (track_parameters s) k = Some p ->
  set_track_volume s k v =
    Ok (with_track_parameters
          (with_tracks s
             (dict_set (tracks s) k (map (fun x => x * clamp 0 1 v) audio)))
          (dict_set (track_parameters s) k (set_volume p (clamp 0 1 v)))).
Proof.
  intros Ha Hp. unfold set_track_volume, dict_mem, dict_lookup. rewrite Ha.
  simpl negb. cbv iota. cbv beta iota delta [bind]. simpl track_parameters.
  rewrite Hp. now rewrite py_clamp by lra.
Qed.

Lemma set_track_pan_missing (s : t) (k : string) (v : R) :
  dict_mem (tracks s) k = false -> set_track_pan s k v = Err (NotFound k).
Proof. intros H. unfold set_track_pan. now rewrite H. Qed.

Lemma set_track_pan_found (s : t) (k : string) (v : R) (p : track_params) :
  dict_mem (tracks s) k = true ->
  dict_get (track_parameters s) k = Some p ->
  set_track_pan s k v =
    Ok (with_track_parameters s
          (dict_set (track_parameters s) k (set_pan p (clamp (-1) 1 v)))).
Proof.
  intros Hk Hp. unfold set_track_pan, dict_lookup. rewrite Hk, Hp.
  simpl. now rewrite py_clamp by lra.
Qed.

Lemma mute_track_missing (s : t) (k : string) :
  dict_mem (track_parameters s) k = false ->
  mute_track s k = s /\ unmute_track s k = s.
Proof.
  intros H. apply dict_mem_false_get in H.
  unfold mute_track, unmute_track. now rewrite H.
Qed.

End StudioMethods.

(** ** LiveMusicStudio: volume *)

Section Volume.
Import LiveMusicStudio.

(** C4. [set_track_volume] stores the volume clamped to [0, 1] and multiplies
    the samples of the track by it; a second call multiplies again, so two
    calls with 0.5 on samples all equal to 1 leave 0.25 everywhere, not 0.5. *)
Theorem set_track_volume_compounds (s : t) (k : string) (audio : list R)
        (v1 v2 : R) :
  registry_ok s ->
  dict_get (tracks s) k = Some audio ->
  let c1 := clamp 0 1 v1 in
  let c2 := clamp 0 1 v2 in
  exists s1 s2 p1 p2,
    set_track_volume s k v1 = Ok s1 /\
    set_track_volume s1 k v2 = Ok s2 /\
    0 <= c1 <= 1 /\ 0 <= c2 <= 1 /\
    dict_get (track_parameters s1) k = Some p1 /\ volume p1 = c1 /\
    dict_get (track_parameters s2) k = Some p2 /\ volume p2 = c2 /\
    dict_get (tracks s1) k = Some (map (fun x => x * c1) audio) /\
    dict_get (tracks s2) k = Some (map (fun x => x * c1 * c2) audio) /\
    (v1 = 0.5 -> v2 = 0.5 -> Forall (fun x => x = 1) audio ->
     Forall (fun x => x = 0.25) (map (fun x => x * c1 * c2) audio) /\
     (audio <> [] ->
      ~ Forall (fun x => x = 0.5) (map (fun x => x * c1 * c2) audio))).
Proof.
  intros Hr Ha c1 c2.
  assert (Hk : dict_mem (tracks s) k = true)
    by (apply dict_mem_true_get; eauto).
  destruct (registry_params s k Hr Hk) as [p Hp].
  set (s1 := with_track_parameters
               (with_tracks s (dict_set (tracks s) k (map (fun x => x * c1) audio)))
               (dict_set (track_parameters s) k (set_volume p c1))).
  assert (Ha1 : dict_get (tracks s1) k = Some (map (fun x => x * c1) audio))
    by (unfold s1; simpl; apply dict_get_set_same).
  assert (Hp1 : dict_get (track_parameters s1) k = Some (set_volume p c1))
    by (unfold s1; simpl; apply dict_get_set_same).
  exists s1.
  eexists. exists (set_volume p c1). eexists.
  split; [now apply set_track_volume_found|].
  split; [now apply (set_track_volume_found s1 k v2 _ _ Ha1 Hp1)|].
  split; [apply clamp_range; lra|]. split; [apply clamp_range; lra|].
  split; [exact Hp1|]. split; [reflexivity|].
  split; [simpl; apply dict_get_set_same|]. split; [reflexivity|].
  split; [exact Ha1|].
  split; [simpl; rewrite dict_get_set_same, map_map; reflexivity|].
  intros -> -> Hone. unfold c1, c2. rewrite !clamp_inside by lra.
  assert (Hq : Forall (fun x => x = 0.25) (map (fun x => x * 0.5 * 0.5) audio)).
  { apply Forall_map. eapply Forall_impl; [|exact Hone].
    intros x ->. simpl. lra. }
  split; [exact Hq|].
  intros Hne Hhalf. destruct audio as [|x l]; [now contradiction Hne|].
  simpl in Hq, Hhalf. inversion Hq; inversion Hhalf; subst. lra.
Qed.

(** Scenario D on a fresh studio after [record_track("track_0", [1, 1, 1])]. *)
Lemma set_track_volume_compounds_witness :
  let s := with_tracks (create 44100 2)
             (dict_set (tracks (create 44100 2)) "track_0" [1; 1; 1]) in
  exists s1 s2 p1 p2,
    set_track_volume s "track_0" 0.5 = Ok s1 /\
    set_track_volume s1 "track_0" 0.5 = Ok s2 /\
    0 <= clamp 0 1 0.5 <= 1 /\ 0 <= clamp 0 1 0.5 <= 1 /\
    dict_get (track_parameters s1) "track_0" = Some p1 /\
    volume p1 = clamp 0 1 0.5 /\
    dict_get (track_parameters s2) "track_0" = Some p2 /\
    volume p2 = clamp 0 1 0.5 /\
    dict_get (tracks s1) "track_0" =
      Some (map (fun x => x * clamp 0 1 0.5) [1; 1; 1]) /\
    dict_get (tracks s2) "track_0" =
      Some (map (fun x => x * clamp 0 1 0.5 * clamp 0 1 0.5) [1; 1; 1]) /\
    (0.5 = 0.5 -> 0.5 = 0.5 -> Forall (fun x => x = 1) [1; 1; 1] ->
     Forall (fun x => x = 0.25)
       (map (fun x => x * clamp 0 1 0.5 * clamp 0 1 0.5) [1; 1; 1]) /\
     ([1; 1; 1] <> [] ->
      ~ Forall (fun x => x = 0.5)
          (map (fun x => x * clamp 0 1 0.5 * clamp 0 1 0.5) [1; 1; 1]))).
Proof.
  intros s.
  apply (set_track_volume_compounds s "track_0" [1; 1; 1] 0.5 0.5).
  - reflexivity.
  - reflexivity.
Defined.

End Volume.

(** ** LiveMusicStudio: effects *)

Section ApplyEffect.
Import LiveMusicStudio.

(** The delay branch reads [delay_time] only: two sets of keyword arguments
    with the same [delay_time] run the same effect. *)
Lemma dispatched_delay_feedback (s : t) (audio : list R) (kw1 kw2 : kwargs) :
  kwargs_get kw1 "delay_time" 0.25 = kwargs_get kw2 "delay_time" 0.25 ->
  dispatched s "delay" kw1 audio = dispatched s "delay" kw2 audio.
Proof. intros H. unfold dispatched. simpl. now rewrite H. Qed.

(** C9. On an existing track, [apply_effect(name, "delay", delay_time=t,
    feedback=f)] leaves the same samples whatever [f] is: the delay runs with
    the default feedback 0.3; yet the caller's [f] is what the track's
    [effects] entry records. *)
Theorem apply_effect_delay_ignores_feedback (s : t) (k : string)
        (audio : list R) (delay_time f1 f2 : R) :
  registry_ok s ->
  dict_get (tracks s) k = Some audio ->
  let kw1 := [("delay_time"%string, delay_time); ("feedback"%string, f1)] in
  let kw2 := [("delay_time"%string, delay_time); ("feedback"%string, f2)] in
  let r1 := apply_effect s k "delay" kw1 in
  let r2 := apply_effect s k "delay" kw2 in
  result_map tracks r1 = result_map tracks r2 /\
  ((0 <= EffectsProcessor.delay_samples_of (effects_processor s) delay_time)%Z ->
   exists out s1 s2 p1 p2,
     EffectsProcessor.add_delay (effects_processor s) audio delay_time 0.3
       = Ok out /\
     r1 = Ok s1 /\ r2 = Ok s2 /\
     dict_get (tracks s1) k = Some out /\
     dict_get (tracks s2) k = Some out /\
     dict_get (track_parameters s1) k = Some p1 /\
     dict_get (track_parameters s2) k = Some p2 /\
     dict_get (effects p1) "delay" = Some kw1 /\
     dict_get (effects p2) "delay" = Some kw2 /\
     kwargs_get kw1 "feedback" 0.3 = f1 /\
     kwargs_get kw2 "feedback" 0.3 = f2).
Proof.
  intros Hr Ha kw1 kw2 r1 r2.
  assert (Hk : dict_mem (tracks s) k = true)
    by (apply dict_mem_true_get; eauto).
  destruct (registry_params s k Hr Hk) as [p Hp].
  assert (E1 : r1 = _) by apply (apply_effect_found s k "delay" kw1 _ _ Ha Hp).
  assert (E2 : r2 = _) by apply (apply_effect_found s k "delay" kw2 _ _ Ha Hp).
  rewrite (dispatched_delay_feedback s audio kw2 kw1) in E2 by reflexivity.
  assert (Hd : dispatched s "delay" kw1 audio =
               EffectsProcessor.add_delay (effects_processor s) audio
                 delay_time 0.3).
  { unfold dispatched, kwargs_get. simpl. reflexivity. }
  rewrite Hd in E1, E2. split.
  - rewrite E1, E2.
    destruct (EffectsProcessor.add_delay _ _ _ _); reflexivity.
  - intros Hpos.
    destruct (add_delay_length (effects_processor s) audio delay_time 0.3 Hpos)
      as [out [Eo _]].
    rewrite Eo in E1, E2. simpl in E1, E2.
    exists out. eexists. eexists. eexists. eexists.
    split; [exact Eo|]. split; [exact E1|]. split; [exact E2|].
    simpl. rewrite !dict_get_set_same.
    repeat split; try reflexivity; simpl; apply dict_get_set_same.
Qed.

Lemma apply_effect_delay_ignores_feedback_witness :
  let s := with_tracks (create 44100 2)
             (dict_set (tracks (create 44100 2)) "track_0" [1; 0.5]) in
  let kw1 := [("delay_time"%string, 0.25); ("feedback"%string, 0.9)] in
  let kw2 := [("delay_time"%string, 0.25); ("feedback"%string, 0)] in
  let r1 := apply_effect s "track_0" "delay" kw1 in
  let r2 := apply_effect s "track_0" "delay" kw2 in
  result_map tracks r1 = result_map tracks r2 /\
  ((0 <= EffectsProcessor.delay_samples_of (effects_processor s) 0.25)%Z ->
   exists out s1 s2 p1 p2,
     EffectsProcessor.add_delay (effects_processor s) [1; 0.5] 0.25 0.3
       = Ok out /\
     r1 = Ok s1 /\ r2 = Ok s2 /\
     dict_get (tracks s1) "track_0" = Some out /\
     dict_get (tracks s2) "track_0" = Some out /\
     dict_get (track_parameters s1) "track_0" = Some p1 /\
     dict_get (track_parameters s2) "track_0" = Some p2 /\
     dict_get (effects p1) "delay" = Some kw1 /\
     dict_get (effects p2) "delay" = Some kw2 /\
     kwargs_get kw1 "feedback" 0.3 = 0.9 /\
     kwargs_get kw2 "feedback" 0.3 = 0).
Proof.
  intros s.
  apply (apply_effect_delay_ignores_feedback s "track_0" [1; 0.5] 0.25 0.9 0).
  - reflexivity.
  - reflexivity.
Defined.

(** The effects-chain delay itself does use its feedback argument. *)
Lemma add_delay_uses_feedback :
  EffectsProcessor.add_delay (EffectsProcessor.create 4) [1; 1] 0.25 0
    = Ok [1 + 0 * 0; 1 + 0 * 1] /\
  EffectsProcessor.add_delay (EffectsProcessor.create 4) [1; 1] 0.25 0.3
    = Ok [1 + 0.3 * 0; 1 + 0.3 * 1].
Proof.
  unfold EffectsProcessor.add_delay.
  rewrite (delay_samples_of_exact _ _ 1)
    by (exact fl_0_25 || (simpl; lia) || (simpl; lra)).
  split; reflexivity.
Qed.

End ApplyEffect.

(** ** LiveMusicStudio: generating a track *)

Section GenerateTrack.
Import LiveMusicStudio.

(** C10. With an empty note sequence [generate_track] raises, out of
    [np.concatenate], before it reaches [record_track]: whatever the track
    name, nothing is stored and no audio is returned. With one note or more
    on an initialized track it succeeds. *)
Theorem generate_track_empty_raises (s : t) (k waveform : string) :
  generate_track s k [] waveform = Err ConcatEmpty /\
  (forall r, generate_track s k [] waveform <> Ok r) /\
  (dict_mem (tracks s) k = true ->
   (exists s', record_track s k [] = Ok s' /\ dict_get (tracks s') k = Some [])
   /\
   forall note notes, exists s' audio,
     generate_track s k (note :: notes) waveform = Ok (s', audio) /\
     dict_get (tracks s') k = Some audio).
Proof.
  split; [reflexivity|]. split; [intros r; discriminate|].
  intros Hk. split.
  - rewrite record_track_found by assumption.
    eexists; split; [reflexivity|]. simpl. apply dict_get_set_same.
  - intros note notes.
    rewrite (generate_track_found s k waveform (note :: notes))
      by (assumption || discriminate).
    eexists; eexists; split; [reflexivity|]. simpl. apply dict_get_set_same.
Qed.

Lemma generate_track_empty_raises_witness :
  let s := create 44100 8 in
  generate_track s "track_0" [] "sine" = Err ConcatEmpty /\
  (forall r, generate_track s "track_0" [] "sine" <> Ok r) /\
  (dict_mem (tracks s) "track_0" = true ->
   (exists s', record_track s "track_0" [] = Ok s' /\
               dict_get (tracks s') "track_0" = Some [])
   /\
   forall note notes, exists s' audio,
     generate_track s "track_0" (note :: notes) "sine" = Ok (s', audio) /\
     dict_get (tracks s') "track_0" = Some audio).
Proof.
  intros s. apply (generate_track_empty_raises s "track_0" "sine").
Defined.

End GenerateTrack.

(** ** LiveMusicStudio: errors *)

Section Errors.
Import LiveMusicStudio.

Lemma dispatched_ok (s : t) (effect_type : string) (kw : kwargs)
      (audio : list R) :
  (0 <= EffectsProcessor.sample_rate (effects_processor s))%Z ->
  0 <= kwargs_get kw "delay_time" 0.25 ->
  exists out, dispatched s effect_type kw audio = Ok out /\
              length out = length audio.
Proof.
  intros Hsr Hd. unfold dispatched.
  destruct (String.eqb effect_type "reverb"); [now apply add_reverb_length|].
  destruct (String.eqb effect_type "delay").
  { apply add_delay_length. now apply delay_samples_of_nonneg. }
  destruct (String.eqb effect_type "compression").
  { apply add_compression_length. unfold EffectsProcessor.default_ratio. lra. }
  now exists audio.
Qed.

(** The only error of the effects that [apply_effect] runs is the one of
    [np.zeros] on a negative size. *)
Lemma dispatched_error (s : t) (effect_type : string) (kw : kwargs)
      (audio : list R) :
  (exists out, dispatched s effect_type kw audio = Ok out) \/
  dispatched s effect_type kw audio = Err NegativeDimensions.
Proof.
  unfold dispatched.
  destruct (String.eqb effect_type "reverb").
  { unfold EffectsProcessor.add_reverb.
    destruct (Z.lt_ge_cases
                (py_int (0.05 * IZR (EffectsProcessor.sample_rate
                                       (effects_processor s)))) 0) as [Hn|Hn].
    - right. now rewrite np_zeros_neg.
    - left. rewrite np_zeros_ok by exact Hn. simpl. eauto. }
  destruct (String.eqb effect_type "delay").
  { unfold EffectsProcessor.add_delay.
    destruct (Z.lt_ge_cases
                (EffectsProcessor.delay_samples_of (effects_processor s)
                   (kwargs_get kw "delay_time" 0.25)) 0) as [Hn|Hn].
    - right. now rewrite np_zeros_neg.
    - left. rewrite np_zeros_ok by exact Hn. simpl. eauto. }
  destruct (String.eqb effect_type "compression").
  { left. unfold EffectsProcessor.add_compression.
    destruct (Req_dec_T EffectsProcessor.default_ratio 0) as [H|_]; [|eauto].
    unfold EffectsProcessor.default_ratio in H. exfalso. lra. }
  left. eauto.
Qed.

Lemma raises_not_found_missing {A : Type} (k : string) :
  raises_not_found (@Err A (NotFound k)).
Proof. now exists k. Qed.

Lemma record_track_known (s : t) (k : string) (a : list R) :
  dict_mem (tracks s) k = true -> ~ raises_not_found (record_track s k a).
Proof.
  intros Hk [n Hn]. rewrite record_track_found in Hn by assumption.
  discriminate.
Qed.

Lemma generate_track_known (s : t) (k w : string) (notes : list (R * R)) :
  notes <> [] -> dict_mem (tracks s) k = true ->
  ~ raises_not_found (generate_track s k notes w).
Proof.
  intros Hne Hk [n Hn]. rewrite generate_track_found in Hn by assumption.
  discriminate.
Qed.

(** On a known name [apply_effect] either succeeds, or raises the error of
    [np.zeros], or that of a missing parameter entry: never [NotFound]. *)
Lemma apply_effect_known (s : t) (k e : string) (kw : kwargs) :
  dict_mem (tracks s) k = true -> ~ raises_not_found (apply_effect s k e kw).
Proof.
  intros Hk [n Hn].
  destruct (proj1 (dict_mem_true_get _ _) Hk) as [audio Ha].
  unfold apply_effect, dict_lookup in Hn. rewrite Hk, Ha in Hn.
  simpl negb in Hn. cbv beta iota delta [bind] in Hn.
  fold (dispatched s e kw audio) in Hn.
  destruct (dispatched_error s e kw audio) as [[out Ho]|Ho];
    rewrite Ho in Hn; [|discriminate].
  simpl track_parameters in Hn.
  destruct (dict_get (track_parameters s) k); discriminate.
Qed.

Lemma set_track_volume_known (s : t) (k : string) (v : R) :
  dict_mem (tracks s) k = true -> ~ raises_not_found (set_track_volume s k v).
Proof.
  intros Hk [n Hn].
  destruct (proj1 (dict_mem_true_get _ _) Hk) as [audio Ha].
  unfold set_track_volume, dict_lookup in Hn. rewrite Hk, Ha in Hn.
  simpl negb in Hn. cbv beta iota delta [bind] in Hn.
  simpl track_parameters in Hn.
  destruct (dict_get (track_parameters s) k); discriminate.
Qed.

Lemma set_track_pan_known (s : t) (k : string) (v : R) :
  dict_mem (tracks s) k = true -> ~ raises_not_found (set_track_pan s k v).
Proof.
  intros Hk [n Hn].
  unfold set_track_pan, dict_lookup in Hn. rewrite Hk in Hn.
  simpl negb in Hn. cbv beta iota delta [bind] in Hn.
  destruct (dict_get (track_parameters s) k); discriminate.
Qed.

(** A call raises [NotFound] exactly when the name is unknown, once it does
    so on every unknown name and never on a known one. *)
Lemma not_found_iff {A : Type} (r : result A) (d : dict (list R)) (k : string) :
  (dict_mem d k = false -> r = Err (NotFound k)) ->
  (dict_mem d k = true -> ~ raises_not_found r) ->
  raises_not_found r <-> dict_mem d k = false.
Proof.
  intros Hm Hk. split.
  - intros Hr. destruct (dict_mem d k) eqn:E; [|reflexivity].
    exfalso. now apply Hk.
  - intros E. rewrite (Hm E). apply raises_not_found_missing.
Qed.

(** In this embedding a method that raises returns [Err] and no new studio:
    the exception leaves the object as the caller passed it.  That is what
    the code does for [NotFound], which every method raises in its first
    statement ([generate_track] through [record_track], after a synthesis
    that assigns nothing). *)

(** C5, amended. For every argument, [record_track], [apply_effect],
    [set_track_volume], [set_track_pan], and [generate_track] on at least
    one note, raise [NotFound] if and only if the track name is not a key of
    the track registry, and the error names that track; with no note
    [generate_track] raises the error of [np.concatenate] whatever the
    name. In a studio whose
    parameter registry has the keys of its track registry, [mute_track] and
    [unmute_track] return the studio unchanged on an unknown name and set
    the flag on a known one; on a known name [record_track],
    [generate_track] on at least one note, [set_track_volume] and
    [set_track_pan] succeed, and [apply_effect] succeeds when neither the
    sample rate nor the delay time is negative and otherwise raises nothing
    but the error of [np.zeros] on a negative size. *)
Theorem not_found_iff_unknown_track (s : t) (k : string) :
  ((forall a,
      raises_not_found (record_track s k a) <-> dict_mem (tracks s) k = false)
   /\
   (forall notes w, notes <> [] ->
      (raises_not_found (generate_track s k notes w)
       <-> dict_mem (tracks s) k = false))
   /\
   (forall e kw,
      raises_not_found (apply_effect s k e kw)
      <-> dict_mem (tracks s) k = false)
   /\
   (forall v,
      raises_not_found (set_track_volume s k v)
      <-> dict_mem (tracks s) k = false)
   /\
   (forall v,
      raises_not_found (set_track_pan s k v)
      <-> dict_mem (tracks s) k = false))
  /\
  (dict_mem (tracks s) k = false ->
   (forall a, record_track s k a = Err (NotFound k)) /\
   (forall notes w, notes <> [] ->
      generate_track s k notes w = Err (NotFound k)) /\
   (forall e kw, apply_effect s k e kw = Err (NotFound k)) /\
   (forall v, set_track_volume s k v = Err (NotFound k)) /\
   (forall v, set_track_pan s k v = Err (NotFound k)))
  /\
  (forall w, generate_track s k [] w = Err ConcatEmpty)
  /\
  (registry_ok s ->
   (dict_mem (tracks s) k = false ->
    mute_track s k = s /\ unmute_track s k = s)
   /\
   (dict_mem (tracks s) k = true ->
    (forall a, exists s', record_track s k a = Ok s') /\
    (forall notes w, notes <> [] ->
       exists r, generate_track s k notes w = Ok r) /\
    (forall e kw,
       (0 <= EffectsProcessor.sample_rate (effects_processor s))%Z ->
       0 <= kwargs_get kw "delay_time" 0.25 ->
       exists s', apply_effect s k e kw = Ok s') /\
    (forall e kw,
       (exists s', apply_effect s k e kw = Ok s') \/
       apply_effect s k e kw = Err NegativeDimensions) /\
    (forall v, exists s', set_track_volume s k v = Ok s') /\
    (forall v, exists s', set_track_pan s k v = Ok s') /\
    (exists p, dict_get (track_parameters (mute_track s k)) k = Some p /\
               muted p = true) /\
    (exists p, dict_get (track_parameters (unmute_track s k)) k = Some p /\
               muted p = false) /\
    tracks (mute_track s k) = tracks s /\
    tracks (unmute_track s k) = tracks s)).
Proof.
  split; [|split; [|split; [reflexivity|]]].
  - split; [intros a; apply not_found_iff;
            [apply record_track_missing | intros; now apply record_track_known]|].
    split; [intros notes w Hne; apply not_found_iff;
            [now apply generate_track_missing
            | intros; now apply generate_track_known]|].
    split; [intros e kw; apply not_found_iff;
            [apply apply_effect_missing | intros; now apply apply_effect_known]|].
    split; [intros v; apply not_found_iff;
            [apply set_track_volume_missing
            | intros; now apply set_track_volume_known]|].
    intros v; apply not_found_iff;
      [apply set_track_pan_missing | intros; now apply set_track_pan_known].
  - intros Hk.
    split; [intros; now apply record_track_missing|].
    split; [intros; now apply generate_track_missing|].
    split; [intros; now apply apply_effect_missing|].
    split; [intros; now apply set_track_volume_missing|].
    intros; now apply set_track_pan_missing.
  - intros Hr. split; intros Hk.
    { apply mute_track_missing. now rewrite registry_mem. }
    destruct (proj1 (dict_mem_true_get _ _) Hk) as [audio Ha].
    destruct (registry_params s k Hr Hk) as [p Hp].
    split; [intros a; rewrite record_track_found by assumption; eauto|].
    split.
    { intros notes w Hn. rewrite generate_track_found by assumption. eauto. }
    split.
    { intros e kw Hsr Hd. rewrite (apply_effect_found s k e kw _ _ Ha Hp).
      destruct (dispatched_ok s e kw audio Hsr Hd) as [out [-> _]].
      simpl. eauto. }
    split.
    { intros e kw. rewrite (apply_effect_found s k e kw _ _ Ha Hp).
      destruct (dispatched_error s e kw audio) as [[out ->]| ->].
      - left. simpl. eauto.
      - right. reflexivity. }
    split; [intros v; rewrite (set_track_volume_found s k v _ _ Ha Hp); eauto|].
    split; [intros v; rewrite (set_track_pan_found s k v _ Hk Hp); eauto|].
    unfold mute_track, unmute_track. rewrite Hp. simpl.
    rewrite !dict_get_set_same.
    split; [eexists; split; reflexivity|].
    split; [eexists; split; reflexivity|]. split; reflexivity.
Qed.

Lemma not_found_iff_unknown_track_witness :
  let s := create 44100 8 in
  (forall e kw, raises_not_found (apply_effect s "drums" e kw)) /\
  (forall e kw, ~ raises_not_found (apply_effect s "track_7" e kw)) /\
  (forall a, record_track s "drums" a = Err (NotFound "drums")) /\
  (forall a, exists s', record_track s "track_7" a = Ok s') /\
  (forall e, exists s',
     apply_effect s "track_7" e [("delay_time"%string, 0.25)] = Ok s') /\
  (forall v, exists s', set_track_volume s "track_7" v = Ok s') /\
  mute_track s "drums" = s.
Proof.
  intros s.
  assert (Hr : registry_ok s) by apply create_registry.
  destruct (not_found_iff_unknown_track s "drums") as (Hi & Hu & _ & Hg).
  destruct (not_found_iff_unknown_track s "track_7") as (Hi' & _ & _ & Hg').
  destruct Hi as (_ & _ & Hia & _). destruct Hi' as (_ & _ & Hia' & _).
  specialize (Hu eq_refl). destruct Hu as (Hrec & _).
  destruct (Hg Hr) as (Hm & _). destruct (Hm eq_refl) as (Hmute & _).
  destruct (Hg' Hr) as (_ & Hv). specialize (Hv eq_refl).
  destruct Hv as (Hrec' & _ & Heff & _ & Hvol & _).
  split; [intros e kw; now apply Hia|].
  split; [intros e kw H; apply Hia' in H; discriminate|].
  split; [exact Hrec|]. split; [exact Hrec'|].
  split; [|split; [exact Hvol | exact Hmute]].
  intros e. apply Heff.
  - change (0 <= 44100)%Z. lia.
  - unfold kwargs_get. simpl dict_get. lra.
Defined.

(** C5 as stated fails: with no notes [generate_track] raises the error of
    [np.concatenate], on a name that was never initialized as on one that
    was; and [apply_effect] with a delay time of -1 s raises the error of
    [np.zeros] on an existing track. *)
Lemma not_found_is_not_the_only_error :
  let s := create 44100 8 in
  dict_mem (tracks s) "drums" = false /\
  generate_track s "drums" [] "sine" = Err ConcatEmpty /\
  dict_mem (tracks s) "track_0" = true /\
  generate_track s "track_0" [] "sine" = Err ConcatEmpty /\
  apply_effect s "track_0" "delay" [("delay_time"%string, -1)]
    = Err NegativeDimensions.
Proof.
  intros s. do 4 (split; [reflexivity|]).
  rewrite (apply_effect_found s "track_0" "delay" _ [] (mk_params "track_0" false 1 0 []))
    by reflexivity.
  unfold dispatched. simpl String.eqb. cbv iota.
  rewrite add_delay_negative; [reflexivity|].
  change (effects_processor s) with (EffectsProcessor.create 44100).
  unfold kwargs_get. simpl dict_get. cbv iota.
  rewrite (delay_samples_of_exact _ _ (-44100));
    [lia | simpl; lia | simpl; lia | exact fl_minus_1|].
  simpl. lra.
Qed.

End Errors.

(** ** LiveMusicStudio: the mixer *)

Lemma zip_with_plus_nth (xs ys : list R) (i : nat) :
  length xs = length ys ->
  nth i (zip_with Rplus xs ys) 0 = nth i xs 0 + nth i ys 0.
Proof.
  intros Hlen. destruct (Nat.lt_ge_cases i (length xs)) as [Hi|Hi].
  - apply zip_with_nth; lia.
  - rewrite !nth_overflow; try lia; [lra|].
    rewrite zip_with_length. lia.
Qed.

Lemma np_pad_right_nth (a : list R) (k i : nat) :
  nth i (np_pad_right a k) 0 = nth i a 0.
Proof.
  unfold np_pad_right. destruct (Nat.lt_ge_cases i (length a)) as [Hi|Hi].
  - now apply app_nth1.
  - rewrite app_nth2, nth_repeat by lia. now rewrite nth_overflow.
Qed.

Lemma np_pad_right_length (a : list R) (k : nat) :
  length (np_pad_right a k) = (length a + k)%nat.
Proof. unfold np_pad_right. now rewrite length_app, repeat_length. Qed.

Lemma list_max_attained (l : list nat) :
  list_max l <> O -> In (list_max l) l.
Proof.
  induction l as [|x l IH]; simpl; [congruence|].
  intros Hne. destruct (Nat.max_spec x (list_max l)) as [[Hlt ->]|[Hle ->]].
  - right. apply IH. lia.
  - now left.
Qed.

Lemma normalize_length (self : EffectsProcessor.t) (audio : list R) (target : R) :
  audio <> [] ->
  exists out, EffectsProcessor.normalize self audio target = Ok out /\
              length out = length audio.
Proof.
  intros Hne. destruct audio as [|x l]; [now contradiction Hne|].
  unfold EffectsProcessor.normalize.
  destruct (peak_abs_is_peak x l) as [m [-> _]].
  cbv beta iota delta [bind].
  destruct (Rlt_dec 0 m); eexists; split; try reflexivity.
  apply length_map.
Qed.

Section Mixer.
Import LiveMusicStudio.

Lemma max_track_len_bound (s : t) (k : string) (a : list R) :
  In (k, a) (tracks s) -> (length a <= max_track_len s)%nat.
Proof.
  intros Hin. unfold max_track_len, dict_values.
  assert (H : Forall (fun n => (n <= list_max (map (fun audio => length audio)
                                               (map snd (tracks s))))%nat)
                (map (fun audio => length audio) (map snd (tracks s))))
    by now apply list_max_le.
  rewrite Forall_forall in H. apply H.
  apply in_map_iff. exists a. split; [reflexivity|].
  apply in_map_iff. now exists (k, a).
Qed.

Lemma max_track_len_attained (s : t) :
  max_track_len s <> O ->
  exists k a, In (k, a) (tracks s) /\ length a = max_track_len s.
Proof.
  intros Hne. apply list_max_attained in Hne.
  fold (max_track_len s) in Hne. unfold dict_values in Hne.
  apply in_map_iff in Hne. destruct Hne as [a [Hlen Hin]].
  apply in_map_iff in Hin. destruct Hin as [[k a'] [Heq Hin]].
  simpl in Heq. subst a'. now exists k, a.
Qed.

(** The loop of [mix]: each turn adds the track's contribution to every
    sample of the running sum. *)
Lemma mix_loop (ps : dict track_params) (n : nat) (ts : dict (list R))
      (acc : list R) :
  length acc = n ->
  Forall (fun item => (length (snd item) <= n)%nat /\
                      dict_mem ps (fst item) = true) ts ->
  exists mono,
    fold_left (mix_step ps n) ts (Ok acc) = Ok mono /\
    length mono = n /\
    forall i, nth i mono 0 =
              nth i acc 0 + sum_list (map (contribution ps i) ts).
Proof.
  intros Hacc Hts. revert acc Hacc.
  induction Hts as [|[k a] ts [Hlen Hmem] _ IH]; intros acc Hacc; simpl.
  - exists acc. repeat split; auto. intros i. lra.
  - simpl in Hlen, Hmem.
    apply dict_mem_true_get in Hmem. destruct Hmem as [p Hp].
    unfold dict_lookup. rewrite Hp. cbv beta iota delta [bind].
    assert (Hc : forall i, contribution ps i (k, a) =
                           if muted p then 0 else nth i a 0)
      by (intros i; unfold contribution; simpl; now rewrite Hp).
    destruct (muted p); simpl negb; cbv iota.
    + destruct (IH acc Hacc) as [mono [Hf [Hl Hn]]].
      exists mono. repeat split; auto. intros i. rewrite Hn, Hc. lra.
    + set (padded := np_pad_right a (n - length a)).
      assert (Hpl : length padded = n)
        by (unfold padded; rewrite np_pad_right_length; lia).
      destruct (IH (zip_with Rplus acc padded)) as [mono [Hf [Hl Hn]]].
      { rewrite zip_with_length. lia. }
      exists mono. repeat split; auto. intros i.
      rewrite Hn, Hc, zip_with_plus_nth by lia.
      unfold padded. rewrite np_pad_right_nth. lra.
Qed.

Lemma mono_sum_spec (s : t) :
  registry_ok s ->
  exists mono,
    mono_sum s = Ok mono /\
    length mono = max_track_len s /\
    forall i, nth i mono 0 =
              sum_list (map (contribution (track_parameters s) i) (tracks s)).
Proof.
  intros Hr. unfold mono_sum.
  rewrite np_zeros_ok by lia. rewrite Nat2Z.id.
  destruct (mix_loop (track_parameters s) (max_track_len s) (tracks s)
              (repeat 0 (max_track_len s))) as [mono [Hf [Hl Hn]]].
  - apply repeat_length.
  - apply Forall_forall. intros [k a] Hin. simpl. split.
    + now apply (max_track_len_bound s k).
    + rewrite registry_mem by assumption.
      apply dict_mem_In. apply in_map_iff. now exists (k, a).
  - exists mono. repeat split; auto. intros i. rewrite Hn.
    rewrite nth_repeat. lra.
Qed.

(** C1. The two channels of [mix] are as long as the longest track; sample
    [i] of the sum that is then normalized is the sum, over the tracks, of
    the track's sample [i], taken as zero past the end of a shorter track
    and for every sample of a muted track; and when no track has a sample
    [mix] returns the empty array. *)
Theorem mix_length_and_mute (s : t) :
  registry_ok s ->
  let n := max_track_len s in
  (forall k a, In (k, a) (tracks s) -> (length a <= n)%nat) /\
  (n <> O -> exists k a, In (k, a) (tracks s) /\ length a = n) /\
  ((forall k a, In (k, a) (tracks s) -> a = []) -> mix s = Ok (Array1 [])) /\
  ((exists k a, In (k, a) (tracks s) /\ a <> []) ->
   exists mono ch,
     mono_sum s = Ok mono /\
     length mono = n /\
     (forall i, nth i mono 0 =
                sum_list (map (contribution (track_parameters s) i) (tracks s))) /\
     (forall k a p i, In (k, a) (tracks s) ->
        dict_get (track_parameters s) k = Some p -> muted p = true ->
        contribution (track_parameters s) i (k, a) = 0) /\
     mix s = Ok (Array2 [ch; ch]) /\
     length ch = n).
Proof.
  intros Hr n.
  split; [intros k a; apply max_track_len_bound|].
  split; [apply max_track_len_attained|].
  split.
  - intros Hempty. unfold mix.
    replace (max_track_len s) with O; [reflexivity|].
    destruct (Nat.eq_dec (max_track_len s) 0) as [->|Hne]; [reflexivity|].
    destruct (max_track_len_attained s Hne) as [k [a [Hin Hlen]]].
    rewrite (Hempty k a Hin) in Hlen. simpl in Hlen. lia.
  - intros [k [a [Hin Hne]]].
    assert (Hn : n <> O).
    { pose proof (max_track_len_bound s k a Hin).
      destruct a; [now contradiction Hne | simpl in *; unfold n; lia]. }
    destruct (mono_sum_spec s Hr) as [mono [Hm [Hl Hi]]].
    destruct (normalize_length (effects_processor s) mono 0.9)
      as [norm [Hnorm Hnl]].
    { intros ->. simpl in Hl. unfold n in Hn. lia. }
    exists mono, (map (fun x => x * master_volume s) norm).
    split; [exact Hm|]. split; [exact Hl|]. split; [exact Hi|]. split.
    + intros k' a' p i _ Hp Hmute. unfold contribution. simpl.
      now rewrite Hp, Hmute.
    + split.
      * unfold mix. fold n. destruct (Nat.eqb_spec n 0); [contradiction|].
        rewrite Hm. cbv beta iota delta [bind]. rewrite Hnorm. reflexivity.
      * rewrite length_map. unfold n. congruence.
Qed.

End Mixer.

Section MixerScenario.
Import LiveMusicStudio.

(** Scenario B: [track_0] has 100 samples and is heard, [track_1] has 200
    and is muted. The mix has 200 samples per channel; before normalizing,
    sample 50 holds [track_0] alone and sample 150 holds nothing. *)
Lemma mix_length_and_mute_witness :
  let s0 := create 44100 2 in
  let s1 := with_tracks s0
              (dict_set (dict_set (tracks s0) "track_0" (repeat 1 100))
                 "track_1" (repeat 1 200)) in
  let s := mute_track s1 "track_1" in
  exists mono ch,
    mono_sum s = Ok mono /\
    mix s = Ok (Array2 [ch; ch]) /\
    length ch = 200%nat /\
    nth 50 mono 0 = 1 /\
    nth 150 mono 0 = 0.
Proof.
  intros s0 s1 s.
  assert (Hr : registry_ok s) by reflexivity.
  destruct (mix_length_and_mute s Hr) as (_ & _ & _ & Hmix).
  destruct Hmix as (mono & ch & Hm & Hl & Hi & _ & Hx & Hc).
  - exists "track_0"%string, (repeat 1 100). split; [|discriminate].
    left. reflexivity.
  - exists mono, ch. split; [exact Hm|]. split; [exact Hx|].
    split; [exact Hc|]. rewrite !Hi. unfold sum_list, contribution.
    simpl. split; lra.
Defined.

End MixerScenario.

(** ** LiveMusicStudio: the names that are initialized *)

Lemma dict_keys_set_In {V : Type} (d : dict V) (k k' : string) (v : V) :
  In k (dict_keys (dict_set d k' v)) <-> In k (dict_keys d) \/ k = k'.
Proof.
  induction d as [|[k0 v0] d IH]; simpl.
  - intuition.
  - destruct (String.eqb_spec k0 k') as [->|Hne]; simpl.
    + intuition.
    + rewrite IH. intuition.
Qed.

Section Initialized.
Import LiveMusicStudio.

Lemma initialize_tracks_keys (idx : list nat) (s : t) (k : string) :
  In k (dict_keys (tracks (fold_left initialize_track idx s))) <->
  In k (dict_keys (tracks s)) \/ exists i, In i idx /\ k = track_name_of i.
Proof.
  revert s. induction idx as [|i idx IH]; intros s; simpl.
  - split; [auto | intros [H|[i [[] _]]]; exact H].
  - rewrite IH. unfold initialize_track. simpl tracks.
    rewrite dict_keys_set_In. split.
    + intros [[H|H]|[j [Hj Hk]]]; eauto.
    + intros [H|[j [[<-|Hj] Hk]]]; eauto.
Qed.

(** The keys of a new studio are [track_0] ... [track_{n-1}]. *)
Lemma create_initialized (sr n : Z) (k : string) :
  dict_mem (tracks (create sr n)) k = true <->
  exists i, (i < Z.to_nat n)%nat /\ k = track_name_of i.
Proof.
  rewrite dict_mem_In. unfold create, _initialize_tracks, range_len.
  rewrite initialize_tracks_keys. simpl. split.
  - intros [[]|[i [Hi Hk]]]. apply in_seq in Hi. exists i. split; [lia|auto].
  - intros [i [Hi Hk]]. right. exists i. split; [apply in_seq; lia | auto].
Qed.

(** Assignments to keys that are present change neither list of keys. *)
Ltac keep_keys :=
  unfold registry_ok in *; simpl;
  rewrite !dict_keys_set by assumption; auto.

(** A method that succeeds leaves the set of track names as it was. *)
Lemma methods_keep_keys (s s' : t) (k : string) :
  registry_ok s ->
  (exists a, record_track s k a = Ok s') \/
  (exists notes w a, generate_track s k notes w = Ok (s', a)) \/
  (exists e kw, apply_effect s k e kw = Ok s') \/
  (exists v, set_track_volume s k v = Ok s') \/
  (exists v, set_track_pan s k v = Ok s') \/
  s' = mute_track s k \/ s' = unmute_track s k ->
  dict_keys (tracks s') = dict_keys (tracks s) /\ registry_ok s'.
Proof.
  intros Hr H.
  destruct (dict_mem (tracks s) k) eqn:Hk.
  - destruct (proj1 (dict_mem_true_get _ _) Hk) as [audio Ha].
    destruct (registry_params s k Hr Hk) as [p Hp].
    assert (Hpk : dict_mem (track_parameters s) k = true)
      by now rewrite registry_mem.
    destruct H as [[a H]|[[notes [w [a H]]]|[[e [kw H]]|[[v H]|[[v H]|[H|H]]]]]].
    + rewrite record_track_found in H by assumption. injection H as <-.
      split; [simpl; now apply dict_keys_set | now apply with_tracks_registry].
    + destruct notes as [|note notes]; [discriminate|].
      rewrite generate_track_found in H by (assumption || discriminate).
      injection H as <- _.
      split; [simpl; now apply dict_keys_set | now apply with_tracks_registry].
    + rewrite (apply_effect_found s k e kw _ _ Ha Hp) in H.
      destruct (dispatched s e kw audio) as [out|]; [|discriminate].
      injection H as <-. keep_keys.
    + rewrite (set_track_volume_found s k v _ _ Ha Hp) in H.
      injection H as <-. keep_keys.
    + rewrite (set_track_pan_found s k v _ Hk Hp) in H.
      injection H as <-. keep_keys.
    + subst s'. unfold mute_track. rewrite Hp.
      keep_keys.
    + subst s'. unfold unmute_track. rewrite Hp.
      keep_keys.
  - assert (Hpk : dict_mem (track_parameters s) k = false)
      by now rewrite registry_mem.
    destruct H as [[a H]|[[notes [w [a H]]]|[[e [kw H]]|[[v H]|[[v H]|[H|H]]]]]].
    + now rewrite record_track_missing in H.
    + destruct notes as [|note notes]; [discriminate|].
      now rewrite generate_track_missing in H by (assumption || discriminate).
    + now rewrite apply_effect_missing in H.
    + now rewrite set_track_volume_missing in H.
    + now rewrite set_track_pan_missing in H.
    + subst s'. now rewrite (proj1 (mute_track_missing s k Hpk)).
    + subst s'. now rewrite (proj2 (mute_track_missing s k Hpk)).
Qed.

(** Scenario A: one second of a 440 Hz sine at 44100 Hz. *)
Lemma generate_track_scenario_A :
  let s := create 44100 8 in
  exists s' audio,
    generate_track s "track_0" [(440, 1)] "sine" = Ok (s', audio) /\
    dict_get (tracks s') "track_0" = Some audio /\
    Z.of_nat (length audio) = 44100%Z /\
    Forall (fun x => Rabs x <= 0.3) audio.
Proof.
  intros s.
  set (audio := InstrumentSynthesizer.synthesize_note (synthesizer s)
                  440 1 "sine").
  exists (with_tracks s (dict_set (tracks s) "track_0" (audio ++ []))),
         (audio ++ []).
  split.
  { apply (generate_track_found s "track_0" "sine" [(440, 1)]);
      [discriminate | reflexivity]. }
  split; [apply dict_get_set_same|].
  rewrite app_nil_r. unfold audio. split.
  - rewrite synthesize_note_sample_count.
    change (synthesizer s) with (InstrumentSynthesizer.create 44100).
    rewrite (note_samples_exact _ _ 44100);
      [lia | simpl; lia | simpl; lia | exact fl_1|].
    simpl. lra.
  - apply synthesize_note_headroom; [simpl; lra | discriminate].
Qed.

End Initialized.

(** * Further properties of the code *)

(** ** AudioBuffer: writing *)

Lemma lastn_all {A : Type} (k : nat) (l : list A) :
  (length l <= k)%nat -> lastn k l = l.
Proof.
  intros H. unfold lastn. replace (length l - k)%nat with O by lia. reflexivity.
Qed.

Lemma lastn_length {A : Type} (k : nat) (l : list A) :
  length (lastn k l) = Nat.min k (length l).
Proof. unfold lastn. rewrite length_skipn. lia. Qed.

Lemma lastn_app_lastn {A : Type} (k : nat) (l l' : list A) :
  lastn k (lastn k l ++ l') = lastn k (l ++ l').
Proof.
  destruct (Nat.le_gt_cases (length l) k) as [Hle|Hgt].
  - now rewrite (lastn_all k l).
  - unfold lastn at 1 3. rewrite !length_app, lastn_length.
    unfold lastn. rewrite skipn_app, length_skipn.
    replace (Nat.min k (length l) + length l' - k)%nat with (length l') by lia.
    replace (length l + length l' - k)%nat
      with (length l' + (length l - k))%nat by lia.
    rewrite (skipn_app (length l' + (length l - k))).
    rewrite <- skipn_skipn.
    replace (length l' + (length l - k) - length l)%nat
      with (length l' - (length l - (length l - k)))%nat by lia.
    reflexivity.
Qed.

Section AudioBufferWrites.
Import AudioBuffer.

Lemma deque_append_lastn (m : Z) (q : list R) (x : R) :
  (0 <= m)%Z -> (Z.of_nat (length q) <= m)%Z ->
  deque_append m q x = lastn (Z.to_nat m) (q ++ [x]).
Proof.
  intros Hm Hq. unfold deque_append.
  destruct (Z.ltb_spec m (Z.of_nat (length (q ++ [x])))) as [Hov|Hfit].
  - rewrite length_app in Hov. simpl in Hov.
    unfold lastn. rewrite length_app. simpl.
    replace (length q + 1 - Z.to_nat m)%nat with 1%nat by lia.
    destruct (q ++ [x]); reflexivity.
  - rewrite lastn_all; [reflexivity|]. lia.
Qed.

Lemma write_lastn (m : Z) (data q : list R) :
  (0 <= m)%Z -> (Z.of_nat (length q) <= m)%Z ->
  fold_left (deque_append m) data q = lastn (Z.to_nat m) (q ++ data).
Proof.
  intros Hm. revert q. induction data as [|x data IH]; intros q Hq; simpl.
  - rewrite app_nil_r, lastn_all; [reflexivity | lia].
  - rewrite IH, deque_append_lastn by
      (try rewrite deque_append_lastn by assumption;
       try rewrite lastn_length; lia).
    rewrite lastn_app_lastn, <- app_assoc. reflexivity.
Qed.

(** X1. A write keeps the newest samples: the buffer afterwards is the last
    [max_size] samples of what was queued followed by what was written, so
    it never holds more than [max_size] samples. *)
Theorem write_keeps_newest (b : t) (data : list R) :
  (0 <= max_size b)%Z ->
  (Z.of_nat (length (_buffer b)) <= max_size b)%Z ->
  _buffer (write b data) = lastn (Z.to_nat (max_size b)) (_buffer b ++ data) /\
  (Z.of_nat (length (_buffer (write b data))) <= max_size b)%Z /\
  max_size (write b data) = max_size b.
Proof.
  intros Hm Hq.
  assert (E : _buffer (write b data) =
              lastn (Z.to_nat (max_size b)) (_buffer b ++ data))
    by (unfold write; simpl; now apply write_lastn).
  split; [exact E|]. split; [|reflexivity].
  rewrite E, lastn_length. lia.
Qed.

Lemma write_keeps_newest_witness :
  let b := write (create 44100 1 3) [1; 2] in
  _buffer (write b [3; 4; 5]) = [3; 4; 5] /\
  _buffer (write b [3]) = [1; 2; 3] /\
  _buffer (write b [3; 4]) = [2; 3; 4].
Proof.
  intros b.
  assert (Hb : _buffer b = [1; 2]) by reflexivity.
  assert (Hm : (0 <= max_size b)%Z) by (simpl; lia).
  assert (Hq : (Z.of_nat (length (_buffer b)) <= max_size b)%Z)
    by (simpl; lia).
  split; [|split].
  - rewrite (proj1 (write_keeps_newest b [3; 4; 5] Hm Hq)). reflexivity.
  - rewrite (proj1 (write_keeps_newest b [3] Hm Hq)). reflexivity.
  - rewrite (proj1 (write_keeps_newest b [3; 4] Hm Hq)). reflexivity.
Defined.

(** X2. First in, first out: after two writes that fit into an empty buffer,
    reading as many frames as the first write had returns the first write,
    in order, and leaves the second one queued. *)
Theorem write_read_fifo (b : t) (first second : list R) :
  _buffer b = [] ->
  (Z.of_nat (length first + length second) <= max_size b)%Z ->
  exists b',
    read (write (write b first) second) (Z.of_nat (length first))
      = Ok (first, b') /\
    _buffer b' = second /\
    read b' (Z.of_nat (length second)) = Ok (second, clear b').
Proof.
  intros He Hfit.
  assert (H1 : _buffer (write b first) = first).
  { rewrite write_fits; rewrite He; [reflexivity | simpl; lia]. }
  assert (H2 : _buffer (write (write b first) second) = first ++ second).
  { rewrite write_fits; rewrite H1; [reflexivity|].
    change (max_size (write b first)) with (max_size b). lia. }
  assert (Hf : firstn (length first) (first ++ second) = first).
  { rewrite firstn_app, Nat.sub_diag, firstn_all. simpl. apply app_nil_r. }
  assert (Hs : skipn (length first) (first ++ second) = second).
  { rewrite skipn_app, Nat.sub_diag, skipn_all. reflexivity. }
  exists (with_buffer (write (write b first) second) second).
  split; [|split].
  - rewrite read_enough by (rewrite H2, length_app; lia).
    now rewrite H2, Nat2Z.id, Hf, Hs.
  - reflexivity.
  - rewrite read_enough by (simpl; lia).
    simpl _buffer. now rewrite Nat2Z.id, firstn_all, skipn_all.
Qed.

Lemma write_read_fifo_witness :
  exists b',
    read (write (write (create 44100 1 44100) [1; 2]) [3]) 2 = Ok ([1; 2], b') /\
    _buffer b' = [3] /\
    read b' 1 = Ok ([3], clear b').
Proof.
  apply (write_read_fifo (create 44100 1 44100) [1; 2] [3]).
  - reflexivity.
  - simpl. lia.
Defined.

(** X3. A cleared buffer holds nothing, whatever it held: every read of a
    positive number of frames then returns that many zeros and finds the
    buffer still empty, and a write that fits is read back whole. *)
Theorem clear_then_read (b : t) (frames : Z) (data : list R) :
  (0 < frames)%Z ->
  (Z.of_nat (length data) <= max_size b)%Z ->
  read (clear b) frames = Ok (repeat 0 (Z.to_nat frames), clear b) /\
  read (write (clear b) data) (Z.of_nat (length data)) = Ok (data, clear b).
Proof.
  intros Hf Hd. split.
  - apply read_short. simpl. lia.
  - assert (H : _buffer (write (clear b) data) = data)
      by (rewrite write_fits; simpl; [reflexivity | lia]).
    rewrite read_enough by (rewrite H; lia).
    rewrite H, Nat2Z.id, firstn_all, skipn_all. reflexivity.
Qed.

Lemma clear_then_read_witness :
  let b := write (create 44100 1 4) [1; 2; 3] in
  read (clear b) 2 = Ok (repeat 0 (Z.to_nat 2), clear b) /\
  read (write (clear b) [7]) (Z.of_nat (length [7])) = Ok ([7], clear b).
Proof.
  intros b. apply (clear_then_read b 2 [7]).
  - lia.
  - simpl. lia.
Defined.

End AudioBufferWrites.

(** ** InstrumentSynthesizer: the shape of a note *)

Section NoteShape.
Import InstrumentSynthesizer.

Lemma _envelope_adsr_head (self : t) (n : nat) (duration : R) :
  (0 < n)%nat -> nth 0 (_envelope_adsr self n duration) 0 = 0.
Proof.
  intros Hn. unfold _envelope_adsr, slice_to.
  rewrite nth_firstn. destruct (Nat.ltb_spec 0 n) as [_|]; [|lia].
  rewrite app_nth1 by (rewrite np_linspace_length; lia).
  rewrite np_linspace_nth by lia. simpl INR. lra.
Qed.

(** X4. Every note that has a sample starts at zero: the attack ramp of the
    envelope begins at 0, whatever the waveform, frequency and sample
    rate. *)
Theorem synthesize_note_starts_at_zero (self : t) (frequency duration : R)
        (waveform : string) :
  (1 <= note_samples self duration)%Z ->
  exists rest,
    synthesize_note self frequency duration waveform = 0 :: rest.
Proof.
  intros Hn.
  pose proof (synthesize_note_sample_count self frequency duration waveform)
    as Hlen.
  pose proof (synthesize_note_nth self frequency duration waveform 0) as H0.
  simpl in H0. rewrite _envelope_adsr_head in H0 by lia.
  destruct (synthesize_note self frequency duration waveform) as [|x rest].
  - simpl in Hlen. lia.
  - exists rest. f_equal. simpl in H0. rewrite H0 by lia. lra.
Qed.

Lemma synthesize_note_starts_at_zero_witness :
  exists rest, synthesize_note (create 44100) 440 0.5 "square" = 0 :: rest.
Proof.
  apply synthesize_note_starts_at_zero.
  rewrite (note_samples_exact _ _ 22050);
    [lia | simpl; lia | simpl; lia | exact fl_0_5|].
  simpl. lra.
Defined.




(** X6. A waveform name that is none of the four known ones gives the same
    note as "sine". *)
Theorem synthesize_note_unknown_waveform (self : t) (frequency duration : R)
        (waveform : string) :
  waveform <> "sine"%string -> waveform <> "square"%string ->
  waveform <> "sawtooth"%string -> waveform <> "triangle"%string ->
  synthesize_note self frequency duration waveform =
  synthesize_note self frequency duration "sine".
Proof.
  intros H1 H2 H3 H4. unfold synthesize_note.
  rewrite !length_map. f_equal. f_equal.
  apply map_ext. intros x. unfold waveform_at.
  destruct (String.eqb_spec waveform "sine"); [contradiction|].
  destruct (String.eqb_spec waveform "square"); [contradiction|].
  destruct (String.eqb_spec waveform "sawtooth"); [contradiction|].
  destruct (String.eqb_spec waveform "triangle"); [contradiction|].
  reflexivity.
Qed.

Lemma synthesize_note_unknown_waveform_witness :
  synthesize_note (create 44100) 440 0.5 "organ" =
  synthesize_note (create 44100) 440 0.5 "sine".
Proof.
  apply synthesize_note_unknown_waveform; discriminate.
Defined.

(** X7. With the parameters every synthesizer is built with, a sine,
    square or sawtooth note, or one of an unknown waveform, stays within
    the 0.3 headroom, at every sample rate, frequency and duration. *)
Theorem created_note_within_headroom (sr : Z) (frequency duration : R)
        (waveform : string) :
  waveform <> "triangle"%string ->
  Forall (fun x => -0.3 <= x <= 0.3)
         (synthesize_note (create sr) frequency duration waveform).
Proof.
  intros Hw.
  eapply Forall_impl;
    [|apply (synthesize_note_headroom (create sr) frequency duration waveform);
      [simpl; lra | exact Hw]].
  intros x Hx. simpl in Hx. unfold Rabs in Hx.
  destruct (Rcase_abs x); lra.
Qed.

Lemma created_note_within_headroom_witness :
  Forall (fun x => -0.3 <= x <= 0.3)
         (synthesize_note (create 22050) 261.63 0.5 "sawtooth").
Proof.
  apply created_note_within_headroom. discriminate.
Defined.

(** X8. A triangle note is never negative and can reach four times the
    headroom: each of its samples lies between 0 and 1.2. *)
Theorem triangle_note_range (self : t) (frequency duration : R) :
  0 <= sustain (parameters self) <= 1 ->
  Forall (fun x => 0 <= x <= 1.2)
         (synthesize_note self frequency duration "triangle").
Proof.
  intros Hs. unfold synthesize_note. apply Forall_map.
  eapply zip_with_Forall with (P := fun s => 0 < s <= 4)
                              (Q := fun e => 0 <= e <= 1).
  - intros s e Hs' He. simpl. nra.
  - apply Forall_map, Forall_forall. intros x _. apply triangle_range.
  - now apply _envelope_adsr_range.
Qed.

Lemma triangle_note_range_witness :
  Forall (fun x => 0 <= x <= 1.2)
         (synthesize_note (create 44100) 50 1 "triangle").
Proof.
  apply triangle_note_range. simpl. lra.
Defined.

End NoteShape.

(** ** EffectsProcessor: what each effect does to a sample *)

Lemma shift_mix_nth (audio : list R) (k i : nat) (gain : R) :
  (i < length audio)%nat ->
  nth i (zip_with Rplus audio
           (map (fun d => gain * d)
              (slice_to (length audio) (repeat 0 k ++ audio)))) 0
  = if (i <? k)%nat then nth i audio 0
    else nth i audio 0 + gain * nth (i - k) audio 0.
Proof.
  intros Hi. unfold slice_to.
  assert (Hl : length (firstn (length audio) (repeat 0 k ++ audio))
               = length audio)
    by (rewrite length_firstn, length_app, repeat_length; lia).
  rewrite (zip_with_nth _ _ _ _ 0 0) by (rewrite ?length_map; lia).
  rewrite (map_nth_lt _ _ _ _ 0) by lia.
  rewrite nth_firstn. destruct (Nat.ltb_spec i (length audio)) as [_|]; [|lia].
  destruct (Nat.ltb_spec i k) as [Hlt|Hge].
  - rewrite app_nth1 by (rewrite repeat_length; lia).
    rewrite nth_repeat. lra.
  - rewrite app_nth2 by (rewrite repeat_length; lia).
    now rewrite repeat_length.
Qed.

Lemma shift_mix_identity (audio zs : list R) (gain : R) :
  (length audio <= length zs)%nat ->
  Forall (fun z => gain * z = 0) zs ->
  zip_with Rplus audio (map (fun d => gain * d) zs) = audio.
Proof.
  revert zs. induction audio as [|a audio IH]; intros zs Hlen Hz; [reflexivity|].
  destruct zs as [|z zs]; simpl in *; [lia|].
  inversion Hz as [|? ? Hz0 Hz']; subst.
  rewrite IH by (assumption || lia). f_equal. lra.
Qed.

Lemma is_peak_unique (a : list R) (m m' : R) :
  is_peak a m -> is_peak a m' -> m = m'.
Proof.
  intros [Hall Hex] [Hall' Hex'].
  apply Exists_exists in Hex. destruct Hex as [x [Hx Ex]].
  apply Exists_exists in Hex'. destruct Hex' as [y [Hy Ey]].
  rewrite Forall_forall in Hall, Hall'.
  pose proof (Hall y Hy). pose proof (Hall' x Hx). lra.
Qed.

Section EffectsSamples.
Import EffectsProcessor.

(** X9. The delay is a single tap: with [k = int(delay_time * sample_rate)]
    not negative, the product being the binary64 one, output sample [i] is
    the input sample [i] for [i < k], and the input sample [i] plus
    [feedback] times the input sample [i - k] from there on; no output is
    fed back. *)
Theorem add_delay_single_tap (self : t) (audio : list R)
        (delay_time feedback : R) :
  (0 <= delay_samples_of self delay_time)%Z ->
  let k := Z.to_nat (delay_samples_of self delay_time) in
  exists out,
    add_delay self audio delay_time feedback = Ok out /\
    length out = length audio /\
    forall i, (i < length audio)%nat ->
      nth i out 0 =
        if (i <? k)%nat then nth i audio 0
        else nth i audio 0 + feedback * nth (i - k) audio 0.
Proof.
  intros Hd k. unfold add_delay.
  rewrite np_zeros_ok by exact Hd.
  cbv beta iota delta [bind]. fold k.
  eexists. split; [reflexivity|]. split; [apply shift_mix_length|].
  intros i Hi. now apply shift_mix_nth.
Qed.

Lemma add_delay_single_tap_witness :
  exists out,
    add_delay (create 4) [1; 2; 3] 0.5 0.3 = Ok out /\
    length out = 3%nat /\
    forall i, (i < 3)%nat ->
      nth i out 0 =
        if (i <? Z.to_nat (delay_samples_of (create 4) 0.5))%nat
        then nth i [1; 2; 3] 0
        else nth i [1; 2; 3] 0
             + 0.3 * nth (i - Z.to_nat (delay_samples_of (create 4) 0.5))
                         [1; 2; 3] 0.
Proof.
  apply (add_delay_single_tap (create 4) [1; 2; 3] 0.5 0.3).
  apply (delay_samples_of_nonneg (create 4) 0.5); [simpl; lia | lra].
Defined.

(** X10. The reverb is the same single tap at a fixed 50 ms: with a sample
    rate that is not negative and [k = int(0.05 * sample_rate)], output
    sample [i] is the input sample [i] for [i < k] and the input sample [i]
    plus [decay] times the input sample [i - k] from there on. *)
Theorem add_reverb_single_tap (self : t) (audio : list R) (decay : R) :
  (0 <= sample_rate self)%Z ->
  let k := Z.to_nat (py_int (0.05 * IZR (sample_rate self))) in
  exists out,
    add_reverb self audio decay = Ok out /\
    length out = length audio /\
    forall i, (i < length audio)%nat ->
      nth i out 0 =
        if (i <? k)%nat then nth i audio 0
        else nth i audio 0 + decay * nth (i - k) audio 0.
Proof.
  intros Hsr k. unfold add_reverb.
  rewrite np_zeros_ok
    by (apply py_int_nonneg; apply IZR_le in Hsr; lra).
  cbv beta iota delta [bind]. fold k.
  eexists. split; [reflexivity|]. split; [apply shift_mix_length|].
  intros i Hi. now apply shift_mix_nth.
Qed.

Lemma add_reverb_single_tap_witness :
  exists out,
    add_reverb (create 40) [1; 2; 3] 0.5 = Ok out /\
    length out = 3%nat /\
    forall i, (i < 3)%nat ->
      nth i out 0 =
        if (i <? Z.to_nat (py_int (0.05 * IZR (sample_rate (create 40)))))%nat
        then nth i [1; 2; 3] 0
        else nth i [1; 2; 3] 0
             + 0.5 * nth (i - Z.to_nat (py_int (0.05 * IZR (sample_rate (create 40)))))
                         [1; 2; 3] 0.
Proof.
  apply (add_reverb_single_tap (create 40) [1; 2; 3] 0.5).
  simpl. lia.
Defined.

(** X11. A delay at least as long as the signal, or a feedback of zero,
    returns the signal unchanged. *)
Theorem add_delay_unchanged (self : t) (audio : list R)
        (delay_time feedback : R) :
  (0 <= delay_samples_of self delay_time)%Z ->
  (length audio <= Z.to_nat (delay_samples_of self delay_time))%nat
  \/ feedback = 0 ->
  add_delay self audio delay_time feedback = Ok audio.
Proof.
  intros Hd Hcase. unfold add_delay.
  rewrite np_zeros_ok by exact Hd.
  cbv beta iota delta [bind]. f_equal.
  set (k := Z.to_nat (delay_samples_of self delay_time)).
  apply shift_mix_identity.
  - unfold slice_to. rewrite length_firstn, length_app, repeat_length. lia.
  - unfold slice_to. destruct Hcase as [Hlong| ->].
    + rewrite firstn_app, repeat_length.
      replace (length audio - k)%nat with O by (unfold k; lia).
      simpl. rewrite app_nil_r. apply firstn_Forall.
      apply Forall_forall. intros z Hz. apply repeat_spec in Hz. subst. lra.
    + apply Forall_forall. intros z _. lra.
Qed.

Lemma add_delay_unchanged_witness :
  add_delay (create 44100) [1; 2; 3] 0.25 0.3 = Ok [1; 2; 3] /\
  add_delay (create 44100) [1; 2; 3] 0 0 = Ok [1; 2; 3].
Proof.
  split.
  - apply add_delay_unchanged;
      [apply delay_samples_of_nonneg; [simpl; lia | lra]|].
    left. rewrite (delay_samples_of_exact _ _ 11025)
      by (exact fl_0_25 || (simpl; lia) || (simpl; lra)).
    simpl length. lia.
  - apply add_delay_unchanged;
      [apply delay_samples_of_nonneg; [simpl; lia | lra]|].
    now right.
Defined.

(** X12. Compression with a ratio of 1 or more never makes a sample louder:
    a sample whose magnitude exceeds the threshold is divided by the ratio,
    every other sample is kept as it is. *)
Theorem add_compression_attenuates (self : t) (audio : list R)
        (threshold ratio : R) :
  1 <= ratio ->
  exists out,
    add_compression self audio threshold ratio = Ok out /\
    length out = length audio /\
    forall i, (i < length audio)%nat ->
      let a := nth i audio 0 in
      let o := nth i out 0 in
      Rabs o <= Rabs a /\
      (Rabs a <= threshold -> o = a) /\
      (threshold < Rabs a -> o = a / ratio).
Proof.
  intros Hr. unfold add_compression.
  destruct (Req_dec_T ratio 0) as [E|_]; [exfalso; lra|].
  eexists. split; [reflexivity|]. split; [apply length_map|].
  intros i Hi. cbv zeta.
  rewrite (map_nth_lt _ _ _ _ 0) by assumption.
  set (a := nth i audio 0).
  assert (Hinv : 0 < / ratio <= 1).
  { split; [apply Rinv_0_lt_compat; lra|].
    rewrite <- Rinv_1. apply Rinv_le_contravar; lra. }
  destruct (Rlt_dec threshold (Rabs a)) as [Hgt|Hle].
  - split; [|split].
    + unfold Rdiv. rewrite Rabs_mult, Rmult_1_l, (Rabs_pos_eq (/ ratio)) by lra.
      pose proof (Rabs_pos a). nra.
    + intros H. exfalso. lra.
    + intros _. unfold Rdiv. lra.
  - split; [lra|]. split; [reflexivity|]. intros H. exfalso. lra.
Qed.

Lemma add_compression_attenuates_witness :
  exists out,
    add_compression (create 44100) [0.9; -0.2] 0.6 4 = Ok out /\
    length out = 2%nat /\
    forall i, (i < 2)%nat ->
      let a := nth i [0.9; -0.2] 0 in
      let o := nth i out 0 in
      Rabs o <= Rabs a /\
      (Rabs a <= 0.6 -> o = a) /\
      (0.6 < Rabs a -> o = a / 4).
Proof.
  apply (add_compression_attenuates (create 44100) [0.9; -0.2] 0.6 4). lra.
Defined.

(** X13. Normalizing twice to the same target that is not negative gives
    what normalizing once gives. *)
Theorem normalize_idempotent (self : t) (audio : list R) (target : R) :
  audio <> [] -> 0 <= target ->
  exists out,
    normalize self audio target = Ok out /\
    normalize self out target = Ok out.
Proof.
  intros Hne Ht. destruct audio as [|x l]; [now contradiction Hne|].
  destruct (peak_abs_is_peak x l) as [m [Hp Hm]].
  unfold normalize at 1. rewrite Hp. cbv beta iota delta [bind].
  destruct (Rlt_dec 0 m) as [Hpos|Hnpos].
  - eexists. split; [reflexivity|].
    set (out := map (fun a => a * (target / m)) (x :: l)).
    assert (Hout : is_peak out target).
    { replace target with (m * Rabs (target / m)).
      - unfold out. now apply is_peak_scale.
      - unfold Rdiv. rewrite Rabs_mult, Rabs_inv, (Rabs_pos_eq m),
          (Rabs_pos_eq target) by lra. field. lra. }
    destruct (peak_abs_is_peak (x * (target / m))
                (map (fun a => a * (target / m)) l)) as [m' [Hp' Hm']].
    change (x * (target / m) :: map (fun a => a * (target / m)) l)
      with out in Hp', Hm'.
    rewrite (is_peak_unique _ _ _ Hm' Hout) in Hp'.
    unfold normalize. rewrite Hp'. cbv beta iota delta [bind].
    destruct (Rlt_dec 0 target) as [Htp|_]; [|reflexivity].
    f_equal. rewrite <- (map_id out) at 2. apply map_ext.
    intros a. field. lra.
  - exists (x :: l). split; [reflexivity|].
    unfold normalize. rewrite Hp. cbv beta iota delta [bind].
    destruct (Rlt_dec 0 m); [contradiction | reflexivity].
Qed.

Lemma normalize_idempotent_witness :
  exists out,
    normalize (create 44100) [0.5; -2] 0.9 = Ok out /\
    normalize (create 44100) out 0.9 = Ok out.
Proof.
  apply normalize_idempotent; [discriminate | lra].
Defined.

End EffectsSamples.

(** ** Dictionaries: assignment *)

Section DictAssign.
Context {V : Type}.
Implicit Types (d : dict V) (k : string) (v : V).

Lemma dict_set_fresh d k v :
  dict_get d k = None -> dict_set d k v = d ++ [(k, v)].
Proof.
  induction d as [|[k' v'] d IH]; simpl; [reflexivity|].
  destruct (String.eqb k' k); [discriminate|].
  intros H. now rewrite IH.
Qed.

Lemma dict_set_same_value d k v :
  dict_get d k = Some v -> dict_set d k v = d.
Proof.
  induction d as [|[k' v'] d IH]; simpl; [discriminate|].
  destruct (String.eqb_spec k' k) as [->|Hne].
  - now intros [= ->].
  - intros H. now rewrite IH.
Qed.

Lemma dict_set_set d k v v' :
  dict_get d k <> None ->
  dict_set (dict_set d k v) k v' = dict_set d k v'.
Proof.
  induction d as [|[k0 v0] d IH]; simpl; [congruence|].
  destruct (String.eqb k0 k) eqn:E; simpl; rewrite E; [reflexivity|].
  intros H. now rewrite IH.
Qed.

Lemma dict_get_In d k v : dict_get d k = Some v -> In (k, v) d.
Proof.
  induction d as [|[k' v'] d IH]; simpl; [discriminate|].
  destruct (String.eqb_spec k' k) as [->|Hne].
  - intros [= ->]. now left.
  - intros H. right. auto.
Qed.

End DictAssign.

(** ** LiveMusicStudio: a new studio *)

Lemma track_name_of_inj (i j : nat) :
  track_name_of i = track_name_of j -> i = j.
Proof.
  unfold track_name_of. simpl. intros H. injection H as H.
  apply (f_equal NilEmpty.uint_of_string) in H.
  rewrite !NilEmpty.usu in H. injection H as H.
  now apply DecimalNat.Unsigned.to_uint_inj.
Qed.

Lemma dict_get_names_fresh {V : Type} (f : nat -> V) (a : nat) :
  dict_get (map (fun i => (track_name_of i, f i)) (seq 0 a)) (track_name_of a)
  = None.
Proof.
  destruct (dict_get _ _) as [v|] eqn:E; [|reflexivity].
  apply dict_get_In, in_map_iff in E. destruct E as [i [Hi Hin]].
  apply in_seq in Hin. apply (f_equal fst) in Hi. cbn [fst] in Hi.
  apply track_name_of_inj in Hi. lia.
Qed.

Section NewStudio.
Import LiveMusicStudio.

Lemma initialize_tracks_closed (len a : nat) (s : t) :
  tracks s = map (fun i => (track_name_of i, @nil R)) (seq 0 a) ->
  track_buffers s = map (fun i => (track_name_of i, AudioBuffer.create (sample_rate s) 1 44100)) (seq 0 a) ->
  track_parameters s = map (fun i => (track_name_of i, mk_params (track_name_of i) false 1 0 [])) (seq 0 a) ->
  let s' := fold_left initialize_track (seq a len) s in
  tracks s' = map (fun i => (track_name_of i, @nil R)) (seq 0 (a + len)) /\
  track_buffers s' = map (fun i => (track_name_of i, AudioBuffer.create (sample_rate s) 1 44100)) (seq 0 (a + len)) /\
  track_parameters s' = map (fun i => (track_name_of i, mk_params (track_name_of i) false 1 0 [])) (seq 0 (a + len)) /\
  sample_rate s' = sample_rate s /\ master_volume s' = master_volume s /\
  effects_processor s' = effects_processor s.
Proof.
  revert a s. induction len as [|len IH]; intros a s Ht Hb Hp; simpl.
  - rewrite Nat.add_0_r. tauto.
  - replace (a + S len)%nat with (S a + len)%nat by lia.
    destruct (IH (S a) (initialize_track s a)) as (H1 & H2 & H3 & H4 & H5 & H6).
    + rewrite seq_S, map_app. unfold initialize_track. simpl. rewrite Ht.
      rewrite dict_set_fresh by apply (dict_get_names_fresh (fun _ => [])).
      reflexivity.
    + rewrite seq_S, map_app. unfold initialize_track. simpl. rewrite Hb.
      rewrite dict_set_fresh
        by apply (dict_get_names_fresh
                    (fun _ => AudioBuffer.create (sample_rate s) 1 44100)).
      reflexivity.
    + rewrite seq_S, map_app. unfold initialize_track. simpl. rewrite Hp.
      rewrite dict_set_fresh
        by apply (dict_get_names_fresh
                    (fun i => mk_params (track_name_of i) false 1 0 [])).
      reflexivity.
    + change (sample_rate (initialize_track s a)) with (sample_rate s) in *.
      change (master_volume (initialize_track s a))
        with (master_volume s) in *.
      change (effects_processor (initialize_track s a))
        with (effects_processor s) in *.
      tauto.
Qed.

Lemma create_closed (sr n : Z) :
  tracks (create sr n) = map (fun i => (track_name_of i, @nil R)) (seq 0 (Z.to_nat n)) /\
  track_buffers (create sr n) = map (fun i => (track_name_of i, AudioBuffer.create sr 1 44100)) (seq 0 (Z.to_nat n)) /\
  track_parameters (create sr n) = map (fun i => (track_name_of i, mk_params (track_name_of i) false 1 0 [])) (seq 0 (Z.to_nat n)) /\
  master_volume (create sr n) = 1.
Proof.
  unfold create, _initialize_tracks, range_len.
  set (s0 := mk _ _ _ _ _ _ _ _ _ _ _ _).
  destruct (initialize_tracks_closed (Z.to_nat n) 0 s0)
    as (H1 & H2 & H3 & _ & H5 & _); try reflexivity.
  simpl in H1, H2, H3. simpl num_tracks. auto.
Qed.

(** X14. A new studio has one track for each index below [num_tracks] (none
    when it is negative), named [track_0], [track_1], ... in that order, and
    each starts with no samples, an empty buffer of 44100 samples, and the
    parameters unmuted, volume 1, pan 0, no effect. *)
Theorem create_tracks (sr n : Z) :
  let indices := seq 0 (Z.to_nat n) in
  tracks (create sr n) = map (fun i => (track_name_of i, [])) indices /\
  track_buffers (create sr n) =
    map (fun i => (track_name_of i, AudioBuffer.create sr 1 44100)) indices /\
  track_parameters (create sr n) =
    map (fun i => (track_name_of i, mk_params (track_name_of i) false 1 0 []))
        indices /\
  NoDup (dict_keys (tracks (create sr n))) /\
  length (tracks (create sr n)) = Z.to_nat n.
Proof.
  intros indices. destruct (create_closed sr n) as (H1 & H2 & H3 & _).
  split; [exact H1|]. split; [exact H2|]. split; [exact H3|].
  rewrite H1. unfold dict_keys. rewrite map_map, length_map, length_seq.
  split; [|reflexivity]. simpl.
  apply Finite.Injective_map_NoDup; [|apply seq_NoDup].
  intros i j. apply track_name_of_inj.
Qed.

(** X15. The mix of a new studio is the empty array, whatever its sample
    rate and number of tracks. *)
Theorem mix_new_studio (sr n : Z) : mix (create sr n) = Ok (Array1 []).
Proof.
  unfold mix.
  replace (max_track_len (create sr n)) with O; [reflexivity|].
  unfold max_track_len, dict_values.
  destruct (create_closed sr n) as (-> & _).
  rewrite !map_map. simpl.
  induction (seq 0 (Z.to_nat n)) as [|i l IH]; simpl; [reflexivity|].
  now rewrite <- IH.
Qed.

End NewStudio.

(** ** LiveMusicStudio: recording and generating *)

Section Recording.
Import LiveMusicStudio.

(** X16. Recording on a known track is read back as recorded: the track
    holds the new samples, every other track and every parameter is as
    before, and a second recording replaces the first outright. *)
Theorem record_track_read_back (s : t) (k : string) (a b : list R) :
  dict_mem (tracks s) k = true ->
  exists s1 s2,
    record_track s k a = Ok s1 /\
    dict_get (tracks s1) k = Some a /\
    (forall k', k <> k' -> dict_get (tracks s1) k' = dict_get (tracks s) k') /\
    dict_keys (tracks s1) = dict_keys (tracks s) /\
    track_parameters s1 = track_parameters s /\
    record_track s1 k b = Ok s2 /\
    record_track s k b = Ok s2.
Proof.
  intros Hk.
  exists (with_tracks s (dict_set (tracks s) k a)),
         (with_tracks s (dict_set (tracks s) k b)).
  split; [now apply record_track_found|].
  split; [simpl; apply dict_get_set_same|].
  split; [intros k' Hne; simpl; now apply dict_get_set_other|].
  split; [simpl; now apply dict_keys_set|].
  split; [reflexivity|].
  split; [|now apply record_track_found].
  rewrite record_track_found by (simpl; now rewrite dict_mem_set).
  unfold with_tracks. simpl. rewrite dict_set_set; [reflexivity|].
  apply dict_mem_true_get in Hk. destruct Hk as [v ->]. discriminate.
Qed.

Lemma record_track_read_back_witness :
  exists s1 s2,
    record_track (create 44100 2) "track_1" [1; 2] = Ok s1 /\
    dict_get (tracks s1) "track_1" = Some [1; 2] /\
    (forall k', "track_1"%string <> k' ->
       dict_get (tracks s1) k' = dict_get (tracks (create 44100 2)) k') /\
    dict_keys (tracks s1) = dict_keys (tracks (create 44100 2)) /\
    track_parameters s1 = track_parameters (create 44100 2) /\
    record_track s1 "track_1" [3] = Ok s2 /\
    record_track (create 44100 2) "track_1" [3] = Ok s2.
Proof.
  apply (record_track_read_back (create 44100 2) "track_1" [1; 2] [3]).
  reflexivity.
Defined.

(** X17. A generated track holds the notes one after the other: its length
    is the sum of [int(sample_rate * duration)] over the notes, each product
    being the binary64 one, and the audio returned is the audio stored. *)
Theorem generate_track_length (s : t) (k waveform : string)
        (notes : list (R * R)) :
  notes <> [] -> dict_mem (tracks s) k = true ->
  exists s' audio,
    generate_track s k notes waveform = Ok (s', audio) /\
    dict_get (tracks s') k = Some audio /\
    length audio =
      list_sum
        (map (fun note =>
                Z.to_nat
                  (InstrumentSynthesizer.note_samples (synthesizer s)
                     (snd note)))
             notes).
Proof.
  intros Hn Hk.
  rewrite generate_track_found by assumption.
  eexists. eexists. split; [reflexivity|].
  split; [simpl; apply dict_get_set_same|].
  rewrite length_concat, map_map. f_equal. apply map_ext.
  intros [freq duration]. simpl. apply synthesize_note_sample_count.
Qed.

Lemma generate_track_length_witness :
  exists s' audio,
    generate_track (create 44100 8) "track_0" [(440, 0.5); (880, 0.5)] "sine"
      = Ok (s', audio) /\
    dict_get (tracks s') "track_0" = Some audio /\
    length audio =
      list_sum
        (map (fun note =>
                Z.to_nat
                  (InstrumentSynthesizer.note_samples
                     (synthesizer (create 44100 8)) (snd note)))
             [(440, 0.5); (880, 0.5)]).
Proof.
  apply generate_track_length; [discriminate | reflexivity].
Defined.

End Recording.

(** ** LiveMusicStudio: more on effects *)

Section MoreEffects.
Import LiveMusicStudio.

(** X18. An effect kind that is none of reverb, delay and compression
    changes no sample, raises nothing, and is still recorded with its
    arguments in the effects of the track. *)
Theorem apply_effect_unknown_kind (s : t) (k e : string) (kw : kwargs)
        (audio : list R) :
  registry_ok s ->
  dict_get (tracks s) k = Some audio ->
  e <> "reverb"%string -> e <> "delay"%string -> e <> "compression"%string ->
  exists s' p',
    apply_effect s k e kw = Ok s' /\
    tracks s' = tracks s /\
    dict_get (track_parameters s') k = Some p' /\
    dict_get (effects p') e = Some kw.
Proof.
  intros Hr Ha H1 H2 H3.
  assert (Hk : dict_mem (tracks s) k = true)
    by (apply dict_mem_true_get; eauto).
  destruct (registry_params s k Hr Hk) as [p Hp].
  rewrite (apply_effect_found s k e kw _ _ Ha Hp).
  unfold dispatched.
  destruct (String.eqb_spec e "reverb"); [contradiction|].
  destruct (String.eqb_spec e "delay"); [contradiction|].
  destruct (String.eqb_spec e "compression"); [contradiction|].
  cbv beta iota delta [bind].
  eexists. eexists. split; [reflexivity|].
  split; [simpl; now rewrite dict_set_same_value|].
  split; [simpl; apply dict_get_set_same|].
  simpl. apply dict_get_set_same.
Qed.

Lemma apply_effect_unknown_kind_witness :
  let s := with_tracks (create 44100 2)
             (dict_set (tracks (create 44100 2)) "track_0" [1; 0.5]) in
  exists s' p',
    apply_effect s "track_0" "chorus" [("depth"%string, 0.4)] = Ok s' /\
    tracks s' = tracks s /\
    dict_get (track_parameters s') "track_0" = Some p' /\
    dict_get (effects p') "chorus" = Some [("depth"%string, 0.4)].
Proof.
  intros s.
  apply (apply_effect_unknown_kind s "track_0" "chorus" _ [1; 0.5]);
    (reflexivity || discriminate).
Defined.

(** X19. The [ratio] a caller gives to the compression is not used: the
    track is compressed with the ratio 4 whatever it is, zero included, and
    the caller's arguments are what is recorded. *)
Theorem apply_effect_compression_ignores_ratio (s : t) (k : string)
        (audio : list R) (threshold ratio : R) :
  registry_ok s ->
  dict_get (tracks s) k = Some audio ->
  let kw := [("threshold"%string, threshold); ("ratio"%string, ratio)] in
  exists out s' p',
    EffectsProcessor.add_compression (effects_processor s) audio threshold 4
      = Ok out /\
    apply_effect s k "compression" kw = Ok s' /\
    dict_get (tracks s') k = Some out /\
    dict_get (track_parameters s') k = Some p' /\
    dict_get (effects p') "compression" = Some kw.
Proof.
  intros Hr Ha kw.
  assert (Hk : dict_mem (tracks s) k = true)
    by (apply dict_mem_true_get; eauto).
  destruct (registry_params s k Hr Hk) as [p Hp].
  destruct (add_compression_length (effects_processor s) audio threshold 4)
    as [out [Eo _]]; [lra|].
  exists out.
  rewrite (apply_effect_found s k "compression" kw _ _ Ha Hp).
  assert (Hd : dispatched s "compression" kw audio = Ok out)
    by (unfold dispatched, kwargs_get; simpl; exact Eo).
  rewrite Hd. cbv beta iota delta [bind].
  eexists. eexists. split; [exact Eo|]. split; [reflexivity|].
  split; [simpl; apply dict_get_set_same|].
  split; [simpl; apply dict_get_set_same|].
  simpl. apply dict_get_set_same.
Qed.

Lemma apply_effect_compression_ignores_ratio_witness :
  let s := with_tracks (create 44100 2)
             (dict_set (tracks (create 44100 2)) "track_0" [1; 0.5]) in
  let kw := [("threshold"%string, 0.6); ("ratio"%string, 0)] in
  exists out s' p',
    EffectsProcessor.add_compression (effects_processor s) [1; 0.5] 0.6 4
      = Ok out /\
    apply_effect s "track_0" "compression" kw = Ok s' /\
    dict_get (tracks s') "track_0" = Some out /\
    dict_get (track_parameters s') "track_0" = Some p' /\
    dict_get (effects p') "compression" = Some kw.
Proof.
  intros s.
  apply (apply_effect_compression_ignores_ratio s "track_0" [1; 0.5] 0.6 0);
    reflexivity.
Defined.

(** X20. Applying the same kind of effect twice changes the samples twice
    but records the arguments of the second call only; effects of another
    kind recorded before stay recorded. *)
Theorem apply_effect_twice (s : t) (k e : string) (kw1 kw2 : kwargs)
        (audio a1 a2 : list R) (p : track_params) :
  dict_get (tracks s) k = Some audio ->
  dict_get (track_parameters s) k = Some p ->
  dispatched s e kw1 audio = Ok a1 ->
  dispatched s e kw2 a1 = Ok a2 ->
  exists s1 s2 p2,
    apply_effect s k e kw1 = Ok s1 /\
    apply_effect s1 k e kw2 = Ok s2 /\
    dict_get (tracks s2) k = Some a2 /\
    dict_get (track_parameters s2) k = Some p2 /\
    dict_get (effects p2) e = Some kw2 /\
    forall e', e <> e' ->
      dict_get (effects p2) e' = dict_get (effects p) e'.
Proof.
  intros Ha Hp H1 H2.
  set (p1 := set_effects p (dict_set (effects p) e kw1)).
  set (s1 := with_track_parameters
               (with_tracks s (dict_set (tracks s) k a1))
               (dict_set (track_parameters s) k p1)).
  assert (E1 : apply_effect s k e kw1 = Ok s1).
  { rewrite (apply_effect_found s k e kw1 _ _ Ha Hp), H1. reflexivity. }
  assert (Ha1 : dict_get (tracks s1) k = Some a1)
    by (unfold s1; simpl; apply dict_get_set_same).
  assert (Hp1 : dict_get (track_parameters s1) k = Some p1)
    by (unfold s1; simpl; apply dict_get_set_same).
  exists s1. eexists. eexists.
  split; [exact E1|].
  split.
  { rewrite (apply_effect_found s1 k e kw2 _ _ Ha1 Hp1).
    change (dispatched s1 e kw2 a1) with (dispatched s e kw2 a1).
    rewrite H2. reflexivity. }
  split; [simpl; apply dict_get_set_same|].
  split; [simpl; apply dict_get_set_same|].
  split; [simpl; apply dict_get_set_same|].
  intros e' Hne. simpl. now rewrite !dict_get_set_other.
Qed.

Lemma apply_effect_twice_witness :
  let s := with_tracks (create 44100 2)
             (dict_set (tracks (create 44100 2)) "track_0" [1; 0.5]) in
  exists s1 s2 p2,
    apply_effect s "track_0" "chorus" [("depth"%string, 0.1)] = Ok s1 /\
    apply_effect s1 "track_0" "chorus" [("depth"%string, 0.9)] = Ok s2 /\
    dict_get (tracks s2) "track_0" = Some [1; 0.5] /\
    dict_get (track_parameters s2) "track_0" = Some p2 /\
    dict_get (effects p2) "chorus" = Some [("depth"%string, 0.9)] /\
    forall e', "chorus"%string <> e' ->
      dict_get (effects p2) e' =
      dict_get (effects (mk_params "track_0" false 1 0 [])) e'.
Proof.
  intros s.
  apply (apply_effect_twice s "track_0" "chorus" _ _ [1; 0.5] [1; 0.5] [1; 0.5]);
    reflexivity.
Defined.

End MoreEffects.

(** ** LiveMusicStudio: volume, pan and mute *)

Lemma map_mult_zero (audio : list R) :
  map (fun x => x * 0) audio = repeat 0 (length audio).
Proof.
  induction audio as [|a audio IH]; simpl; [reflexivity|].
  rewrite IH. f_equal. lra.
Qed.

Lemma map_mult_zeros (c : R) (n : nat) :
  map (fun x => x * c) (repeat 0 n) = repeat 0 n.
Proof.
  induction n as [|n IH]; simpl; [reflexivity|].
  rewrite IH. f_equal. lra.
Qed.

Lemma map_mult_one (audio : list R) : map (fun x => x * 1) audio = audio.
Proof.
  induction audio as [|a audio IH]; simpl; [reflexivity|].
  rewrite IH. f_equal. lra.
Qed.

Lemma clamp_below (lo hi v : R) : v <= lo -> lo <= hi -> clamp lo hi v = lo.
Proof.
  intros Hv Hlh. unfold clamp.
  destruct (Rlt_dec v lo); [reflexivity|]. destruct (Rlt_dec hi v); lra.
Qed.

Lemma clamp_above (lo hi v : R) : hi <= v -> lo <= hi -> clamp lo hi v = hi.
Proof.
  intros Hv Hlh. unfold clamp.
  destruct (Rlt_dec v lo); [lra|]. destruct (Rlt_dec hi v); lra.
Qed.

Section VolumePanMute.
Import LiveMusicStudio.

Lemma set_track_volume_result (s : t) (k : string) (v : R) (audio : list R) :
  registry_ok s ->
  dict_get (tracks s) k = Some audio ->
  exists s' p',
    set_track_volume s k v = Ok s' /\
    registry_ok s' /\
    dict_get (tracks s') k = Some (map (fun x => x * clamp 0 1 v) audio) /\
    dict_get (track_parameters s') k = Some p' /\
    volume p' = clamp 0 1 v.
Proof.
  intros Hr Ha.
  assert (Hk : dict_mem (tracks s) k = true)
    by (apply dict_mem_true_get; eauto).
  destruct (registry_params s k Hr Hk) as [p Hp].
  assert (Hpk : dict_mem (track_parameters s) k = true)
    by now rewrite registry_mem.
  rewrite (set_track_volume_found s k v _ _ Ha Hp).
  eexists. eexists. split; [reflexivity|].
  split; [unfold registry_ok in *; simpl;
          rewrite !dict_keys_set by assumption; assumption|].
  split; [simpl; apply dict_get_set_same|].
  split; [simpl; apply dict_get_set_same|]. reflexivity.
Qed.

(** X21. A volume of zero or less silences the track for good: its samples
    become zeros, and no later volume brings the sound back. *)
Theorem set_track_volume_zero_is_final (s : t) (k : string) (v v' : R)
        (audio : list R) :
  registry_ok s ->
  dict_get (tracks s) k = Some audio ->
  v <= 0 ->
  exists s1 s2,
    set_track_volume s k v = Ok s1 /\
    dict_get (tracks s1) k = Some (repeat 0 (length audio)) /\
    set_track_volume s1 k v' = Ok s2 /\
    dict_get (tracks s2) k = Some (repeat 0 (length audio)).
Proof.
  intros Hr Ha Hv.
  destruct (set_track_volume_result s k v audio Hr Ha)
    as (s1 & p1 & E1 & Hr1 & Ha1 & _).
  rewrite clamp_below, map_mult_zero in Ha1 by lra.
  destruct (set_track_volume_result s1 k v' _ Hr1 Ha1)
    as (s2 & p2 & E2 & _ & Ha2 & _).
  exists s1, s2. split; [exact E1|]. split; [exact Ha1|]. split; [exact E2|].
  now rewrite Ha2, map_mult_zeros.
Qed.

Lemma set_track_volume_zero_is_final_witness :
  let s := with_tracks (create 44100 2)
             (dict_set (tracks (create 44100 2)) "track_0" [1; 0.5]) in
  exists s1 s2,
    set_track_volume s "track_0" 0 = Ok s1 /\
    dict_get (tracks s1) "track_0" = Some (repeat 0 (length [1; 0.5])) /\
    set_track_volume s1 "track_0" 1 = Ok s2 /\
    dict_get (tracks s2) "track_0" = Some (repeat 0 (length [1; 0.5])).
Proof.
  intros s.
  apply (set_track_volume_zero_is_final s "track_0" 0 1 [1; 0.5]);
    [reflexivity | reflexivity | lra].
Defined.

(** X22. A volume of 1 or more is stored as 1 and leaves the samples as
    they are: the volume can lower a track, never raise it. *)
Theorem set_track_volume_never_amplifies (s : t) (k : string) (v : R)
        (audio : list R) :
  registry_ok s ->
  dict_get (tracks s) k = Some audio ->
  exists s' p' out,
    set_track_volume s k v = Ok s' /\
    dict_get (tracks s') k = Some out /\
    length out = length audio /\
    (forall i, Rabs (nth i out 0) <= Rabs (nth i audio 0)) /\
    dict_get (track_parameters s') k = Some p' /\
    0 <= volume p' <= 1 /\
    (1 <= v -> out = audio /\ volume p' = 1).
Proof.
  intros Hr Ha.
  destruct (set_track_volume_result s k v audio Hr Ha)
    as (s' & p' & E & _ & Ha' & Hp' & Hv).
  pose proof (clamp_range 0 1 v) as Hc.
  exists s', p', (map (fun x => x * clamp 0 1 v) audio).
  split; [exact E|]. split; [exact Ha'|]. split; [apply length_map|].
  split.
  { intros i. destruct (Nat.lt_ge_cases i (length audio)) as [Hi|Hi].
    - rewrite (map_nth_lt _ _ _ _ 0) by assumption.
      rewrite Rabs_mult, (Rabs_pos_eq (clamp 0 1 v)) by lra.
      pose proof (Rabs_pos (nth i audio 0)). nra.
    - rewrite !nth_overflow by (rewrite ?length_map; lia). lra. }
  split; [exact Hp'|]. split; [rewrite Hv; lra|].
  intros H1. rewrite Hv, clamp_above by lra.
  split; [apply map_mult_one | reflexivity].
Qed.

Lemma set_track_volume_never_amplifies_witness :
  let s := with_tracks (create 44100 2)
             (dict_set (tracks (create 44100 2)) "track_0" [1; 0.5]) in
  exists s' p' out,
    set_track_volume s "track_0" 3 = Ok s' /\
    dict_get (tracks s') "track_0" = Some out /\
    length out = length [1; 0.5] /\
    (forall i, Rabs (nth i out 0) <= Rabs (nth i [1; 0.5] 0)) /\
    dict_get (track_parameters s') "track_0" = Some p' /\
    0 <= volume p' <= 1 /\
    (1 <= 3 -> out = [1; 0.5] /\ volume p' = 1).
Proof.
  intros s.
  apply (set_track_volume_never_amplifies s "track_0" 3 [1; 0.5]);
    reflexivity.
Defined.

(** The mixer reads the mute flag of a track and nothing else of its
    parameters. *)
Lemma mix_step_muted_ext (ps ps' : dict track_params) (n : nat)
      (acc : result (list R)) (item : string * list R) :
  (forall k, option_map muted (dict_get ps k)
             = option_map muted (dict_get ps' k)) ->
  mix_step ps n acc item = mix_step ps' n acc item.
Proof.
  intros H. unfold mix_step. destruct acc as [mono|e]; [|reflexivity].
  destruct item as [k a]. cbv beta iota delta [bind]. unfold dict_lookup.
  specialize (H k).
  destruct (dict_get ps k) as [p|], (dict_get ps' k) as [p'|];
    simpl in H; try discriminate; [|reflexivity].
  injection H as ->. reflexivity.
Qed.

Lemma mix_muted_ext (s s' : t) :
  tracks s' = tracks s ->
  effects_processor s' = effects_processor s ->
  master_volume s' = master_volume s ->
  (forall k, option_map muted (dict_get (track_parameters s') k)
             = option_map muted (dict_get (track_parameters s) k)) ->
  mix s' = mix s.
Proof.
  intros Ht He Hv Hm. unfold mix, mono_sum, max_track_len.
  rewrite Ht, He, Hv.
  set (n := list_max (map (fun audio => length audio)
                          (dict_values (tracks s)))).
  assert (F : forall ts acc,
             fold_left (mix_step (track_parameters s') n) ts acc
             = fold_left (mix_step (track_parameters s) n) ts acc).
  { induction ts as [|item ts IH]; intros acc; simpl; [reflexivity|].
    rewrite IH. f_equal. now apply mix_step_muted_ext. }
  now rewrite F.
Qed.

(** X23. The pan of a track is stored, clamped to [-1, 1], and changes no
    sample and nothing of the mix. *)
Theorem set_track_pan_not_mixed (s : t) (k : string) (v : R) :
  registry_ok s ->
  dict_mem (tracks s) k = true ->
  exists s' p',
    set_track_pan s k v = Ok s' /\
    tracks s' = tracks s /\
    dict_get (track_parameters s') k = Some p' /\
    pan p' = clamp (-1) 1 v /\ -1 <= pan p' <= 1 /\
    mix s' = mix s.
Proof.
  intros Hr Hk.
  destruct (registry_params s k Hr Hk) as [p Hp].
  rewrite (set_track_pan_found s k v _ Hk Hp).
  eexists. eexists. split; [reflexivity|]. split; [reflexivity|].
  split; [simpl; apply dict_get_set_same|]. split; [reflexivity|].
  split; [simpl; apply clamp_range; lra|].
  apply mix_muted_ext; try reflexivity.
  intros k'. simpl. destruct (String.eqb_spec k k') as [<-|Hne].
  - now rewrite dict_get_set_same, Hp.
  - now rewrite dict_get_set_other.
Qed.

Lemma set_track_pan_not_mixed_witness :
  let s := with_tracks (create 44100 2)
             (dict_set (tracks (create 44100 2)) "track_0" [1; 0.5]) in
  exists s' p',
    set_track_pan s "track_0" (-7) = Ok s' /\
    tracks s' = tracks s /\
    dict_get (track_parameters s') "track_0" = Some p' /\
    pan p' = clamp (-1) 1 (-7) /\ -1 <= pan p' <= 1 /\
    mix s' = mix s.
Proof.
  intros s.
  apply (set_track_pan_not_mixed s "track_0" (-7)); reflexivity.
Defined.

(** X24. Muting and then unmuting a track that was not muted gives the
    studio back exactly; muting twice is muting once. *)
Theorem mute_unmute_round_trip (s : t) (k : string) (p : track_params) :
  dict_get (track_parameters s) k = Some p ->
  muted p = false ->
  unmute_track (mute_track s k) k = s /\
  mute_track (mute_track s k) k = mute_track s k /\
  exists p', dict_get (track_parameters (mute_track s k)) k = Some p' /\
             muted p' = true /\ volume p' = volume p /\ pan p' = pan p /\
             effects p' = effects p.
Proof.
  intros Hp Hm.
  assert (Hne : dict_get (track_parameters s) k <> None) by congruence.
  unfold unmute_track, mute_track. rewrite Hp. simpl.
  rewrite dict_get_set_same. simpl.
  rewrite !dict_set_set by assumption.
  split; [|split].
  - replace (set_muted (set_muted p true) false) with p
      by (destruct p; simpl in *; now subst).
    rewrite (dict_set_same_value _ _ _ Hp).
    clear. now destruct s.
  - reflexivity.
  - eexists. split; [reflexivity|]. simpl. auto.
Qed.

Lemma mute_unmute_round_trip_witness :
  let s := create 44100 2 in
  unmute_track (mute_track s "track_1") "track_1" = s /\
  mute_track (mute_track s "track_1") "track_1" = mute_track s "track_1" /\
  exists p',
    dict_get (track_parameters (mute_track s "track_1")) "track_1" = Some p' /\
    muted p' = true /\ volume p' = 1 /\ pan p' = 0 /\ effects p' = [].
Proof.
  intros s.
  apply (mute_unmute_round_trip s "track_1"
           (mk_params "track_1" false 1 0 [])); reflexivity.
Defined.

End VolumePanMute.

(** ** LiveMusicStudio: the level of the mix *)

Section MixLevel.
Import LiveMusicStudio.

Lemma contributions_all_muted (ps : dict track_params) (ts : dict (list R))
      (i : nat) :
  Forall (fun kp => muted (snd kp) = true) ps ->
  sum_list (map (contribution ps i) ts) = 0.
Proof.
  intros Hm. induction ts as [|[k a] ts IH]; simpl; [reflexivity|].
  rewrite IH. unfold contribution. simpl.
  destruct (dict_get ps k) as [p|] eqn:E; [|lra].
  apply dict_get_In in E. rewrite Forall_forall in Hm.
  specialize (Hm _ E). simpl in Hm. rewrite Hm. lra.
Qed.

Lemma normalize_silence (self : EffectsProcessor.t) (n : nat) (target : R) :
  n <> O ->
  EffectsProcessor.normalize self (repeat 0 n) target = Ok (repeat 0 n).
Proof.
  intros Hn. destruct n as [|n]; [contradiction|]. simpl repeat.
  destruct (peak_abs_is_peak 0 (repeat 0 n)) as [m [Hp Hm]].
  unfold EffectsProcessor.normalize. rewrite Hp. cbv beta iota delta [bind].
  assert (Hz : m = 0).
  { apply (is_peak_silent _ _ Hm). constructor; [reflexivity|].
    apply Forall_forall. intros x Hx. now apply repeat_spec in Hx. }
  rewrite Hz. destruct (Rlt_dec 0 0); [exfalso; lra | reflexivity].
Qed.

(** X25. With every track muted the mix is silence, but not the empty
    array: each channel holds as many zeros as the longest track has
    samples. *)
Theorem mix_all_muted (s : t) :
  registry_ok s ->
  Forall (fun kp => muted (snd kp) = true) (track_parameters s) ->
  max_track_len s <> O ->
  mix s = Ok (Array2 [repeat 0 (max_track_len s);
                      repeat 0 (max_track_len s)]).
Proof.
  intros Hr Hm Hn.
  destruct (mono_sum_spec s Hr) as [mono [Em [Hl Hi]]].
  assert (Hz : mono = repeat 0 (max_track_len s)).
  { apply (nth_ext _ _ 0 0); [now rewrite repeat_length|].
    intros i _. rewrite Hi, nth_repeat. now apply contributions_all_muted. }
  unfold mix. destruct (Nat.eqb_spec (max_track_len s) 0); [contradiction|].
  rewrite Em, Hz. cbv beta iota delta [bind].
  rewrite normalize_silence by assumption.
  now rewrite map_mult_zeros.
Qed.

Lemma mix_all_muted_witness :
  let s0 := create 44100 2 in
  let s1 := with_tracks s0 (dict_set (tracks s0) "track_0" [1; 0.5; 1]) in
  let s := mute_track (mute_track s1 "track_0") "track_1" in
  mix s = Ok (Array2 [repeat 0 (max_track_len s); repeat 0 (max_track_len s)])
  /\ max_track_len s = 3%nat.
Proof.
  intros s0 s1 s. split; [|reflexivity].
  apply mix_all_muted.
  - reflexivity.
  - repeat constructor.
  - discriminate.
Defined.

(** X26. When the sum of the audible tracks has a sample that is not zero,
    both channels of the mix peak at 0.9 times the absolute master volume:
    at 0.9 for the master volume 1 every studio is built with, however
    loud or quiet the tracks are. *)
Theorem mix_peak (s : t) (mono : list R) :
  registry_ok s ->
  mono_sum s = Ok mono ->
  Exists (fun x => x <> 0) mono ->
  exists ch,
    mix s = Ok (Array2 [ch; ch]) /\
    is_peak ch (0.9 * Rabs (master_volume s)) /\
    (master_volume s = 1 -> is_peak ch 0.9).
Proof.
  intros Hr Em Hex.
  destruct (mono_sum_spec s Hr) as [mono' [Em' [Hl _]]].
  rewrite Em in Em'. injection Em' as <-.
  destruct mono as [|x l]; [inversion Hex|].
  destruct (peak_abs_is_peak x l) as [m [Hp Hm]].
  pose proof (is_peak_positive _ _ Hm Hex) as Hpos.
  set (ch := map (fun y => y * master_volume s)
               (map (fun a => a * (0.9 / m)) (x :: l))).
  assert (Hpk : is_peak ch (0.9 * Rabs (master_volume s))).
  { replace 0.9 with (m * Rabs (0.9 / m)) at 1.
    - unfold ch. now apply is_peak_scale, is_peak_scale.
    - unfold Rdiv. rewrite Rabs_mult, Rabs_inv, (Rabs_pos_eq m),
        (Rabs_pos_eq 0.9) by lra. field. lra. }
  exists ch. split; [|split].
  - unfold mix. rewrite <- Hl. simpl Nat.eqb. cbv iota.
    rewrite Em. cbv beta iota delta [bind].
    unfold EffectsProcessor.normalize. rewrite Hp.
    cbv beta iota delta [bind].
    destruct (Rlt_dec 0 m); [reflexivity | contradiction].
  - exact Hpk.
  - intros Hv. rewrite Hv, Rabs_R1, Rmult_1_r in Hpk. exact Hpk.
Qed.

Lemma mix_peak_witness :
  let s0 := create 44100 2 in
  let s := with_tracks s0 (dict_set (tracks s0) "track_0" [0.01; -0.02]) in
  exists ch, mix s = Ok (Array2 [ch; ch]) /\ is_peak ch 0.9.
Proof.
  intros s0 s.
  assert (Em : mono_sum s = Ok [0 + 0.01 + 0; 0 + -0.02 + 0]) by reflexivity.
  destruct (mix_peak s _ (create_registry 44100 2 : registry_ok s) Em)
    as [ch [Hx [_ Hp]]].
  - apply Exists_cons_hd. lra.
  - exists ch. split; [exact Hx | now apply Hp].
Defined.

End MixLevel.

(** ** MusicAIStudio: tracks from note names *)

Lemma split_from_app (a b cur : string) (c : Ascii.ascii) :
  py_isspace c = true ->
  split_from cur (a ++ String c b) = split_from cur a ++ split_from "" b.
Proof.
  intros Hc. revert cur. induction a as [|x a IH]; intros cur; simpl.
  - rewrite Hc. destruct (String.eqb cur ""); reflexivity.
  - destruct (py_isspace x).
    + destruct (String.eqb cur ""); simpl; now rewrite IH.
    + apply IH.
Qed.

Section StudioApplication.
Import LiveMusicStudio.

Lemma parse_notes_half_seconds (description : string) :
  Forall (fun note => snd note = 0.5 /\
                      In (fst note) (dict_values MusicAIStudio.note_map))
         (MusicAIStudio.parse_notes description).
Proof.
  unfold MusicAIStudio.parse_notes. apply Forall_forall. intros note Hin.
  apply in_flat_map in Hin. destruct Hin as [w [_ Hin]].
  destruct (dict_get MusicAIStudio.note_map w) as [freq|] eqn:E; [|destruct Hin].
  destruct Hin as [<-|[]]. split; [reflexivity|].
  apply dict_get_In in E. unfold dict_values.
  apply in_map_iff. now exists (w, freq).
Qed.

Lemma list_sum_constant {A : Type} (f : A -> nat) (c : nat) (l : list A) :
  Forall (fun x => f x = c) l -> list_sum (map f l) = (length l * c)%nat.
Proof.
  induction 1 as [|x l Hx _ IH]; simpl; [reflexivity|]. now rewrite Hx, IH.
Qed.

(** X27. [MusicAIStudio.generate_track] never meets the error of an empty
    note list: when the description holds no note name it returns without
    touching the studio, even for a track that does not exist; otherwise it
    raises [NotFound] on an unknown track, and on a known one stores half a
    second of sine per note name, [int(sample_rate * 0.5)] samples each
    (the binary64 product, which is the exact one for a sample rate below
    [2^53]). *)
Theorem app_generate_track (studio : t) (k description : string) :
  let notes := MusicAIStudio.parse_notes description in
  MusicAIStudio.generate_track studio k description <> Err ConcatEmpty /\
  (notes = [] ->
   MusicAIStudio.generate_track studio k description = Ok studio) /\
  (notes <> [] -> dict_mem (tracks studio) k = false ->
   MusicAIStudio.generate_track studio k description = Err (NotFound k)) /\
  (notes <> [] -> dict_mem (tracks studio) k = true ->
   exists studio' audio,
     MusicAIStudio.generate_track studio k description = Ok studio' /\
     generate_track studio k notes "sine" = Ok (studio', audio) /\
     dict_get (tracks studio') k = Some audio /\
     length audio =
       (length notes *
        Z.to_nat (InstrumentSynthesizer.note_samples
                    (synthesizer studio) 0.5))%nat /\
     ((Z.abs (InstrumentSynthesizer.sample_rate (synthesizer studio))
       < 2 ^ 53)%Z ->
      length audio =
        (length notes *
         Z.to_nat (py_int (IZR (InstrumentSynthesizer.sample_rate
                                  (synthesizer studio)) * 0.5)))%nat)).
Proof.
  intros notes. unfold MusicAIStudio.generate_track. fold notes.
  pose proof (parse_notes_half_seconds description) as Hhalf. fold notes in Hhalf.
  destruct notes as [|note notes'] eqn:En.
  { split; [discriminate|]. split; [reflexivity|].
    split; intros H; now contradiction H. }
  destruct (dict_mem (tracks studio) k) eqn:Hk.
  - rewrite generate_track_found by (assumption || discriminate).
    cbv beta iota delta [bind].
    split; [discriminate|]. split; [discriminate|].
    split; [discriminate|]. intros _ _.
    eexists. eexists. split; [reflexivity|]. split; [reflexivity|].
    split; [simpl; apply dict_get_set_same|].
    assert (Hlen : forall c,
               c = Z.to_nat (InstrumentSynthesizer.note_samples
                               (synthesizer studio) 0.5) ->
               length
                 (concat
                    (map (fun '(freq, duration) =>
                            InstrumentSynthesizer.synthesize_note
                              (synthesizer studio) freq duration "sine")
                       (note :: notes')))
               = (length (note :: notes') * c)%nat).
    { intros c ->. rewrite length_concat, map_map.
      apply list_sum_constant.
      eapply Forall_impl; [|exact Hhalf].
      intros [freq duration] [Hd _]. simpl in Hd. subst duration.
      apply synthesize_note_sample_count. }
    split; [apply Hlen; reflexivity|].
    intros Hsr. apply Hlen. now rewrite note_samples_half.
  - rewrite generate_track_missing by (assumption || discriminate).
    cbv beta iota delta [bind].
    split; [discriminate|]. split; [discriminate|].
    split; [reflexivity|]. discriminate.
Qed.

Lemma app_generate_track_witness :
  let studio := create 44100 8 in
  (MusicAIStudio.generate_track studio "drums" "do re mi" = Ok studio) /\
  (MusicAIStudio.generate_track studio "drums" "C D E" = Err (NotFound "drums"))
  /\
  exists studio' audio,
    MusicAIStudio.generate_track studio "track_0" "C x D" = Ok studio' /\
    generate_track studio "track_0" (MusicAIStudio.parse_notes "C x D") "sine"
      = Ok (studio', audio) /\
    dict_get (tracks studio') "track_0" = Some audio /\
    length audio =
      (length (MusicAIStudio.parse_notes "C x D") *
       Z.to_nat (InstrumentSynthesizer.note_samples
                   (synthesizer studio) 0.5))%nat /\
    ((Z.abs (InstrumentSynthesizer.sample_rate (synthesizer studio))
      < 2 ^ 53)%Z ->
     length audio =
       (length (MusicAIStudio.parse_notes "C x D") *
        Z.to_nat (py_int (IZR (InstrumentSynthesizer.sample_rate
                                 (synthesizer studio)) * 0.5)))%nat).
Proof.
  intros studio. split; [|split].
  - apply (app_generate_track studio "drums" "do re mi"). reflexivity.
  - apply (app_generate_track studio "drums" "C D E");
      [discriminate | reflexivity].
  - apply (app_generate_track studio "track_0" "C x D");
      [discriminate | reflexivity].
Defined.

(** X28. Note descriptions compose: two descriptions joined by a whitespace
    character give the notes of the first followed by the notes of the
    second. *)
Theorem parse_notes_joined (a b : string) (c : Ascii.ascii) :
  py_isspace c = true ->
  MusicAIStudio.parse_notes (a ++ String c b) =
  (MusicAIStudio.parse_notes a ++ MusicAIStudio.parse_notes b)%list.
Proof.
  intros Hc. unfold MusicAIStudio.parse_notes, py_split.
  now rewrite split_from_app, flat_map_app.
Qed.

Lemma parse_notes_joined_witness :
  MusicAIStudio.parse_notes ("C D" ++ String (Ascii.ascii_of_nat 32) "E") =
  (MusicAIStudio.parse_notes "C D" ++ MusicAIStudio.parse_notes "E")%list.
Proof.
  apply parse_notes_joined. reflexivity.
Defined.

End StudioApplication.

(** ** ModuleOrchestrator: registry and event log *)

Lemma dict_keys_filter {V : Type} (d : dict V) (k : string) :
  dict_keys (filter (fun kv => negb (String.eqb (fst kv) k)) d)
  = filter (fun k' => negb (String.eqb k' k)) (dict_keys d).
Proof.
  induction d as [|[k' v] d IH]; simpl; [reflexivity|].
  destruct (String.eqb k' k); simpl; now rewrite IH.
Qed.

Lemma dict_get_filter_same {V : Type} (d : dict V) (k : string) :
  dict_get (filter (fun kv => negb (String.eqb (fst kv) k)) d) k = None.
Proof.
  induction d as [|[k' v] d IH]; simpl; [reflexivity|].
  destruct (String.eqb k' k) eqn:E; simpl; [assumption|]. now rewrite E.
Qed.

Lemma dict_get_filter_other {V : Type} (d : dict V) (k k' : string) :
  k <> k' ->
  dict_get (filter (fun kv => negb (String.eqb (fst kv) k)) d) k'
  = dict_get d k'.
Proof.
  intros Hne. induction d as [|[k0 v] d IH]; simpl; [reflexivity|].
  destruct (String.eqb_spec k0 k) as [->|Hk]; simpl.
  - destruct (String.eqb_spec k k'); [contradiction | assumption].
  - now rewrite IH.
Qed.

Lemma dict_del_present {V : Type} (d : dict V) (k : string) :
  dict_mem d k = true ->
  dict_del d k = Ok (filter (fun kv => negb (String.eqb (fst kv) k)) d).
Proof. intros H. unfold dict_del. now rewrite H. Qed.

Lemma dict_keys_set_any {V W : Type} (d : dict V) (e : dict W) (k : string)
      (v : V) (w : W) :
  dict_keys d = dict_keys e ->
  dict_keys (dict_set d k v) = dict_keys (dict_set e k w).
Proof.
  revert e. induction d as [|[k1 v1] d IH]; intros [|[k2 w2] e] H;
    simpl in *; try discriminate; [reflexivity|].
  injection H as -> H.
  destruct (String.eqb k2 k); simpl; f_equal; auto.
Qed.

Lemma skipn_min {A : Type} (j : nat) (l : list A) :
  skipn (Nat.min j (length l)) l = skipn j l.
Proof.
  destruct (Nat.le_ge_cases j (length l)) as [H|H].
  - now rewrite Nat.min_l.
  - rewrite Nat.min_r by assumption. now rewrite !skipn_all2 by lia.
Qed.

Section Orchestrator.
Import ModuleOrchestrator.
Context {M : Type}.

Lemma get_module_status_get (o : t M) (k : string) :
  dict_get (get_module_status o) k
  = option_map value (dict_get (module_states o) k).
Proof.
  unfold get_module_status. induction (module_states o) as [|[k' v] d IH];
    simpl; [reflexivity|].
  destruct (String.eqb k' k); [reflexivity | assumption].
Qed.

(** X29. The registry of the orchestrator. Registering a module makes it
    found, with the state "ready", whatever its state was before, and
    leaves the other modules as they were; unregistering it then raises
    nothing and makes it unknown again; unregistering or changing the state
    of an unknown module changes nothing and logs nothing. All three keep
    the modules and their states in step. *)
Theorem orchestrator_registry (o : t M) (now name : string) (instance : M)
        (state : ModuleState) :
  modules_consistent o ->
  let o1 := register_module o now name instance in
  modules_consistent o1 /\
  get_module o1 name = Some instance /\
  dict_get (get_module_status o1) name = Some "ready"%string /\
  (forall other, name <> other ->
     get_module o1 other = get_module o other /\
     dict_get (get_module_status o1) other
     = dict_get (get_module_status o) other) /\
  modules_consistent (set_module_state o now name state) /\
  (exists o2,
     unregister_module o1 now name = Ok o2 /\
     modules_consistent o2 /\
     get_module o2 name = None /\
     dict_get (get_module_status o2) name = None /\
     forall other, name <> other -> get_module o2 other = get_module o other)
  /\
  (get_module o name = None ->
   unregister_module o now name = Ok o /\
   set_module_state o now name state = o).
Proof.
  intros Hc o1.
  assert (Hc1 : modules_consistent o1)
    by (unfold modules_consistent, o1; simpl; now apply dict_keys_set_any).
  assert (Hm1 : dict_mem (modules o1) name = true).
  { apply dict_mem_true_get. exists instance. apply dict_get_set_same. }
  assert (Hs1 : dict_mem (module_states o1) name = true)
    by now rewrite <- (dict_mem_same_keys _ _ name Hc1).
  split; [exact Hc1|].
  split; [apply dict_get_set_same|].
  split; [rewrite get_module_status_get; simpl;
          now rewrite dict_get_set_same|].
  split.
  { intros other Hne. unfold get_module. rewrite !get_module_status_get.
    simpl. now rewrite !dict_get_set_other. }
  split.
  { unfold set_module_state.
    destruct (dict_mem (module_states o) name) eqn:E; [|exact Hc].
    unfold modules_consistent in *. simpl. now rewrite dict_keys_set. }
  split.
  { unfold unregister_module. rewrite Hm1.
    rewrite !dict_del_present by assumption. cbv beta iota delta [bind].
    eexists. split; [reflexivity|].
    split; [unfold modules_consistent; simpl;
            rewrite !dict_keys_filter; f_equal; exact Hc1|].
    split; [apply dict_get_filter_same|].
    split; [rewrite get_module_status_get; simpl;
            now rewrite dict_get_filter_same|].
    intros other Hne. unfold get_module. simpl.
    rewrite dict_get_filter_other by assumption.
    now apply dict_get_set_other. }
  intros Hnone. unfold get_module in Hnone.
  apply dict_mem_false_get in Hnone.
  unfold unregister_module, set_module_state.
  rewrite <- (dict_mem_same_keys _ _ name Hc), Hnone. split; reflexivity.
Qed.

(** X30. The event log. A registration appends exactly one event; a read with
    [limit] 0 returns the whole log, as with no limit, not an empty list; a
    positive [limit] returns the last [limit] events, all of them when there
    are fewer; a negative [limit] returns the log without its first
    [-limit] events. *)
Theorem orchestrator_event_log (o : t M) (now name : string) (instance : M)
        (limit : Z) :
  event_log (register_module o now name instance) =
    event_log o ++
    [mk_event now "module_registered" [("module"%string, name)]] /\
  get_event_log o None = event_log o /\
  get_event_log o (Some 0%Z) = event_log o /\
  ((0 < limit)%Z ->
   get_event_log o (Some limit) = lastn (Z.to_nat limit) (event_log o)) /\
  ((limit < 0)%Z ->
   get_event_log o (Some limit) = skipn (Z.to_nat (- limit)) (event_log o)).
Proof.
  split; [reflexivity|]. split; [reflexivity|]. split; [reflexivity|].
  unfold get_event_log, slice_start, lastn. split; intros Hl.
  - destruct (Z.eqb_spec limit 0); [lia|].
    destruct (Z.ltb_spec (- limit) 0); [|lia].
    f_equal. lia.
  - destruct (Z.eqb_spec limit 0); [lia|].
    destruct (Z.ltb_spec (- limit) 0); [lia|].
    rewrite <- (skipn_min (Z.to_nat (- limit))). f_equal. lia.
Qed.

End Orchestrator.

Lemma orchestrator_registry_witness :
  let o := ModuleOrchestrator.register_module
             (ModuleOrchestrator.create "t0") "t1" "studio" 7%nat in
  let o1 := ModuleOrchestrator.register_module o "t2" "model" 8%nat in
  ModuleOrchestrator.get_module o1 "model" = Some 8%nat /\
  exists o2,
    ModuleOrchestrator.unregister_module o1 "t2" "model" = Ok o2 /\
    ModuleOrchestrator.get_module o2 "model" = None /\
    ModuleOrchestrator.get_module o2 "studio"
    = ModuleOrchestrator.get_module o "studio".
Proof.
  intros o o1.
  destruct (orchestrator_registry o "t2" "model" 8%nat
              ModuleOrchestrator.ERROR eq_refl)
    as (_ & Hget & _ & _ & _ & Hun & _).
  split; [exact Hget|].
  destruct Hun as (o2 & E & _ & Hnone & _ & Hother).
  exists o2. split; [exact E|]. split; [exact Hnone|].
  apply Hother. discriminate.
Defined.

Lemma orchestrator_event_log_witness :
  let o := ModuleOrchestrator.register_module
             (ModuleOrchestrator.register_module
                (ModuleOrchestrator.create "t0") "t1" "studio" 7%nat)
             "t2" "model" 8%nat in
  length (ModuleOrchestrator.get_event_log o (Some 1%Z)) = 1%nat /\
  length (ModuleOrchestrator.get_event_log o (Some 0%Z)) = 2%nat /\
  length (ModuleOrchestrator.get_event_log o (Some (-1)%Z)) = 1%nat /\
  length (ModuleOrchestrator.get_event_log o (Some 5%Z)) = 2%nat.
Proof.
  intros o.
  pose proof (orchestrator_event_log o "t" "x" 0%nat 1) as (_ & _ & H0 & H1 & _).
  pose proof (orchestrator_event_log o "t" "x" 0%nat (-1)) as (_ & _ & _ & _ & Hm).
  pose proof (orchestrator_event_log o "t" "x" 0%nat 5) as (_ & _ & _ & H5 & _).
  rewrite H0, H1, Hm, H5 by lia. repeat split.
Defined.
